(** * pkgcore: stage operations, observers, the operations registry and
      the plain-text formatter

    A shallow embedding of

    - [pkgcore/interfaces/observer.py]  (module [Observer]),
    - [pkgcore/operations/format.py]    (module [Format]),
    - [pkgcore/operations/repo.py]      (modules [Repo] and [Registry]),
    - [pkgcore/util/formatters.py]      (module [Formatters]),

    with the stage engine these classes run on (module [ForcedDepends]),
    followed by the properties proved about them.  Python code that
    mutates objects and raises exceptions is written in a state and
    exception monad; dictionaries and sets are stdpp's [gmap] and [gset]. *)

From Stdlib Require Import ZArith Lia.
From stdpp Require Import base gmap strings list fin_maps.

Open Scope string_scope.
Open Scope list_scope.

(** ** Python values, exceptions and effects *)

Module Py.

(** The exceptions the modelled code raises or lets through.  [IOError]
    carries its [errno] attribute ([None] when it was built without one);
    [StreamClosed] carries the error it was built from. *)
Inductive exn : Type :=
| AttributeError (attr : string)
| TypeError (what : string)
| NotImplementedError (what : string)
| IOError (errno : option Z)
| KeyboardInterrupt
| StreamClosed (cause : exn)
| OtherError (tag : string).

(** The values a stage method hands back. *)
Inductive value : Type :=
| VNone
| VBool (b : bool)
| VObj (id : nat).

(** Python truth of a value. *)
Definition truthy (v : value) : bool :=
  match v with
  | VNone => false
  | VBool b => b
  | VObj _ => true
  end.

(** A call either returns or raises. *)
Inductive outcome (A : Type) : Type :=
| Ret (a : A)
| Raise (e : exn).

Arguments Ret {A} a.
Arguments Raise {A} e.

(** The value of a call that returned. *)
Definition returned {A} (r : outcome A) : option A :=
  match r with
  | Ret a => Some a
  | Raise _ => None
  end.

(** Computations over a mutable state [S] that may raise. *)
Definition M (S A : Type) : Type := S -> outcome A * S.

Definition ret {S A} (a : A) : M S A := fun s => (Ret a, s).

Definition raise {S A} (e : exn) : M S A := fun s => (Raise e, s).

Definition bind {S A B} (m : M S A) (k : A -> M S B) : M S B :=
  fun s =>
    match m s with
    | (Ret a, s') => k a s'
    | (Raise e, s') => (Raise e, s')
    end.

Definition get {S} : M S S := fun s => (Ret s, s).

Definition modify {S} (f : S -> S) : M S unit := fun s => (Ret tt, f s).

(** [try: m finally: fin r], where the clean-up may look at how the
    body ended.  An exception of the clean-up replaces whatever the body
    produced; otherwise the body's result or exception goes on. *)
Definition try_finally {S A} (m : M S A) (fin : outcome A -> M S unit) : M S A :=
  fun s =>
    let '(r, s1) := m s in
    match fin r s1 with
    | (Ret _, s2) => (r, s2)
    | (Raise e, s2) => (Raise e, s2)
    end.

(** [try: m except <class>, e: h e]; [catches] is the class test. *)
Definition try_except {S A} (m : M S A) (catches : exn -> bool)
    (h : exn -> M S A) : M S A :=
  fun s =>
    match m s with
    | (Ret a, s1) => (Ret a, s1)
    | (Raise e, s1) => if catches e then h e s1 else (Raise e, s1)
    end.

End Py.

Import Py.

Notation "x <- m ;; k" := (bind m (fun x => k))
  (at level 100, m at next level, right associativity).
Notation "m ;;; k" := (bind m (fun _ => k))
  (at level 100, right associativity).

(** ** interfaces/observer.py *)

Module Observer.

(** What reaches an observer: [phase_start(phase)] and
    [phase_end(phase, status)]. *)
Inductive notification : Type :=
| PhaseStart (phase : string)
| PhaseEnd (phase : string) (status : value).

Section Hook.

(** [W] is everything the stage bodies and the observer's handlers can
    change (the instance's fields, the observer's output stream, ...). *)
Context {W : Type}.

(** The state a wrapped call runs in: the notifications issued so far,
    oldest first, and the rest of the world. *)
Record state : Type := State {
  issued : list notification;
  world : W
}.

(** An observer object: its two phase handlers.  A handler works on the
    world and can raise; it does not itself call stage methods. *)
Record observer : Type := {
  phase_start : string -> M W unit;
  phase_end : string -> value -> M W unit
}.

(** [class phase_observer]: both handlers are [pass]. *)
Definition phase_observer : observer :=
  {| phase_start := fun _ => ret tt;
     phase_end := fun _ _ => ret tt |}.

(** The operation instance as the hook sees it: [self.observer], [None]
    or an observer.  The attribute is assigned in the constructors only. *)
Record instance : Type := {
  inst_observer : option observer
}.

(** Running a handler on the world component. *)
Definition on_world {A} (m : M W A) : M state A :=
  fun s =>
    let '(r, w) := m (world s) in
    (r, {| issued := issued s; world := w |}).

(** The call [self.observer.phase_start(phase)]: the notification is
    issued, then the handler runs. *)
Definition call_phase_start (o : observer) (phase : string) : M state unit :=
  modify (fun s => {| issued := issued s ++ [PhaseStart phase]; world := world s |}) ;;;
  on_world (phase_start o phase).

(** The call [self.observer.phase_end(phase, ret)]. *)
Definition call_phase_end (o : observer) (phase : string) (status : value) : M state unit :=
  modify (fun s => {| issued := issued s ++ [PhaseEnd phase status]; world := world s |}) ;;;
  on_world (phase_end o phase status).

(** The local variable [ret] when the [finally] block runs: the body's
    value, or the initial [False] when the assignment never happened. *)
Definition ret_at_finally (r : outcome value) : value :=
  match r with
  | Ret v => v
  | Raise _ => VBool false
  end.

(** [def wrap_build_method(phase, method, self, *args, **kwds)].  The
    [hasattr(self.observer, "phase_start")] test only opens a debugger for
    an object that is no observer; an [observer] always has the handler. *)
Definition wrap_build_method {Args : Type} (phase : string)
    (method : instance -> Args -> M state value)
    (self : instance) (args : Args) : M state value :=
  match inst_observer self with
  | None => method self args
  | Some o =>
      call_phase_start o phase ;;;
      try_finally (method self args)
        (fun r => call_phase_end o phase (ret_at_finally r))
  end.

(** [def decorate_build_method(phase)]: [pre_curry(wrap_build_method,
    phase, func)]. *)
Definition decorate_build_method {Args : Type} (phase : string)
    (func : instance -> Args -> M state value) : instance -> Args -> M state value :=
  wrap_build_method phase func.

End Hook.

Arguments state W : clear implicits.
Arguments observer W : clear implicits.
Arguments instance W : clear implicits.

Section FileObservers.

(** [W] is the world of the observer's output stream. *)
Context {W : Type}.

(** [self._out.write], and [str] of an object that is neither [None]
    nor a boolean. *)
Variable out_write : string -> M W unit.
Variable str_obj : nat -> string.

(** The line feed of ["...\n"]. *)
Definition nl : string := String (Ascii.ascii_of_nat 10) "".

(** What [%s] makes of a value. *)
Definition str (v : value) : string :=
  match v with
  | VNone => "None"
  | VBool true => "True"
  | VBool false => "False"
  | VObj n => str_obj n
  end.

(** [class file_phase_observer]: [phase_start] writes ["starting %s\n" %
    phase], [phase_end] writes ["finished %s: %s\n" % (phase, status)].
    [file_build_observer] and [file_repo_observer] inherit both. *)
Definition file_phase_observer : observer W :=
  {| phase_start := fun phase => out_write ("starting " +:+ phase +:+ nl);
     phase_end := fun phase status =>
       out_write ("finished " +:+ phase +:+ ": " +:+ str status +:+ nl) |}.

End FileObservers.

End Observer.

(** ** operations/format.py *)

Module Format.

(** A fetchable descriptor: the file name it is stored under and its
    source URIs ([x.uri] is true when there is at least one). *)
Record fetchable : Type := {
  filename : string;
  uri : list string
}.

Global Instance fetchable_eq_dec : EqDecision fetchable.
Proof. solve_decision. Defined.

(** Calls made on the capabilities of the instance during [fetch]:
    [self.fetcher(x)] with how the call ended, and [self.nofetch()]. *)
Inductive call : Type :=
| Fetcher (x : fetchable) (result : outcome (option string))
| NoFetch.

Section Fetch.

(** [E] is the state of the fetch capability (the network, the distfiles
    directory). *)
Context {E : Type}.

(** The instance during [fetch]: [self.files] ([None] while the attribute
    is not in [self.__dict__]), the calls made so far, and the
    capability's state. *)
Record state : Type := State {
  files : option (gmap string fetchable);
  calls : list call;
  env : E
}.

(** The fixed attributes of the instance: [self.fetchables],
    [self.fetcher] and [self.nofetch]. *)
Record instance : Type := {
  fetchables : list fetchable;
  fetcher : fetchable -> M E (option string);
  nofetch : M E unit
}.

Definition on_env {A} (m : M E A) : M state A :=
  fun s =>
    let '(r, e) := m (env s) in
    (r, {| files := files s; calls := calls s; env := e |}).

Definition log_call (c : call) : M state unit :=
  modify (fun s => {| files := files s; calls := calls s ++ [c]; env := env s |}).

(** [fp = self.fetcher(x)] *)
Definition call_fetcher (self : instance) (x : fetchable) : M state (option string) :=
  fun s =>
    let '(r, e) := fetcher self x (env s) in
    (r, {| files := files s; calls := calls s ++ [Fetcher x r]; env := e |}).

(** [self.nofetch()] *)
Definition call_nofetch (self : instance) : M state unit :=
  log_call NoFetch ;;;
  on_env (nofetch self).

(** The dictionary behind [self.files] (empty while it is unset). *)
Definition files_dict (s : state) : gmap string fetchable :=
  default ∅ (files s).

(** [set(x.filename for x in self.files.values())] *)
Definition filenames_of (d : gmap string fetchable) : gset string :=
  list_to_set (filename <$> (map_to_list d).*2).

(** [self.files[fp] = x] *)
Definition files_setitem (fp : string) (x : fetchable) : M state unit :=
  modify (fun s => {| files := Some (<[fp := x]> (files_dict s));
                      calls := calls s; env := env s |}).

(** The [for x in self.fetchables] loop, [gotten] being the local
    [gotten_fetchables]. *)
Fixpoint fetch_loop (self : instance) (xs : list fetchable)
    (gotten : gset string) : M state bool :=
  match xs with
  | [] => ret true
  | x :: rest =>
      if decide (filename x ∈ gotten) then fetch_loop self rest gotten
      else
        fp <- call_fetcher self x ;;
        match fp with
        | None =>
            if bool_decide (uri x = []) then
              call_nofetch self ;;; ret false
            else ret false
        | Some p =>
            files_setitem p x ;;;
            fetch_loop self rest ({[filename x]} ∪ gotten)
        end
  end.

(** [def _raw_fetch(self)] *)
Definition _raw_fetch (self : instance) : M state bool :=
  modify (fun s => {| files := Some (files_dict s);
                      calls := calls s; env := env s |}) ;;;
  s <- get ;;
  fetch_loop self (fetchables self) (filenames_of (files_dict s)).

End Fetch.

Arguments state E : clear implicits.
Arguments instance E : clear implicits.

(** *** Constructors of the build operations

    Calling a Python function binds the positional and keyword arguments
    to its parameters; every mismatch is a [TypeError]. *)

(** A [def]'s parameter list: the names in order, and the default values
    of those that have one. *)
Record signature : Type := {
  params : list string;
  defaults : gmap string value
}.

(** Argument binding for a function with no [*args] or [**kwds]
    parameter.  Positional arguments fill the parameters from the left;
    a keyword must name a parameter that is still free; what is left
    takes its default. *)
Definition bind_args (f : signature) (args : list value)
    (kwargs : gmap string value) : outcome (gmap string value) :=
  if bool_decide (length (params f) < length args) then
    Raise (TypeError "too many arguments")
  else
    let positional : gmap string value := list_to_map (zip (params f) args) in
    let names : gset string := list_to_set (params f) in
    let keywords : gset string := dom kwargs in
    let filled : gset string := dom positional in
    if bool_decide (keywords ⊆ names) then
      if bool_decide (keywords ## filled) then
        let bound : gmap string value := positional ∪ kwargs ∪ defaults f in
        let given : gset string := dom bound in
        if bool_decide (names ⊆ given) then Ret bound
        else Raise (TypeError "too few arguments")
      else Raise (TypeError "multiple values for keyword argument")
    else Raise (TypeError "unexpected keyword argument").

(** An instance under construction: its [__dict__]. *)
Definition object : Type := gmap string value.

(** The value a bound parameter has in the body. *)
Definition local (env : gmap string value) (name : string) : value :=
  default VNone (env !! name).

(** [def __init__(self, domain, observer)] of [build_base] *)
Definition build_base_signature : signature :=
  {| params := ["self"; "domain"; "observer"]; defaults := ∅ |}.

(** [build_base.__init__], called as a plain function with [self] as its
    first argument. *)
Definition build_base__init__ (args : list value) (kwargs : gmap string value)
    : M object unit :=
  fun self =>
    match bind_args build_base_signature args kwargs with
    | Raise e => (Raise e, self)
    | Ret env =>
        (Ret tt, <["observer" := local env "observer"]>
                   (<["domain" := local env "domain"]> self))
    end.

(** [def __init__(self, domain, pkg, observer)] of [build] *)
Definition build_signature : signature :=
  {| params := ["self"; "domain"; "pkg"; "observer"]; defaults := ∅ |}.

Definition build__init__ (args : list value) (kwargs : gmap string value)
    : M object unit :=
  fun self =>
    match bind_args build_signature args kwargs with
    | Raise e => (Raise e, self)
    | Ret env =>
        (build_base__init__
           [local env "self"; local env "domain"; local env "observer"] ∅ ;;;
         modify (insert "pkg" (local env "pkg"))) self
    end.

(** [def __init__(self, pkg, observer=None, clean=False)] of
    [empty_build_op] *)
Definition empty_build_op_signature : signature :=
  {| params := ["self"; "pkg"; "observer"; "clean"];
     defaults := {[ "observer" := VNone; "clean" := VBool false ]} |}.

(** [empty_build_op.__init__]: [build_base.__init__(self, observer)],
    then [self.pkg = pkg]. *)
Definition empty_build_op__init__ (args : list value) (kwargs : gmap string value)
    : M object unit :=
  fun self =>
    match bind_args empty_build_op_signature args kwargs with
    | Raise e => (Raise e, self)
    | Ret env =>
        (build_base__init__ [local env "self"; local env "observer"] ∅ ;;;
         modify (insert "pkg" (local env "pkg"))) self
    end.

(** Instantiating a class: a new object [self] is made and [__init__]
    is called with it in front of the caller's arguments; the object is
    the result unless [__init__] raises. *)
Definition instantiate (init : list value -> gmap string value -> M object unit)
    (self : value) (args : list value) (kwargs : gmap string value)
    : outcome object :=
  match init (self :: args) kwargs ∅ with
  | (Ret _, o) => Ret o
  | (Raise e, _) => Raise e
  end.

(** Instantiating [empty_build_op] and [build]. *)
Definition empty_build_op := instantiate empty_build_op__init__.
Definition build := instantiate build__init__.

(** [def __init__(self, pkg, observer=None)] of [maintenance]: the
    observer is stored under the name [obvserver]. *)
Definition maintenance_signature : signature :=
  {| params := ["self"; "pkg"; "observer"];
     defaults := {[ "observer" := VNone ]} |}.

Definition maintenance__init__ (args : list value) (kwargs : gmap string value)
    : M object unit :=
  fun self =>
    match bind_args maintenance_signature args kwargs with
    | Raise e => (Raise e, self)
    | Ret env =>
        (modify (insert "obvserver" (local env "observer")) ;;;
         modify (insert "pkg" (local env "pkg"))) self
    end.

(** [def __init__(self, domain, newpkg, observer)] of [install]; the
    targets of [self.new_pkg = self.pkg = newpkg] are assigned from left
    to right. *)
Definition install_signature : signature :=
  {| params := ["self"; "domain"; "newpkg"; "observer"]; defaults := ∅ |}.

Definition install__init__ (args : list value) (kwargs : gmap string value)
    : M object unit :=
  fun self =>
    match bind_args install_signature args kwargs with
    | Raise e => (Raise e, self)
    | Ret env =>
        (build_base__init__
           [local env "self"; local env "domain"; local env "observer"] ∅ ;;;
         modify (insert "new_pkg" (local env "newpkg")) ;;;
         modify (insert "pkg" (local env "newpkg"))) self
    end.

(** [def __init__(self, domain, oldpkg, observer)] of [uninstall] *)
Definition uninstall_signature : signature :=
  {| params := ["self"; "domain"; "oldpkg"; "observer"]; defaults := ∅ |}.

Definition uninstall__init__ (args : list value) (kwargs : gmap string value)
    : M object unit :=
  fun self =>
    match bind_args uninstall_signature args kwargs with
    | Raise e => (Raise e, self)
    | Ret env =>
        (build_base__init__
           [local env "self"; local env "domain"; local env "observer"] ∅ ;;;
         modify (insert "old_pkg" (local env "oldpkg")) ;;;
         modify (insert "pkg" (local env "oldpkg"))) self
    end.

(** [def __init__(self, domain, old_pkg, new_pkg, observer)] of
    [replace], which calls [build_base.__init__] itself and neither of
    its parents' constructors. *)
Definition replace_signature : signature :=
  {| params := ["self"; "domain"; "old_pkg"; "new_pkg"; "observer"];
     defaults := ∅ |}.

Definition replace__init__ (args : list value) (kwargs : gmap string value)
    : M object unit :=
  fun self =>
    match bind_args replace_signature args kwargs with
    | Raise e => (Raise e, self)
    | Ret env =>
        (build_base__init__
           [local env "self"; local env "domain"; local env "observer"] ∅ ;;;
         modify (insert "new_pkg" (local env "new_pkg")) ;;;
         modify (insert "old_pkg" (local env "old_pkg"))) self
    end.

(** Instantiating the other classes of the module. *)
Definition maintenance := instantiate maintenance__init__.
Definition install := instantiate install__init__.
Definition uninstall := instantiate uninstall__init__.
Definition replace := instantiate replace__init__.

End Format.

(** ** The stage engine behind [__metaclass__ = ForcedDepends]

    [snakeoil.dependant_methods] is imported by [operations/repo.py] and
    [operations/format.py] but is not among the sources; the engine is
    written here after section 4.1 of the specification. *)

Module ForcedDepends.

Section Engine.

(** [S] is the state of the operation instance the stages work on. *)
Context {S : Type}.

(** Modelled from the spec: the engine's view of an instance, which is
    missing from the sources.  [completed] is the completed-stages set,
    kept with the result each stage returned; [ran] lists the stage bodies
    executed so far, oldest first, each with the instance state it was
    entered in; [inner] is the instance itself. *)
Record state : Type := State {
  completed : gmap string value;
  ran : list (string * S);
  inner : S
}.

(** The declared graph ([stage_depends]) and the stage implementations of
    the type (attribute lookup by stage name). *)
Variable stage_depends : gmap string (list string).
Variable methods : string -> option (M S value).

(** Modelled from the spec: the engine's reading of [stage_depends]
    (the engine is missing from the sources): the prerequisites a stage
    declares, left to right; a stage that is no key of the mapping has
    none. *)
Definition prerequisites (name : string) : list string :=
  default [] (stage_depends !! name).

(** Modelled from the spec: how the engine, missing from the sources,
    executes one stage body, noting the entry and marking the stage
    completed "immediately after it returns a truthy result"; a falsy
    result makes the call return false. *)
Definition execute (name : string) (body : M S value) : M state value :=
  fun s =>
    let entered := ran s ++ [(name, inner s)] in
    match body (inner s) with
    | (Ret v, i) =>
        if truthy v then
          (Ret v, {| completed := <[name := v]> (completed s); ran := entered; inner := i |})
        else
          (Ret (VBool false), {| completed := completed s; ran := entered; inner := i |})
    | (Raise e, i) =>
        (Raise e, {| completed := completed s; ran := entered; inner := i |})
    end.

(** Modelled from the spec: the engine's walk over the prerequisites of
    a stage (missing from the sources), run "in declared left-to-right
    order", [go] being the procedure that runs one stage; the first falsy
    result or exception ends the walk. *)
Fixpoint run_prerequisites (go : string -> M state value) (ps : list string)
    : M state bool :=
  match ps with
  | [] => ret true
  | p :: ps' =>
      r <- go p ;;
      if truthy r then run_prerequisites go ps' else ret false
  end.

(** Modelled from the spec: the engine's procedure for one stage
    (missing from the sources).  "To run stage S, recursively resolve S's
    prerequisites (in declared left-to-right order) that are not yet in the
    completed set, running each via the same procedure before running S
    itself"; a falsy result or an exception aborts the chain; a completed
    stage is not executed again and gives its earlier result; a reference
    to a stage with no implementation is a configuration error.  [fuel]
    bounds the depth of the walk. *)
Fixpoint run (fuel : nat) (name : string) : M state value :=
  match fuel with
  | O => raise (OtherError "stage_depends: cycle")
  | Datatypes.S n =>
      s <- get ;;
      match completed s !! name with
      | Some v => ret v
      | None =>
          match methods name with
          | None => raise (OtherError "stage_depends: missing stage")
          | Some body =>
              ok <- run_prerequisites (run n) (prerequisites name) ;;
              if ok : bool then execute name body else ret (VBool false)
          end
      end
  end.

(** Modelled from the spec: the call of a stage method on an instance,
    as the metaclass, missing from the sources, wraps it.  A walk deeper than the number of declared stages has met a stage twice:
    the graph has a cycle, a configuration error. *)
Definition run_stage (name : string) : M state value :=
  run (Datatypes.S (size stage_depends)) name.

(** Modelled from the spec: the engine's state of a new instance
    (missing from the sources), which has completed nothing. *)
Definition fresh (i : S) : state :=
  {| completed := ∅; ran := []; inner := i |}.

End Engine.

Arguments state S : clear implicits.

End ForcedDepends.

(** ** operations/repo.py: repository modifications *)

Module Repo.

(** The contents set a backend computes for a merged package. *)
Definition contents : Type := list string.

(** Package objects: a package as given by the caller, or
    [MutatedPkg(pkg, overrides)] wrapping one. *)
Inductive pkg : Type :=
| Pkg (id : nat)
| MutatedPkg (wrapped : pkg) (overrides : list (string * contents)).

(** The [lock] attribute of a repository object: absent, [None], or a
    lock. *)
Inductive lock_attr : Type :=
| LockMissing
| LockNone
| LockSet.

(** [repo._syncer]: a syncer, or a lazy reference that instantiates to
    one; either way it ends up with a [disabled] flag. *)
Inductive syncer : Type :=
| Syncer (disabled : bool)
| LazySyncer (disabled : bool).

(** The attributes of a repository object this module reads.  [_syncer]
    is [None] when the attribute is absent or is [None]. *)
Record repository : Type := {
  repo_lock : lock_attr;
  frozen : bool;
  _syncer : option syncer
}.

(** What [self.lock] can be: the repository's own lock or a
    [fake_lock()]. *)
Inductive lock_obj : Type :=
| RepoLock
| FakeLock.

(** Calls on the repository: [notify_add_package(pkg)] and
    [notify_remove_package(pkg)]. *)
Inductive notice : Type :=
| NotifyAdd (p : pkg)
| NotifyRemove (p : pkg).

Section Operations.

(** [B] is the state a concrete backend keeps (the file system it merges
    into); [Obs] is the type of observers. *)
Context {B Obs : Type}.

(** An operation instance with the part of the world it acts on:
    the attributes set by the constructors ([new_pkg] and [old_pkg] are
    [None] while unset), whether the repository's write lock is held, the
    notifications the repository received, and the backend's state. *)
Record state : Type := State {
  repo : repository;
  underway : bool;
  observer : option Obs;
  lock : lock_obj;
  new_pkg : option pkg;
  old_pkg : option pkg;
  write_locked : bool;
  notified : list notice;
  backend : B
}.

Definition set_underway (u : bool) (s : state) : state :=
  {| repo := repo s; underway := u; observer := observer s; lock := lock s;
     new_pkg := new_pkg s; old_pkg := old_pkg s;
     write_locked := write_locked s; notified := notified s;
     backend := backend s |}.

Definition set_write_locked (l : bool) (s : state) : state :=
  {| repo := repo s; underway := underway s; observer := observer s;
     lock := lock s; new_pkg := new_pkg s; old_pkg := old_pkg s;
     write_locked := l; notified := notified s; backend := backend s |}.

Definition set_new_pkg (p : option pkg) (s : state) : state :=
  {| repo := repo s; underway := underway s; observer := observer s;
     lock := lock s; new_pkg := p; old_pkg := old_pkg s;
     write_locked := write_locked s; notified := notified s;
     backend := backend s |}.

Definition set_old_pkg (p : option pkg) (s : state) : state :=
  {| repo := repo s; underway := underway s; observer := observer s;
     lock := lock s; new_pkg := new_pkg s; old_pkg := p;
     write_locked := write_locked s; notified := notified s;
     backend := backend s |}.

Definition set_backend (b : B) (s : state) : state :=
  {| repo := repo s; underway := underway s; observer := observer s;
     lock := lock s; new_pkg := new_pkg s; old_pkg := old_pkg s;
     write_locked := write_locked s; notified := notified s;
     backend := b |}.

Definition add_notice (n : notice) (s : state) : state :=
  {| repo := repo s; underway := underway s; observer := observer s;
     lock := lock s; new_pkg := new_pkg s; old_pkg := old_pkg s;
     write_locked := write_locked s; notified := notified s ++ [n];
     backend := backend s |}.

(** [class fake_lock]: all four methods are the empty [__init__]. *)
Definition acquire_write_lock : M state unit :=
  fun s =>
    match lock s with
    | RepoLock => (Ret tt, set_write_locked true s)
    | FakeLock => (Ret tt, s)
    end.

Definition release_write_lock : M state unit :=
  fun s =>
    match lock s with
    | RepoLock => (Ret tt, set_write_locked false s)
    | FakeLock => (Ret tt, s)
    end.

(** A new object in a world where the repository's lock state is
    [locked], the repository has received [seen] and the backend is in
    [b].  The attributes hold placeholders until [__init__] assigns them. *)
Definition blank (r : repository) (locked : bool) (seen : list notice) (b : B) : state :=
  {| repo := r; underway := false; observer := None; lock := FakeLock;
     new_pkg := None; old_pkg := None;
     write_locked := locked; notified := seen; backend := b |}.

(** [base.__init__(self, repo, observer)] *)
Definition base__init__ (r : repository) (o : option Obs) : M state unit :=
  fun self =>
    let self1 :=
      {| repo := r; underway := false; observer := o; lock := lock self;
         new_pkg := new_pkg self; old_pkg := old_pkg self;
         write_locked := write_locked self; notified := notified self;
         backend := backend self |} in
    let with_lock (l : lock_obj) :=
      {| repo := r; underway := false; observer := o; lock := l;
         new_pkg := new_pkg self; old_pkg := old_pkg self;
         write_locked := write_locked self; notified := notified self;
         backend := backend self |} in
    match repo_lock r with
    | LockMissing => (Raise (AttributeError "lock"), self1)
    | LockNone => (Ret tt, with_lock FakeLock)
    | LockSet => (Ret tt, with_lock RepoLock)
    end.

(** [base.start] *)
Definition start : M state value :=
  modify (set_underway true) ;;;
  acquire_write_lock ;;;
  ret (VBool true).

(** [base.finish] *)
Definition finish : M state value :=
  release_write_lock ;;;
  modify (set_underway false) ;;;
  ret (VBool true).

(** [install.__init__(self, repo, pkg, observer)] *)
Definition install__init__ (r : repository) (p : pkg) (o : option Obs) : M state unit :=
  base__init__ r o ;;;
  modify (set_new_pkg (Some p)).

(** [install._notify_repo_add] *)
Definition _notify_repo_add : M state value :=
  s <- get ;;
  match new_pkg s with
  | None => raise (AttributeError "new_pkg")
  | Some p => modify (add_notice (NotifyAdd p)) ;;; ret (VBool true)
  end.

(** [install._update_pkg_contents(self, contents)] *)
Definition _update_pkg_contents (c : contents) : M state unit :=
  s <- get ;;
  match new_pkg s with
  | None => raise (AttributeError "new_pkg")
  | Some p => modify (set_new_pkg (Some (MutatedPkg p [("contents", c)])))
  end.

(** [uninstall.__init__(self, repo, pkg, observer)] *)
Definition uninstall__init__ (r : repository) (p : pkg) (o : option Obs) : M state unit :=
  base__init__ r o ;;;
  modify (set_old_pkg (Some p)).

(** [uninstall._notify_repo_remove] *)
Definition _notify_repo_remove : M state value :=
  s <- get ;;
  match old_pkg s with
  | None => raise (AttributeError "old_pkg")
  | Some p => modify (add_notice (NotifyRemove p)) ;;; ret (VBool true)
  end.

(** [replace.__init__(self, repo, oldpkg, newpkg, observer)] *)
Definition replace__init__ (r : repository) (oldpkg newpkg : pkg) (o : option Obs) : M state unit :=
  uninstall__init__ r oldpkg o ;;;
  install__init__ r newpkg o.

(** The stages a backend supplies by overriding [add_data], [remove_data]
    and [finalize_data].  Such a body reads the instance, works on the
    backend's own state, and may call [self._update_pkg_contents]; it
    yields the contents it passed to that hook, in order, and how it
    ended.  The class [uninstall] has no such hook, so its bodies yield
    none. *)
Definition data_stage : Type := state -> list contents * (outcome value * B).
Definition plain_stage : Type := state -> outcome value * B.

(** The hook calls of a body, one after the other. *)
Fixpoint update_all (cs : list contents) : M state unit :=
  match cs with
  | [] => ret tt
  | c :: cs' => _update_pkg_contents c ;;; update_all cs'
  end.

(** A backend's stage as a method of the instance. *)
Definition data_method (body : data_stage) : M state value :=
  fun s =>
    let '(cs, (r, b)) := body s in
    match update_all cs (set_backend b s) with
    | (Ret _, s') => (r, s')
    | (Raise e, s') => (Raise e, s')
    end.

Definition plain_method (body : plain_stage) : M state value :=
  fun s => let '(r, b) := body s in (r, set_backend b s).

(** The bodies left abstract by the classes of this module,
    [base.finalize_data], [install.add_data] and [uninstall.remove_data]:
    [raise NotImplementedError(self, name)]. *)
Definition abstract (name : string) : data_stage :=
  fun s => ([], (Raise (NotImplementedError name), backend s)).

Definition abstract_plain (name : string) : plain_stage :=
  fun s => (Raise (NotImplementedError name), backend s).

(** [install.stage_depends] *)
Definition install_stage_depends : gmap string (list string) :=
  {[ "finish" := ["_notify_repo_add"];
     "_notify_repo_add" := ["finalize_data"];
     "finalize_data" := ["add_data"];
     "add_data" := ["start"] ]}.

(** [uninstall.stage_depends] *)
Definition uninstall_stage_depends : gmap string (list string) :=
  {[ "finish" := ["_notify_repo_remove"];
     "_notify_repo_remove" := ["finalize_data"];
     "finalize_data" := ["remove_data"];
     "remove_data" := ["start"] ]}.

(** [replace.stage_depends] *)
Definition replace_stage_depends : gmap string (list string) :=
  {[ "finish" := ["_notify_repo_add"];
     "_notify_repo_add" := ["finalize_data"];
     "finalize_data" := ["add_data"; "_notify_repo_remove"];
     "_notify_repo_remove" := ["remove_data"];
     "remove_data" := ["start"];
     "add_data" := ["start"] ]}.

(** The methods of a class, looked up by stage name. *)
Definition method_of (table : list (string * M state value)) (name : string)
    : option (M state value) :=
  (list_to_map table : gmap string (M state value)) !! name.

(** A subclass of [install] with its [add_data] and [finalize_data]. *)
Definition install_methods (add_data finalize_data : data_stage)
    : list (string * M state value) :=
  [ ("start", start); ("finish", finish);
    ("finalize_data", data_method finalize_data);
    ("add_data", data_method add_data);
    ("_notify_repo_add", _notify_repo_add) ].

(** A subclass of [uninstall] with its [remove_data] and
    [finalize_data]. *)
Definition uninstall_methods (remove_data finalize_data : plain_stage)
    : list (string * M state value) :=
  [ ("start", start); ("finish", finish);
    ("finalize_data", plain_method finalize_data);
    ("remove_data", plain_method remove_data);
    ("_notify_repo_remove", _notify_repo_remove) ].

(** A subclass of [replace] with its three data stages. *)
Definition replace_methods (add_data remove_data finalize_data : data_stage)
    : list (string * M state value) :=
  [ ("start", start); ("finish", finish);
    ("finalize_data", data_method finalize_data);
    ("add_data", data_method add_data);
    ("remove_data", data_method remove_data);
    ("_notify_repo_add", _notify_repo_add);
    ("_notify_repo_remove", _notify_repo_remove) ].

(** Calling the stage method [name] on an instance of each class. *)
Definition install_run (add_data finalize_data : data_stage) (name : string)
    : M (ForcedDepends.state state) value :=
  ForcedDepends.run_stage install_stage_depends
    (method_of (install_methods add_data finalize_data)) name.

Definition uninstall_run (remove_data finalize_data : plain_stage) (name : string)
    : M (ForcedDepends.state state) value :=
  ForcedDepends.run_stage uninstall_stage_depends
    (method_of (uninstall_methods remove_data finalize_data)) name.

Definition replace_run (add_data remove_data finalize_data : data_stage)
    (name : string) : M (ForcedDepends.state state) value :=
  ForcedDepends.run_stage replace_stage_depends
    (method_of (replace_methods add_data remove_data finalize_data)) name.

End Operations.

Arguments state B Obs : clear implicits.
Arguments data_stage B Obs : clear implicits.
Arguments plain_stage B Obs : clear implicits.

End Repo.

(** ** operations/repo.py: the operations registry *)

Module Registry.

Import Repo.

(** The five [_cmd_enabled_*] methods of [class operations]. *)
Inductive wrapper : Type :=
| EnabledInstall
| EnabledUninstall
| EnabledReplace
| EnabledConfigure
| EnabledSync.

(** What an attribute of a registry class or instance can hold: [None];
    a support predicate (called with no argument, it looks at
    [self.repo]); one of the enabled wrappers above; any other callable
    (a handler [_cmd_<x>], an ordinary method), known by a name; any
    other object. *)
Inductive attribute : Type :=
| ANone
| ACheck (supported : repository -> bool)
| AEnabled (w : wrapper)
| ACallable (id : string)
| AValue.

(** Observers handed to a handler: the caller's, or the
    [observer_mod.repo_observer()] made by [_default_observer]. *)
Inductive observer : Type :=
| RepoObserver
| Given (id : nat).

(** Arguments a handler is called with. *)
Inductive argument : Type :=
| ArgPkg (p : pkg)
| ArgObserver (o : observer)
| ArgAttr (a : attribute).

(** [_disabled_if_frozen(self, command)]: [not self.repo.frozen] (the
    debug log line aside). *)
Definition _disabled_if_frozen (command : string) (r : repository) : bool :=
  negb (frozen r).

(** [_get_syncer(self).disabled]: a lazy reference is instantiated
    first. *)
Definition syncer_disabled (s : syncer) : bool :=
  match s with
  | Syncer d => d
  | LazySyncer d => d
  end.

(** [_cmd_check_support_sync(self)] *)
Definition _cmd_check_support_sync (r : repository) : bool :=
  match _syncer r with
  | None => false
  | Some s => negb (syncer_disabled s)
  end.

(** The attributes defined in the body of [class operations] (the loop
    variable [x] is deleted again).  [post_curry(_disabled_if_frozen, x)]
    fixes the command argument. *)
Definition operations_attrs : gmap string attribute :=
  list_to_map
    [ ("__init__", ACallable "__init__");
      ("_filter_disabled_commands", ACallable "_filter_disabled_commands");
      ("_enable_operation", ACallable "_enable_operation");
      ("_disabled_if_frozen", ACallable "_disabled_if_frozen");
      ("_collect_operations", ACallable "_collect_operations");
      ("supports", ACallable "supports");
      ("_default_observer", ACallable "_default_observer");
      ("_cmd_enabled_install", AEnabled EnabledInstall);
      ("_cmd_enabled_uninstall", AEnabled EnabledUninstall);
      ("_cmd_enabled_replace", AEnabled EnabledReplace);
      ("_cmd_check_support_install", ACheck (_disabled_if_frozen "install"));
      ("_cmd_check_support_uninstall", ACheck (_disabled_if_frozen "uninstall"));
      ("_cmd_check_support_replace", ACheck (_disabled_if_frozen "replace"));
      ("_cmd_enabled_configure", AEnabled EnabledConfigure);
      ("_cmd_enabled_sync", AEnabled EnabledSync);
      ("_cmd_sync", ACallable "_cmd_sync");
      ("_get_syncer", ACallable "_get_syncer");
      ("_cmd_check_support_sync", ACheck _cmd_check_support_sync) ].

(** A subclass: the attributes its body defines come before the
    inherited ones. *)
Definition subclass (defined : gmap string attribute) : gmap string attribute :=
  defined ∪ operations_attrs.

(** A registry object: its class, its [__dict__], and the two attributes
    [__init__] assigns directly, [self.repo] and [self._enabled_ops]. *)
Record registry : Type := {
  cls : gmap string attribute;
  dict : gmap string attribute;
  repo : repository;
  _enabled_ops : gset string
}.

(** Attribute lookup on an instance: its [__dict__], then its class. *)
Definition getattr_in (c d : gmap string attribute) (name : string) : option attribute :=
  match d !! name with
  | Some a => Some a
  | None => c !! name
  end.

Definition getattr (self : registry) (name : string) : option attribute :=
  getattr_in (cls self) (dict self) name.

(** The attributes every instance of a new-style class has without its
    class body or [__init__] defining them (Python 2.7).  None of them
    starts with [_cmd_], and none is read by the methods of the class, so
    [getattr] above leaves them out; [hasattr], which [supports] calls
    with any name it is given, does not. *)
Definition object_attrs : list string :=
  [ "__class__"; "__delattr__"; "__dict__"; "__doc__"; "__format__";
    "__getattribute__"; "__hash__"; "__init__"; "__module__"; "__new__";
    "__reduce__"; "__reduce_ex__"; "__repr__"; "__setattr__"; "__sizeof__";
    "__str__"; "__subclasshook__"; "__weakref__" ].

(** [hasattr(self, name)] *)
Definition hasattr (self : registry) (name : string) : bool :=
  bool_decide (is_Some (getattr self name)) || bool_decide (name ∈ object_attrs).

(** [dir(cls)]; its callers only collect from it, so the order is left as
    the map gives it. *)
Definition dir (c : gmap string attribute) : list string :=
  (map_to_list c).*1.

(** [x.startswith(p)] and [x[len(p):]] *)
Definition startswith (x p : string) : bool := String.prefix p x.

Definition strip (p x : string) : string :=
  String.substring (String.length p) (String.length x - String.length p) x.

(** [_collect_operations(cls)] *)
Definition _collect_operations (c : gmap string attribute) : list string :=
  omap (fun x =>
          if startswith x "_cmd_" && negb (startswith x "_cmd_enabled_")
             && negb (startswith x "_cmd_check_support_")
          then Some (strip "_cmd_" x) else None)
       (dir c).

(** [_filter_disabled_commands(self, sequence)], run to the end as
    [set(...)] does.  Something that is neither [None] nor a support
    predicate cannot be called as [check_f()]. *)
Fixpoint _filter_disabled_commands (c d : gmap string attribute)
    (r : repository) (sequence : list string) : outcome (list string) :=
  match sequence with
  | [] => Ret []
  | command :: rest =>
      let continue (keep : bool) :=
        match _filter_disabled_commands c d r rest with
        | Ret l => Ret (if keep then command :: l else l)
        | Raise e => Raise e
        end in
      match getattr_in c d ("_cmd_check_support_" +:+ command) with
      | None | Some ANone => continue true
      | Some (ACheck check_f) => continue (check_f r)
      | Some _ => Raise (TypeError "check_f")
      end
  end.

(** [_enable_operation(self, operation)] on the instance's [__dict__] *)
Definition _enable_operation (c d : gmap string attribute) (operation : string)
    : outcome (gmap string attribute) :=
  match getattr_in c d ("_cmd_enabled_" +:+ operation) with
  | None => Raise (AttributeError ("_cmd_enabled_" +:+ operation))
  | Some a => Ret (<[operation := a]> d)
  end.

(** [for op in enabled_ops: self._enable_operation(op)] *)
Fixpoint enable_all (c d : gmap string attribute) (ops : list string)
    : outcome (gmap string attribute) :=
  match ops with
  | [] => Ret d
  | op :: rest =>
      match _enable_operation c d op with
      | Ret d' => enable_all c d' rest
      | Raise e => Raise e
      end
  end.

(** [operations.__init__(self, repository, disable_overrides=(),
    enable_overrides=())] for an instance of class [c]. *)
Definition __init__ (c : gmap string attribute) (repository : repository)
    (disable_overrides enable_overrides : list string) : outcome registry :=
  let d0 : gmap string attribute := {[ "repo" := AValue ]} in
  match _filter_disabled_commands c d0 repository (_collect_operations c) with
  | Raise e => Raise e
  | Ret cmds =>
      let enabled_ops : gset string :=
        (list_to_set cmds ∪ list_to_set enable_overrides)
          ∖ list_to_set disable_overrides in
      match enable_all c d0 (elements enabled_ops) with
      | Raise e => Raise e
      | Ret d =>
          Ret {| cls := c; dict := <["_enabled_ops" := AValue]> d;
                 repo := repository; _enabled_ops := enabled_ops |}
      end
  end.

(** What [supports] returns: a set of names or a boolean. *)
Inductive supports_result : Type :=
| Ops (names : gset string)
| Flag (b : bool).

(** [supports(self, operation_name=None, raw=False)], [collected] being
    what [self._collect_operations()] yields; [not operation_name] holds
    for [None] and for the empty string. *)
Definition supports_from (collected : list string) (self : registry)
    (operation_name : option string) (raw : bool) : supports_result :=
  match operation_name with
  | None | Some "" =>
      if negb raw then Ops (_enabled_ops self)
      else Ops (list_to_set collected)
  | Some name =>
      if raw then Flag (hasattr self ("_cmd_enabled_" +:+ name))
      else Flag (hasattr self name)
  end.

(** [supports] on an instance of [operations] or of a subclass that
    keeps the class method [_collect_operations]. *)
Definition supports (self : registry) : option string -> bool -> supports_result :=
  supports_from (_collect_operations (cls self)) self.

(** [_default_observer(self, observer)] *)
Definition _default_observer (o : option observer) : observer :=
  match o with
  | None => RepoObserver
  | Some o' => o'
  end.

Section Calls.

(** What the handlers of the concrete registry class do when called. *)
Variable handlers : string -> list argument -> outcome value.

(** The calls that reached a handler, oldest first. *)
Definition world : Type := list (string * list argument).

(** Reading an attribute in an expression: [AttributeError] when it is
    absent. *)
Definition read (self : registry) (name : string) : M world attribute :=
  match getattr self name with
  | Some a => ret a
  | None => raise (AttributeError name)
  end.

(** Calling what an attribute holds.  Handlers are the callables of the
    model; [None] and plain objects cannot be called. *)
Definition call (callee : attribute) (args : list argument) : M world value :=
  match callee with
  | ACallable id =>
      modify (fun w => w ++ [(id, args)]) ;;;
      (fun w => (handlers id args, w))
  | _ => raise (TypeError "call")
  end.

(** The enabled wrappers.  Python evaluates the callee, then the
    arguments from left to right, then makes the call. *)
Definition _cmd_enabled_install (self : registry) (p : pkg)
    (o : option observer) : M world value :=
  f <- read self "_cmd_install" ;;
  call f [ArgPkg p; ArgObserver (_default_observer o)].

Definition _cmd_enabled_uninstall (self : registry) (p : pkg)
    (o : option observer) : M world value :=
  f <- read self "_cmd_uninstall" ;;
  call f [ArgPkg p; ArgObserver (_default_observer o)].

Definition _cmd_enabled_replace (self : registry) (oldpkg newpkg : pkg)
    (o : option observer) : M world value :=
  f <- read self "_cmd_replace" ;;
  call f [ArgPkg oldpkg; ArgPkg newpkg; ArgObserver (_default_observer o)].

Definition _cmd_enabled_configure (self : registry) (p : pkg)
    (o : option observer) : M world value :=
  f <- read self "_cmd_configure" ;;
  r <- read self "repository" ;;
  call f [ArgAttr r; ArgPkg p; ArgObserver (_default_observer o)].

Definition _cmd_enabled_sync (self : registry) (o : option observer) : M world value :=
  f <- read self "_cmd_sync" ;;
  call f [ArgObserver (_default_observer o)].

End Calls.

(** *** [class operations_proxy] *)

(** [operations.__init__] on an instance whose [__dict__] holds [d]
    already and whose [_collect_operations] yields [collected]; for a new
    instance of a class that keeps [_collect_operations], this is
    [__init__] above. *)
Definition __init__on (c d : gmap string attribute) (collected : list string)
    (repository : repository) (disable_overrides enable_overrides : list string)
    : outcome registry :=
  let d0 : gmap string attribute := <["repo" := AValue]> d in
  match _filter_disabled_commands c d0 repository collected with
  | Raise e => Raise e
  | Ret cmds =>
      let enabled_ops : gset string :=
        (list_to_set cmds ∪ list_to_set enable_overrides)
          ∖ list_to_set disable_overrides in
      match enable_all c d0 (elements enabled_ops) with
      | Raise e => Raise e
      | Ret d' =>
          Ret {| cls := c; dict := <["_enabled_ops" := AValue]> d';
                 repo := repository; _enabled_ops := enabled_ops |}
      end
  end.

(** The attributes defined in the body of [class operations_proxy]. *)
Definition operations_proxy_attrs : gmap string attribute :=
  subclass
    (list_to_map
       [ ("__init__", ACallable "operations_proxy.__init__");
         ("_get_target_attrs", ACallable "_get_target_attrs");
         ("_proxy_op", ACallable "_proxy_op");
         ("_proxy_op_support", ACallable "_proxy_op");
         ("_collect_operations", ACallable "operations_proxy._collect_operations") ]).

(** [_get_target_attrs(self)]: [dir] of the registry object
    [self.repo.raw_repo.operations], called [target] here.  The loop that
    reads it keeps the names that start with [_cmd_] only, so the
    [object_attrs] are left out. *)
Definition _get_target_attrs (target : registry) : list string :=
  dir (dict target ∪ cls target).

(** [partial(self._proxy_op_support, attr)]: called without arguments by
    [_filter_disabled_commands], it calls the target's attribute, a
    support predicate that looks at the target's repository. *)
Definition proxy_op_support (target : registry) (attr : string) : attribute :=
  match getattr target attr with
  | Some (ACheck supported) => ACheck (fun _ => supported (repo target))
  | _ => ACallable "_proxy_op_support"
  end.

(** [partial(self._proxy_op, attr)]: a call of it is a call of the
    target's attribute with the same arguments. *)
Definition proxy_op (target : registry) (attr : string) : attribute :=
  default ANone (getattr target attr).

(** One turn of the loop in [operations_proxy.__init__]. *)
Definition set_proxy (target : registry) (d : gmap string attribute) (attr : string)
    : gmap string attribute :=
  if startswith attr "_cmd_" then
    if startswith attr "_cmd_check_support_" then
      <[attr := proxy_op_support target attr]> d
    else if negb (startswith attr "_cmd_enabled_") then
      <[attr := proxy_op target attr]> d
    else d
  else d.

(** [operations_proxy.__init__(self, repository, *args, **kwds)] for an
    instance of class [c], [target] being an instance of [operations] or
    of a subclass that keeps its [_collect_operations]. *)
Definition operations_proxy__init__ (c : gmap string attribute) (target : registry)
    (repository : repository) (disable_overrides enable_overrides : list string)
    : outcome registry :=
  let d := foldl (set_proxy target) {[ "repo" := AValue ]} (_get_target_attrs target) in
  __init__on c d (_collect_operations (cls target)) repository
    disable_overrides enable_overrides.

(** [operations_proxy._collect_operations(self)]: what the target's
    [_collect_operations] yields. *)
Definition proxy_collect_operations (target : registry) : list string :=
  _collect_operations (cls target).

(** [supports] on an instance of [operations_proxy] over [target]: the
    method is inherited, and calls the [_collect_operations] above. *)
Definition proxy_supports (target self : registry)
    : option string -> bool -> supports_result :=
  supports_from (proxy_collect_operations target) self.

End Registry.

(** ** util/formatters.py *)

Module Formatters.

(** The exception classes involved. *)
Inductive exn_class : Type :=
| BaseException_
| Exception_
| StandardError_
| EnvironmentError_
| IOError_
| KeyboardInterrupt_
| StreamClosed_
| OtherClass_.

Global Instance exn_class_eq_dec : EqDecision exn_class.
Proof. solve_decision. Defined.

(** The class an exception object is an instance of. *)
Definition class_of (e : exn) : exn_class :=
  match e with
  | IOError _ => IOError_
  | KeyboardInterrupt => KeyboardInterrupt_
  | StreamClosed _ => StreamClosed_
  | _ => OtherClass_
  end.

(** The base named in each class statement: [class
    StreamClosed(KeyboardInterrupt)] from this module, the rest from the
    built-in hierarchy. *)
Definition base (c : exn_class) : option exn_class :=
  match c with
  | StreamClosed_ => Some KeyboardInterrupt_
  | KeyboardInterrupt_ => Some BaseException_
  | IOError_ => Some EnvironmentError_
  | EnvironmentError_ => Some StandardError_
  | StandardError_ => Some Exception_
  | Exception_ => Some BaseException_
  | BaseException_ => None
  | OtherClass_ => None
  end.

(** [issubclass(c, d)], following [base] at most [depth] times. *)
Fixpoint issubclass_within (depth : nat) (c d : exn_class) : bool :=
  bool_decide (c = d) ||
  match depth, base c with
  | S n, Some b => issubclass_within n b d
  | _, _ => false
  end.

Definition issubclass (c d : exn_class) : bool := issubclass_within 8 c d.

(** [isinstance(e, c)], the test an [except c] clause makes. *)
Definition isinstance (e : exn) (c : exn_class) : bool :=
  issubclass (class_of e) c.

(** [e.errno] of a caught [IOError]. *)
Definition errno_of (e : exn) : option Z :=
  match e with
  | IOError n => n
  | _ => None
  end.

Section PlainText.

(** [F] is the formatter with its stream; [Args] is what [write] is
    called with ([*args] and the [wrap] and [autoline] keywords). *)
Context {F Args : Type}.

(** [errno.EPIPE] *)
Variable EPIPE : Z.

(** The suite of the [try] statement in [PlainTextFormatter.write]:
    the loop that writes the prefix and the arguments to [self.stream],
    wrapping lines.  It fails when a [self.stream.write] call (or a
    callable argument) raises. *)
Variable write_suite : Args -> M F unit.

(** The [except IOError, e] clause: [raise StreamClosed(e)] for
    [errno.EPIPE], a bare [raise] otherwise. *)
Definition on_IOError (e : exn) : M F unit :=
  if bool_decide (errno_of e = Some EPIPE) then raise (StreamClosed e)
  else raise e.

(** [PlainTextFormatter.write(self, *args, **kwargs)] *)
Definition write (args : Args) : M F unit :=
  try_except (write_suite args) (fun e => isinstance e IOError_) on_IOError.

End PlainText.

(** *** The suite of [write]

    The loops of [_write_prefix] and [write] on a formatter object. *)

(** Python's sequence operations used by [write], on lists: the index a
    slice bound [k] stands for in a sequence of length [n] (a negative
    bound counts from the end, and the result is clipped to the
    sequence), [l[:k]], [l[k:]], and [l.rfind(c, 0, stop)] for a single
    element [c], which is [-1] when there is none. *)
Definition index (n : nat) (k : Z) : nat :=
  Z.to_nat (Z.min (Z.max (if (k <? 0)%Z then (k + Z.of_nat n)%Z else k) 0)
                  (Z.of_nat n)).

Definition slice_to {A} (l : list A) (k : Z) : list A :=
  take (index (length l) k) l.

Definition slice_from {A} (l : list A) (k : Z) : list A :=
  drop (index (length l) k) l.

Fixpoint last_index {A} (p : A -> bool) (l : list A) : option nat :=
  match l with
  | [] => None
  | x :: rest =>
      match last_index p rest with
      | Some i => Some (S i)
      | None => if p x then Some 0 else None
      end
  end.

Definition rfind {A} (p : A -> bool) (l : list A) (stop : Z) : Z :=
  match last_index p (slice_to l stop) with
  | Some i => Z.of_nat i
  | None => (-1)%Z
  end.

(** A string object: a [str] (its characters) or a [unicode] (its code
    points). *)
Inductive text : Type :=
| Str (s : list Ascii.ascii)
| Unicode (u : list N).

(** [len(t)], [t.rfind(' ', 0, stop)], [t[:k]] and [t[k:]] *)
Definition len (t : text) : Z :=
  match t with
  | Str s => Z.of_nat (length s)
  | Unicode u => Z.of_nat (length u)
  end.

Definition rfind_space (t : text) (stop : Z) : Z :=
  match t with
  | Str s => rfind (fun a => Ascii.eqb a (Ascii.ascii_of_nat 32)) s stop
  | Unicode u => rfind (fun c => N.eqb c 32%N) u stop
  end.

Definition text_to (t : text) (k : Z) : text :=
  match t with
  | Str s => Str (slice_to s k)
  | Unicode u => Unicode (slice_to u k)
  end.

Definition text_from (t : text) (k : Z) : text :=
  match t with
  | Str s => Str (slice_from s k)
  | Unicode u => Unicode (slice_from u k)
  end.

(** The line feed written between lines. *)
Definition newline : string := String (Ascii.ascii_of_nat 10) "".

Section Suite.

(** [St] is the state of the stream object, [X] what a subclass adds to
    the formatter, [C] the callables that may be passed to [write] or be
    part of a prefix. *)
Context {St X C : Type}.

(** What [write] accepts as an argument and a prefix holds: [None], a
    [str], a [unicode], a callable (called with the formatter), or any
    other object (written as its [str]). *)
Inductive thing : Type :=
| TNone
| TStr (s : string)
| TUnicode (u : list N)
| TCallable (c : C)
| TObject (id : nat).

(** The attributes of a [PlainTextFormatter]. *)
Record formatter : Type := Formatter {
  autoline : bool;
  wrap : bool;
  width : Z;
  _pos : Z;
  _in_first_line : bool;
  _wrote_something : bool;
  first_prefix : list thing;
  later_prefix : list thing;
  stream : St;
  ext : X
}.

(** [self.stream.write]; the stream's [encoding] attribute ([None] when
    it is absent or [None]); [u.encode(encoding, 'replace')]; [str] of an
    object; and what calling a callable with the formatter does. *)
Variable stream_write : string -> M St unit.
Variable stream_encoding : St -> option string.
Variable encode : string -> list N -> outcome string.
Variable str_obj : nat -> string.
Variable call_thing : C -> M formatter thing.

(** [PlainTextFormatter.__init__(self, stream, width=79)] *)
Definition PlainTextFormatter__init__ (stream : St) (width : option Z) (x : X)
    : formatter :=
  {| autoline := true; wrap := false; width := default 79%Z width; _pos := 0;
     _in_first_line := true; _wrote_something := false;
     first_prefix := [TStr ""]; later_prefix := [TStr ""];
     stream := stream; ext := x |}.

Definition set_pos (p : Z) (f : formatter) : formatter :=
  {| autoline := autoline f; wrap := wrap f; width := width f; _pos := p;
     _in_first_line := _in_first_line f; _wrote_something := _wrote_something f;
     first_prefix := first_prefix f; later_prefix := later_prefix f;
     stream := stream f; ext := ext f |}.

Definition set_in_first_line (b : bool) (f : formatter) : formatter :=
  {| autoline := autoline f; wrap := wrap f; width := width f; _pos := _pos f;
     _in_first_line := b; _wrote_something := _wrote_something f;
     first_prefix := first_prefix f; later_prefix := later_prefix f;
     stream := stream f; ext := ext f |}.

Definition set_wrote_something (b : bool) (f : formatter) : formatter :=
  {| autoline := autoline f; wrap := wrap f; width := width f; _pos := _pos f;
     _in_first_line := _in_first_line f; _wrote_something := b;
     first_prefix := first_prefix f; later_prefix := later_prefix f;
     stream := stream f; ext := ext f |}.

Definition set_stream (st : St) (f : formatter) : formatter :=
  {| autoline := autoline f; wrap := wrap f; width := width f; _pos := _pos f;
     _in_first_line := _in_first_line f; _wrote_something := _wrote_something f;
     first_prefix := first_prefix f; later_prefix := later_prefix f;
     stream := st; ext := ext f |}.

(** A run of formatter code: [None] when it does not come to an end
    within the iterations allowed to its [while] loops. *)
Definition run (A : Type) : Type := formatter -> option (outcome A * formatter).

Definition done {A} (a : A) : run A := fun f => Some (Ret a, f).

Definition fails {A} (e : exn) : run A := fun f => Some (Raise e, f).

Definition and_then {A B} (m : run A) (k : A -> run B) : run B :=
  fun f =>
    match m f with
    | None => None
    | Some (Ret a, f') => k a f'
    | Some (Raise e, f') => Some (Raise e, f')
    end.

Definition update (g : formatter -> formatter) : run unit :=
  fun f => Some (Ret tt, g f).

(** [self.stream.write(s)] *)
Definition write_stream (s : string) : run unit :=
  fun f =>
    let '(r, st) := stream_write s (stream f) in
    Some (r, set_stream st f).

(** [getattr(self.stream, 'encoding', '') or 'ascii'] *)
Definition encoding_of (f : formatter) : string :=
  match stream_encoding (stream f) with
  | Some e => if String.eqb e "" then "ascii" else e
  | None => "ascii"
  end.

(** The first steps on an argument or prefix element: [while
    callable(thing): thing = thing(self)], at most [fuel] times; then
    [None] is skipped and anything but a string is replaced by its
    [str]. *)
Fixpoint resolve (fuel : nat) (t : thing) : run (option text) :=
  match t with
  | TNone => done None
  | TStr s => done (Some (Str (String.list_ascii_of_string s)))
  | TUnicode u => done (Some (Unicode u))
  | TObject id => done (Some (Str (String.list_ascii_of_string (str_obj id))))
  | TCallable c =>
      match fuel with
      | 0 => fun _ => None
      | S n => and_then (fun f => Some (call_thing c f)) (resolve n)
      end
  end.

(** [if isinstance(t, unicode): t = t.encode(encoding, 'replace')] and
    [self.stream.write(t)] *)
Definition write_text (encoding : string) (t : text) : run unit :=
  match t with
  | Str s => write_stream (String.string_of_list_ascii s)
  | Unicode u =>
      match encode encoding u with
      | Ret s => write_stream s
      | Raise e => fails e
      end
  end.

(** [for thing in prefix] of [_write_prefix] *)
Fixpoint prefix_loop (fuel : nat) (encoding : string) (prefix : list thing)
    : run unit :=
  match prefix with
  | [] => done tt
  | t :: rest =>
      and_then (resolve fuel t) (fun x =>
      match x with
      | None => prefix_loop fuel encoding rest
      | Some a =>
          and_then (update (fun f => set_pos (_pos f + len a) f)) (fun _ =>
          and_then (write_text encoding a) (fun _ =>
          prefix_loop fuel encoding rest))
      end)
  end.

(** [_write_prefix(self, wrap)] *)
Definition _write_prefix (fuel : nat) (wrap : bool) : run unit :=
  fun f =>
    let prefix := if _in_first_line f then first_prefix f else later_prefix f in
    and_then (prefix_loop fuel (encoding_of f) prefix) (fun _ f' =>
      if wrap && (width f' <=? _pos f')%Z
      then Some (Ret tt, set_pos (width f' - 10) f')
      else Some (Ret tt, f')) f.

(** [while wrap and self._pos + len(arg) > self.width], at most [fuel]
    times; the result is what is left of [arg]. *)
Fixpoint wrap_loop (fuel : nat) (encoding : string) (wrap : bool) (arg : text)
    : run text :=
  fun f =>
    if wrap && (width f <? _pos f + len arg)%Z then
      match fuel with
      | 0 => None
      | S n =>
          let maxlen := (width f - _pos f)%Z in
          let space := rfind_space arg maxlen in
          let '(bit, rest) :=
            if (space =? -1)%Z then
              if _in_first_line f || _wrote_something f then (Str [], arg)
              else (text_to arg maxlen, text_from arg maxlen)
            else (text_to arg space, text_from arg (space + 1)) in
          and_then (write_text encoding bit) (fun _ =>
          and_then (write_stream newline) (fun _ =>
          and_then (update (fun f =>
                      set_wrote_something false
                        (set_in_first_line false (set_pos 0 f)))) (fun _ =>
          and_then (_write_prefix n wrap) (fun _ =>
          wrap_loop n encoding wrap rest)))) f
      end
    else Some (Ret arg, f).

(** [for arg in args] of [write] *)
Fixpoint args_loop (fuel : nat) (encoding : string) (wrap : bool)
    (args : list thing) : run unit :=
  match args with
  | [] => done tt
  | arg :: rest =>
      and_then (fun f => if (_pos f =? 0)%Z then _write_prefix fuel wrap f
                         else Some (Ret tt, f)) (fun _ =>
      and_then (resolve fuel arg) (fun x =>
      match x with
      | None => args_loop fuel encoding wrap rest
      | Some a =>
          and_then (wrap_loop fuel encoding wrap a) (fun a' =>
          and_then (update (set_wrote_something true)) (fun _ =>
          and_then (update (fun f => set_pos (_pos f + len a') f)) (fun _ =>
          and_then (write_text encoding a') (fun _ =>
          args_loop fuel encoding wrap rest))))
      end))
  end.

(** The suite of the [try] statement of [PlainTextFormatter.write],
    with the three assignments before it.  [kw_wrap] and [kw_autoline]
    are the keyword arguments [wrap] and [autoline], when given. *)
Definition suite (fuel : nat) (args : list thing) (kw_wrap kw_autoline : option bool)
    : run unit :=
  fun f =>
    let encoding := encoding_of f in
    let wrap := default (wrap f) kw_wrap in
    let autoline := default (autoline f) kw_autoline in
    and_then (args_loop fuel encoding wrap args) (fun _ =>
      if autoline then
        and_then (write_stream newline) (fun _ =>
        update (fun f => set_in_first_line true
                           (set_pos 0 (set_wrote_something false f))))
      else done tt) f.

(** [PlainTextFormatter.write(self, *args, **kwargs)]: the suite under
    the [except IOError] clause of [write]. *)
Definition PlainTextFormatter_write (EPIPE : Z) (fuel : nat) (args : list thing)
    (kw_wrap kw_autoline : option bool) : run unit :=
  fun f =>
    (fun res => write EPIPE (fun (_ : unit) (_ : formatter) => res) tt f)
      <$> suite fuel args kw_wrap kw_autoline f.

(** [ObserverFormatter.write(self, *args)], over a plain-text
    formatter: [self._formatter.write(autoline=False, *args)]. *)
Definition ObserverFormatter_write (EPIPE : Z) (fuel : nat) (args : list thing)
    : run unit :=
  PlainTextFormatter_write EPIPE fuel args None (Some false).

End Suite.

Arguments thing C : clear implicits.
Arguments formatter St X C : clear implicits.
Arguments run St X C A : clear implicits.

(** *** [class TerminfoFormatter]

    The terminal's capabilities come from [curses]; a capability is kept
    as the string [tigetstr] gives for it, the empty string standing for
    one the terminal does not have. *)

Section Terminfo.

(** [St] is the state of the stream object, [C0] the callables other
    than the terminal codes of this module. *)
Context {St C0 : Type}.

(** What a [TerminfoFormatter] has besides the attributes of a
    [PlainTextFormatter]: [self.reset.value], [self.bold.value],
    [self.underline.value], [_color_reset], [_set_color] (foreground,
    background), [_current_colors] (foreground, background) and
    [_modes], the modes switched on, each known by the code it writes. *)
Record terminfo : Type := Terminfo {
  reset_value : string;
  bold_value : string;
  underline_value : string;
  _color_reset : string;
  _set_color : string * string;
  _current_colors : option string * option string;
  _modes : gset string
}.

(** The callables of this module: [TerminfoColor(mode, color)] with
    mode 0 (foreground, [false]) or 1 (background, [true]),
    [TerminfoMode(value)] and [TerminfoReset(value)]; and any other. *)
Inductive code : Type :=
| Color (mode : bool) (color : option string)
| Mode (value : string)
| Reset (value : string)
| Other (c : C0).

Definition tformatter : Type := formatter St terminfo code.

Variable stream_write : string -> M St unit.
Variable stream_encoding : St -> option string.
Variable encode : string -> list N -> outcome string.
Variable str_obj : nat -> string.
Variable other_call : C0 -> M tformatter (thing code).

(** [curses.COLOR_*] and [curses.tparm(template, color)] *)
Variables COLOR_BLACK COLOR_RED COLOR_GREEN COLOR_YELLOW : Z.
Variables COLOR_BLUE COLOR_MAGENTA COLOR_CYAN COLOR_WHITE : Z.
Variable tparm : string -> Z -> string.

(** [TerminfoFormatter._colors] *)
Definition _colors : gmap string Z :=
  list_to_map
    [ ("black", COLOR_BLACK); ("red", COLOR_RED); ("green", COLOR_GREEN);
      ("yellow", COLOR_YELLOW); ("blue", COLOR_BLUE); ("magenta", COLOR_MAGENTA);
      ("cyan", COLOR_CYAN); ("white", COLOR_WHITE) ].

Definition set_ext (x : terminfo) (f : tformatter) : tformatter :=
  {| autoline := autoline f; wrap := wrap f; width := width f; _pos := _pos f;
     _in_first_line := _in_first_line f; _wrote_something := _wrote_something f;
     first_prefix := first_prefix f; later_prefix := later_prefix f;
     stream := stream f; ext := x |}.

Definition set_modes (m : gset string) (x : terminfo) : terminfo :=
  {| reset_value := reset_value x; bold_value := bold_value x;
     underline_value := underline_value x; _color_reset := _color_reset x;
     _set_color := _set_color x; _current_colors := _current_colors x;
     _modes := m |}.

Definition set_current_colors (c : option string * option string) (x : terminfo)
    : terminfo :=
  {| reset_value := reset_value x; bold_value := bold_value x;
     underline_value := underline_value x; _color_reset := _color_reset x;
     _set_color := _set_color x; _current_colors := c; _modes := _modes x |}.

(** [pair[mode]] and [pair[mode] = v] on a two-element sequence *)
Definition at_mode {A} (mode : bool) (pair : A * A) : A :=
  if mode then snd pair else fst pair.

Definition with_mode {A} (mode : bool) (v : A) (pair : A * A) : A * A :=
  if mode then (fst pair, v) else (v, snd pair).

(** [formatter.stream.write(s)] in a callable *)
Definition code_write (s : string) : M tformatter unit :=
  fun f =>
    let '(r, st) := stream_write s (stream f) in
    (r, set_stream st f).

(** [TerminfoColor.__call__(self, formatter)]; like the two below it
    returns [None]. *)
Definition TerminfoColor__call__ (mode : bool) (color : option string)
    : M tformatter (thing code) :=
  fun f =>
    let x := ext f in
    match color with
    | None =>
        let colors := with_mode mode None (_current_colors x) in
        let res :=
          match at_mode (negb mode) colors with
          | Some other => _color_reset x +:+ other
          | None => _color_reset x
          end in
        (code_write res ;;; ret TNone) (set_ext (set_current_colors colors x) f)
    | Some name =>
        let default_ := if mode then COLOR_BLACK else COLOR_WHITE in
        let number := default default_ (_colors !! name) in
        let template := at_mode mode (_set_color x) in
        let res := if String.eqb template "" then "" else tparm template number in
        (code_write res ;;; ret TNone)
          (set_ext (set_current_colors
                      (with_mode mode (Some res) (_current_colors x)) x) f)
    end.

(** [TerminfoMode.__call__(self, formatter)] *)
Definition TerminfoMode__call__ (value : string) : M tformatter (thing code) :=
  fun f =>
    (code_write value ;;; ret TNone)
      (set_ext (set_modes ({[ value ]} ∪ _modes (ext f)) (ext f)) f).

(** [TerminfoReset.__call__(self, formatter)] *)
Definition TerminfoReset__call__ (value : string) : M tformatter (thing code) :=
  fun f =>
    (code_write value ;;; ret TNone) (set_ext (set_modes ∅ (ext f)) f).

(** Calling a callable with the formatter. *)
Definition call_code (c : code) : M tformatter (thing code) :=
  match c with
  | Color mode color => TerminfoColor__call__ mode color
  | Mode value => TerminfoMode__call__ value
  | Reset value => TerminfoReset__call__ value
  | Other c0 => other_call c0
  end.

(** [self.bold], [self.underline], [self.reset], [self.fg(color)] and
    [self.bg(color)], to be passed to [write] *)
Definition bold (f : tformatter) : thing code := TCallable (Mode (bold_value (ext f))).
Definition underline (f : tformatter) : thing code :=
  TCallable (Mode (underline_value (ext f))).
Definition reset (f : tformatter) : thing code := TCallable (Reset (reset_value (ext f))).
Definition fg (color : option string) : thing code := TCallable (Color false color).
Definition bg (color : option string) : thing code := TCallable (Color true color).

(** The statements of [TerminfoFormatter.write] after the call of
    [PlainTextFormatter.write]. *)
Definition reset_codes : M tformatter unit :=
  f <- get ;;
  (if bool_decide (_modes (ext f) <> ∅)
   then TerminfoReset__call__ (reset_value (ext f)) ;;; ret tt
   else ret tt) ;;;
  f <- get ;;
  if bool_decide (_current_colors (ext f) <> (None, None)) then
    modify (fun f => set_ext (set_current_colors (None, None) (ext f)) f) ;;;
    code_write (_color_reset (ext f))
  else ret tt.

(** [TerminfoFormatter.write(self, *args, **kwargs)] *)
Definition TerminfoFormatter_write (EPIPE : Z) (fuel : nat) (args : list (thing code))
    (kw_wrap kw_autoline : option bool) : run St terminfo code unit :=
  fun f =>
    (fun res =>
       write EPIPE
         (fun (_ : unit) (_ : tformatter) =>
            match res with
            | (Ret _, f1) => reset_codes f1
            | (Raise e, f1) => (Raise e, f1)
            end) tt f)
      <$> PlainTextFormatter_write stream_write stream_encoding encode str_obj
            call_code EPIPE fuel args kw_wrap kw_autoline f.

End Terminfo.

Arguments terminfo : clear implicits.
Arguments code C0 : clear implicits.
Arguments tformatter St C0 : clear implicits.

End Formatters.

(** * Sample instances used by the witnesses and examples *)

(** A stage body that raises, under the plain [phase_observer]. *)
Definition failing_stage : Observer.instance unit -> unit -> M (Observer.state unit) value :=
  fun _ _ => raise (OtherError "boom").

Definition observed : Observer.instance unit :=
  {| Observer.inst_observer := Some Observer.phase_observer |}.


(** A repository with a lock and one without, both unfrozen. *)
Definition locked_repo : Repo.repository :=
  {| Repo.repo_lock := Repo.LockSet; Repo.frozen := false; Repo._syncer := None |}.

Definition lockless_repo : Repo.repository :=
  {| Repo.repo_lock := Repo.LockNone; Repo.frozen := false; Repo._syncer := None |}.

(** A backend with no state whose data stages succeed; its
    [finalize_data] passes the merged contents to the hook. *)
Definition merged : Repo.contents := ["/usr/bin/tool"].

Definition ok_stage : Repo.data_stage unit nat :=
  fun _ => ([], (Ret (VBool true), tt)).

Definition finalizing_stage : Repo.data_stage unit nat :=
  fun _ => ([merged], (Ret (VBool true), tt)).

Definition ok_plain_stage : Repo.plain_stage unit nat :=
  fun _ => (Ret (VBool true), tt).

(** New operation instances over these repositories. *)
Definition new_install (r : Repo.repository) : Repo.state unit nat :=
  snd (Repo.install__init__ r (Repo.Pkg 1) None (Repo.blank r false [] tt)).

Definition new_uninstall (r : Repo.repository) : Repo.state unit nat :=
  snd (Repo.uninstall__init__ r (Repo.Pkg 0) None (Repo.blank r false [] tt)).

Definition new_replace (r : Repo.repository) : Repo.state unit nat :=
  snd (Repo.replace__init__ r (Repo.Pkg 0) (Repo.Pkg 1) None (Repo.blank r false [] tt)).

(** The names of the stages entered, and the flag and lock state each was
    entered with. *)
Definition entries (st : ForcedDepends.state (Repo.state unit nat))
    : list (string * bool * bool) :=
  (fun e => (fst e, Repo.underway (snd e), Repo.write_locked (snd e)))
    <$> ForcedDepends.ran st.

(** A frozen repository, and registries built over it. *)
Definition frozen_repo : Repo.repository :=
  {| Repo.repo_lock := Repo.LockSet; Repo.frozen := true; Repo._syncer := None |}.

(** A repository with a working syncer. *)
Definition syncing_repo : Repo.repository :=
  {| Repo.repo_lock := Repo.LockSet; Repo.frozen := false;
     Repo._syncer := Some (Repo.Syncer false) |}.

(** A registry class that supplies the four handlers [operations] leaves
    to its subclasses. *)
Definition four_handlers : gmap string Registry.attribute :=
  list_to_map
    [ ("_cmd_install", Registry.ACallable "_cmd_install");
      ("_cmd_uninstall", Registry.ACallable "_cmd_uninstall");
      ("_cmd_replace", Registry.ACallable "_cmd_replace");
      ("_cmd_configure", Registry.ACallable "_cmd_configure") ].

Definition full_class : gmap string Registry.attribute :=
  Registry.subclass four_handlers.

(** The registry a construction gave (an empty one if it raised). *)
Definition built (o : outcome Registry.registry) : Registry.registry :=
  match o with
  | Ret reg => reg
  | Raise _ =>
      {| Registry.cls := ∅; Registry.dict := ∅; Registry.repo := frozen_repo;
         Registry._enabled_ops := ∅ |}
  end.

Definition frozen_registry : Registry.registry :=
  built (Registry.__init__ Registry.operations_attrs frozen_repo [] []).

Definition forced_registry : Registry.registry :=
  built (Registry.__init__ Registry.operations_attrs frozen_repo [] ["install"]).

Definition full_registry : Registry.registry :=
  built (Registry.__init__ full_class syncing_repo [] []).

(** The same class over the frozen repository, and a proxy registry for
    the frozen repository over [full_registry]. *)
Definition frozen_full : Registry.registry :=
  built (Registry.__init__ full_class frozen_repo [] []).

Definition frozen_proxy : Registry.registry :=
  built (Registry.operations_proxy__init__ Registry.operations_proxy_attrs
           full_registry frozen_repo [] []).

(** Handlers that do nothing. *)
Definition idle_handlers : string -> list Registry.argument -> outcome value :=
  fun _ _ => Ret VNone.

(** A write suite that fails with the given exception, on a formatter
    with no state. *)
Definition failing_suite (e : exn) : unit -> M unit unit := fun _ => raise e.

(** [errno.EPIPE] on Linux. *)
Definition linux_EPIPE : Z := 32.

(** Two fetchables with a URI and one without; [archive_b] is already in
    the fetch record. *)
Definition archive_a : Format.fetchable :=
  {| Format.filename := "a.tar"; Format.uri := ["http://host/a.tar"] |}.

Definition archive_b : Format.fetchable :=
  {| Format.filename := "b.tar"; Format.uri := ["http://host/b.tar"] |}.

Definition local_c : Format.fetchable :=
  {| Format.filename := "c.tar"; Format.uri := [] |}.

Definition have_b : Format.state unit :=
  {| Format.files := Some {[ "/distfiles/b.tar" := archive_b ]};
     Format.calls := []; Format.env := tt |}.

(** A capability that finds nothing, and one that only finds
    [archive_a]. *)
Definition nothing_found : Format.fetchable -> M unit (option string) :=
  fun _ => ret None.

Definition only_a : Format.fetchable -> M unit (option string) :=
  fun x => ret (if decide (x = archive_a) then Some "/distfiles/a.tar" else None).

Definition fetching (xs : list Format.fetchable)
    (fetcher : Format.fetchable -> M unit (option string)) : Format.instance unit :=
  {| Format.fetchables := xs; Format.fetcher := fetcher; Format.nofetch := ret tt |}.

(** A stream with room for one line only, and the file observer on it. *)
Definition one_line_write (line : string) : M (list string) unit :=
  fun w => match w with
           | [] => (Ret tt, [line])
           | _ => (Raise (IOError (Some 28%Z)), w)
           end.

Definition show_obj (n : nat) : string := "<object>".

Definition cramped : Observer.instance (list string) :=
  {| Observer.inst_observer :=
       Some (Observer.file_phase_observer one_line_write show_obj) |}.

(** A stage body that succeeds without writing anything. *)
Definition silent_stage
    : Observer.instance (list string) -> unit -> M (Observer.state (list string)) value :=
  fun _ _ => ret (VBool true).

(** A capability that stores every download under the same path. *)
Definition one_path : Format.fetchable -> M unit (option string) :=
  fun _ => ret (Some "/distfiles/download").

Definition nothing_yet : Format.state unit :=
  {| Format.files := None; Format.calls := []; Format.env := tt |}.

(** A plain-text formatter that takes no callables, on a stream kept as
    the list of the strings written to it (see [buffer_write] below):
    the stream has no [encoding], and [encode] is ASCII with
    replacement. *)
Definition no_callable
    (c : Empty_set)
    : M (Formatters.formatter (list string) unit Empty_set)
        (Formatters.thing Empty_set) :=
  match c with end.

Definition no_encoding (st : list string) : option string := None.

Definition ascii_replace (encoding : string) (u : list N) : outcome string :=
  Ret (String.string_of_list_ascii
         ((fun c => if (c <? 128)%N then Ascii.ascii_of_N c
                    else Ascii.ascii_of_nat 63) <$> u)).

(** A formatter [width] characters wide whose first line starts with
    ["> "] and whose later lines start with two blanks. *)
Definition quoting (width : Z)
    : Formatters.formatter (list string) unit Empty_set :=
  {| Formatters.autoline := true; Formatters.wrap := false;
     Formatters.width := width; Formatters._pos := 0;
     Formatters._in_first_line := true; Formatters._wrote_something := false;
     Formatters.first_prefix := [Formatters.TStr "> "];
     Formatters.later_prefix := [Formatters.TStr "  "];
     Formatters.stream := []; Formatters.ext := tt |}.

(** Things to write: a message with [None] and an object in it, and a
    line to be wrapped. *)
Definition fetch_message : list (Formatters.thing Empty_set) :=
  [Formatters.TStr "fetching "; Formatters.TNone; Formatters.TObject 7].

Definition long_line : list (Formatters.thing Empty_set) :=
  [Formatters.TStr "hello world foo bar baz"].

(** A registry over an unfrozen repository built with install disabled
    by an override, and a frozen repository that wraps it. *)
Definition held_back : Registry.registry :=
  built (Registry.__init__ full_class syncing_repo ["install"] []).

Definition proxying : Registry.registry :=
  built (Registry.operations_proxy__init__ Registry.operations_proxy_attrs
           held_back frozen_repo [] []).

(** A terminal whose codes are written as readable tags, with the
    colour numbers of ncurses, and a formatter on it. *)
Definition tag_tparm (template : string) (color : Z) : string :=
  template +:+ String (Ascii.ascii_of_nat (48 + Z.to_nat color)) "".

Definition no_other (c : Empty_set)
    : M (Formatters.tformatter (list string) Empty_set)
        (Formatters.thing (Formatters.code Empty_set)) :=
  match c with end.

Definition tagged : Formatters.terminfo :=
  {| Formatters.reset_value := "<sgr0>"; Formatters.bold_value := "<bold>";
     Formatters.underline_value := "<smul>"; Formatters._color_reset := "<op>";
     Formatters._set_color := ("<setaf>", "<setab>");
     Formatters._current_colors := (None, None); Formatters._modes := ∅ |}.

Definition terminal : Formatters.tformatter (list string) Empty_set :=
  Formatters.PlainTextFormatter__init__ [] (Some 80%Z) tagged.

(** A formatter [width] characters wide that indents the later lines by
    four blanks. *)
Definition indenting (width : Z)
    : Formatters.formatter (list string) unit Empty_set :=
  {| Formatters.autoline := true; Formatters.wrap := true;
     Formatters.width := width; Formatters._pos := 0;
     Formatters._in_first_line := true; Formatters._wrote_something := false;
     Formatters.first_prefix := [Formatters.TStr ""];
     Formatters.later_prefix := [Formatters.TStr "    "];
     Formatters.stream := []; Formatters.ext := tt |}.

(** * Notions used in the statements *)

(** A capability call that produced a file. *)
Definition fetched (c : Format.call) : Prop :=
  match c with
  | Format.Fetcher _ (Ret (Some _)) => True
  | _ => False
  end.

(** What a capability call adds to the fetch record. *)
Definition record_call (d : gmap string Format.fetchable) (c : Format.call)
    : gmap string Format.fetchable :=
  match c with
  | Format.Fetcher x (Ret (Some p)) => <[p := x]> d
  | _ => d
  end.

(** The file names obtained by a sequence of capability calls. *)
Definition fetched_names (cs : list Format.call) : gset string :=
  list_to_set
    (omap (fun c => match c with
                    | Format.Fetcher x (Ret (Some _)) => Some (Format.filename x)
                    | _ => None
                    end) cs).

(** A hook that always comes back. *)
Definition never_raises {E : Type} (m : M E unit) : Prop :=
  forall e, exists e', m e = (Ret tt, e').

(** The fetch record [d] holds a file of name [f]. *)
Definition in_record (d : gmap string Format.fetchable) (f : string) : Prop :=
  exists fp y, d !! fp = Some y /\ Format.filename y = f.

(** A caller invoking the stage methods [names] one after the other on
    an instance, whatever each call returns or raises. *)
Definition call_stages {S : Type}
    (run : string -> M (ForcedDepends.state S) value)
    (names : list string) (st : ForcedDepends.state S) : ForcedDepends.state S :=
  foldl (fun st name => snd (run name st)) st names.

(** The operation is under way and, when its lock is the repository's,
    the write lock is held. *)
Definition guarded {B Obs : Type} (s : Repo.state B Obs) : Prop :=
  Repo.underway s = true /\
  (Repo.lock s = Repo.RepoLock -> Repo.write_locked s = true).

(** The discipline of a repository operation, read off the stage bodies
    executed on an instance: every stage but [start] is entered with the
    operation guarded; [start] was entered before any of the [data]
    stages; the [notify] stage was entered before [finish]. *)
Definition stage_discipline {B Obs : Type} (notify : string) (data : list string)
    (trace : list (string * Repo.state B Obs)) : Prop :=
  (forall n s, (n, s) ∈ trace -> n <> "start" -> guarded s) /\
  (forall pre n s post, trace = pre ++ (n, s) :: post ->
     n ∈ data -> "start" ∈ pre.*1) /\
  (forall pre s post, trace = pre ++ ("finish", s) :: post -> notify ∈ pre.*1).

(** The rank of a stage in a table (0 for a stage not listed). *)
Definition rank_in (table : list (string * nat)) (name : string) : nat :=
  default 0 ((list_to_map table : gmap string nat) !! name).

Definition install_rank : string -> nat :=
  rank_in [("start", 0); ("add_data", 1); ("finalize_data", 2);
           ("_notify_repo_add", 3); ("finish", 4)].

Definition uninstall_rank : string -> nat :=
  rank_in [("start", 0); ("remove_data", 1); ("finalize_data", 2);
           ("_notify_repo_remove", 3); ("finish", 4)].

Definition replace_rank : string -> nat :=
  rank_in [("start", 0); ("add_data", 1); ("remove_data", 1);
           ("_notify_repo_remove", 2); ("finalize_data", 3);
           ("_notify_repo_add", 4); ("finish", 5)].

(** A package after the content-update hook was called with each of
    [cs] in turn. *)
Definition mutated (p : Repo.pkg) (cs : list Repo.contents) : Repo.pkg :=
  foldl (fun q c => Repo.MutatedPkg q [("contents", c)]) p cs.

(** How many [MutatedPkg] layers a package object has. *)
Fixpoint layers (p : Repo.pkg) : nat :=
  match p with
  | Repo.Pkg _ => 0
  | Repo.MutatedPkg q _ => S (layers q)
  end.

(** The support predicate of command [x] in class [c] rejects it on
    repository [r]. *)
Definition rejected (c : gmap string Registry.attribute) (r : Repo.repository)
    (x : string) : bool :=
  match c !! ("_cmd_check_support_" +:+ x) with
  | Some (Registry.ACheck supported) => negb (supported r)
  | _ => false
  end.

(** The class keeps the frozen test of [operations] for command [x]. *)
Definition frozen_check_inherited (c : gmap string Registry.attribute)
    (x : string) : Prop :=
  c !! ("_cmd_check_support_" +:+ x)
  = Some (Registry.ACheck (Registry._disabled_if_frozen x)).

(** The name an enabled wrapper is published under. *)
Definition wrapper_name (w : Registry.wrapper) : string :=
  match w with
  | Registry.EnabledInstall => "install"
  | Registry.EnabledUninstall => "uninstall"
  | Registry.EnabledReplace => "replace"
  | Registry.EnabledConfigure => "configure"
  | Registry.EnabledSync => "sync"
  end.

(** A subclass body that defines no attribute [repository] and no
    enabled wrapper of its own. *)
Definition plain_subclass (defined : gmap string Registry.attribute) : Prop :=
  forall k, is_Some (defined !! k) ->
    k <> "repository" /\ Registry.startswith k "_cmd_enabled_" = false.

(** An instance [__dict__] holding [self.repo], [self._enabled_ops] and
    enabled wrappers of [operations] under their own names, nothing else. *)
Definition plain_dict (d : gmap string Registry.attribute) : Prop :=
  forall k a, d !! k = Some a ->
    ((k = "repo" \/ k = "_enabled_ops") /\ a = Registry.AValue) \/
    (exists w, a = Registry.AEnabled w /\ wrapper_name w = k).

(** What a run of the loop over [xs] that ended in [res] did, [new] being
    the capability Format.calls it made. *)
Definition loop_post {E : Type} (self : Format.instance E)
    (xs : list Format.fetchable) (gotten : gset string) (s : Format.state E)
    (res : outcome bool * Format.state E) (new : list Format.call) : Prop :=
  Format.calls (snd res) = Format.calls s ++ new /\
  Format.files_dict (snd res) = foldl record_call (Format.files_dict s) new /\
  (forall x r, Format.Fetcher x r ∈ new -> (Format.filename x ∉ gotten) /\ x ∈ xs) /\
  (fst res = Ret true ->
     Forall fetched new /\
     forall x, x ∈ xs -> Format.filename x ∈ gotten ∪ fetched_names new) /\
  (forall x, Format.Fetcher x (Ret None) ∈ new ->
     (Format.uri x <> [] -> fst res = Ret false /\ Format.NoFetch ∉ new) /\
     (Format.uri x = [] ->
        Format.NoFetch ∈ new /\ fst res <> Ret true /\
        (never_raises (Format.nofetch self) -> fst res = Ret false))) /\
  (Forall fetched new -> fst res = Ret true).


(** What a call of the engine guarantees: the property is kept, nothing
    ForcedDepends.completed is lost, only stages of rank at most [k] change status, and
    a truthy result means the stage is ForcedDepends.completed. *)
Definition engine_post {S : Type} (rank : string -> nat)
    (Inv : ForcedDepends.state S -> Prop) (k : nat) (name : option string)
    (s : ForcedDepends.state S) (out : option value)
    (s' : ForcedDepends.state S) : Prop :=
  Inv s' /\
  ForcedDepends.completed s ⊆ ForcedDepends.completed s' /\
  (forall x, k < rank x -> ForcedDepends.completed s' !! x = ForcedDepends.completed s !! x) /\
  (forall n v, name = Some n -> out = Some v -> truthy v = true ->
     is_Some (ForcedDepends.completed s' !! n)).


(** A stage body that leaves the flag, the lock and its state alone. *)
Definition framed {B Obs : Type} (body : M (Repo.state B Obs) value) : Prop :=
  forall s, Repo.underway (snd (body s)) = Repo.underway s /\
            Repo.write_locked (snd (body s)) = Repo.write_locked s /\
            Repo.lock (snd (body s)) = Repo.lock s.

(** The invariant of an instance of the class. *)
Definition stage_inv {B Obs : Type} (stage_depends : gmap string (list string))
    (methods : string -> option (M (Repo.state B Obs) value))
    (st : ForcedDepends.state (Repo.state B Obs)) : Prop :=
  (forall x p, is_Some (ForcedDepends.completed st !! x) -> p ∈ ForcedDepends.prerequisites stage_depends x ->
     is_Some (ForcedDepends.completed st !! p)) /\
  (forall x, is_Some (ForcedDepends.completed st !! x) -> is_Some (ForcedDepends.completed st !! "start")) /\
  (is_Some (ForcedDepends.completed st !! "finish") ->
     forall n, is_Some (methods n) -> is_Some (ForcedDepends.completed st !! n)) /\
  (is_Some (ForcedDepends.completed st !! "start") -> ForcedDepends.completed st !! "finish" = None ->
     guarded (ForcedDepends.inner st)) /\
  (forall x, is_Some (ForcedDepends.completed st !! x) -> x ∈ (ForcedDepends.ran st).*1) /\
  (forall n s, (n, s) ∈ ForcedDepends.ran st -> n <> "start" -> guarded s) /\
  (forall pre n s post, ForcedDepends.ran st = pre ++ (n, s) :: post ->
     forall p, p ∈ ForcedDepends.prerequisites stage_depends n -> p ∈ pre.*1).


(** The instance has a [fake_lock] and the state of the repository's
    lock is [w]. *)
Definition unlocked_inv {B Obs : Type} (w : bool)
    (st : ForcedDepends.state (Repo.state B Obs)) : Prop :=
  Repo.lock (ForcedDepends.inner st) = Repo.FakeLock /\
  Repo.write_locked (ForcedDepends.inner st) = w.

(** An output stream kept as the list of the strings written to it. *)
Definition buffer_write (line : string) : M (list string) unit :=
  modify (fun w => w ++ [line]).

(** The file observer on a stream kept as a list of lines. *)
Definition logged : Observer.instance (list string) :=
  {| Observer.inst_observer :=
       Some (Observer.file_phase_observer buffer_write show_obj) |}.

(** The file names the capability was asked for, and the paths it
    returned, in a sequence of calls. *)
Definition asked (cs : list Format.call) : list string :=
  omap (fun c => match c with
                 | Format.Fetcher x _ => Some (Format.filename x)
                 | Format.NoFetch => None
                 end) cs.

Definition paths (cs : list Format.call) : list string :=
  omap (fun c => match c with
                 | Format.Fetcher _ (Ret (Some p)) => Some p
                 | _ => None
                 end) cs.

(** How a run of the fetch stage ends: the last calls it makes, and its
    result. *)
Definition ends_with (tail : list Format.call) (r : outcome bool) : Prop :=
  (tail = [] /\ r = Ret true) \/
  (exists x, tail = [Format.Fetcher x (Ret None)] /\
             Format.uri x <> [] /\ r = Ret false) \/
  (exists x, tail = [Format.Fetcher x (Ret None); Format.NoFetch] /\
             Format.uri x = [] /\ (r = Ret false \/ exists e, r = Raise e)) \/
  (exists x e, tail = [Format.Fetcher x (Raise e)] /\ r = Raise e).

(** The class has a handler for command [x]: an attribute [_cmd_<x>]
    that is neither an enabled wrapper nor a support predicate. *)
Definition has_handler (c : gmap string Registry.attribute) (x : string) : Prop :=
  is_Some (c !! ("_cmd_" +:+ x)) /\
  Registry.startswith x "enabled_" = false /\
  Registry.startswith x "check_support_" = false.

(** The five commands [operations] has an enabled wrapper for. *)
Definition wrapped_commands : list string :=
  ["install"; "uninstall"; "replace"; "configure"; "sync"].

(** What is passed to [write] without callables or [unicode]: [None],
    a [str], or an object written as its [str]; and the string it puts
    on the stream ([None] puts nothing). *)
Definition plain {C : Type} (t : Formatters.thing C) : Prop :=
  match t with
  | Formatters.TNone | Formatters.TStr _ | Formatters.TObject _ => True
  | Formatters.TUnicode _ | Formatters.TCallable _ => False
  end.

Definition shown {C : Type} (str_obj : nat -> string) (t : Formatters.thing C)
    : option string :=
  match t with
  | Formatters.TNone => None
  | Formatters.TStr s => Some s
  | Formatters.TObject id => Some (str_obj id)
  | Formatters.TUnicode _ | Formatters.TCallable _ => None
  end.

(** The text a plain thing resolves to. *)
Definition text_of {C : Type} (str_obj : nat -> string) (t : Formatters.thing C)
    : option Formatters.text :=
  (fun s => Formatters.Str (String.list_ascii_of_string s)) <$> shown str_obj t.

(** The strings a sequence of plain things puts on the stream. *)
Definition texts {C : Type} (str_obj : nat -> string) (ts : list (Formatters.thing C))
    : list string :=
  omap (shown str_obj) ts.

(** The strings written to a stream, put together, and how many
    characters they are. *)
Definition joined (chunks : list string) : string :=
  foldr String.append "" chunks.

Definition chars (chunks : list string) : Z :=
  Z.of_nat (String.length (joined chunks)).

(** The prefix a formatter writes at the start of the line it is on. *)
Definition current_prefix {St X C : Type} (f : Formatters.formatter St X C)
    : list (Formatters.thing C) :=
  if Formatters._in_first_line f then Formatters.first_prefix f
  else Formatters.later_prefix f.

(** The strings written from column [col] on fit lines of [width]
    characters: no stretch between two line feeds is longer. *)
Fixpoint fits (width col : Z) (chunks : list string) : Prop :=
  match chunks with
  | [] => True
  | c :: rest =>
      if String.eqb c Formatters.newline then fits width 0 rest
      else (col + Z.of_nat (String.length c) <= width)%Z /\
           fits width (col + Z.of_nat (String.length c)) rest
  end.

(** What [write] puts in front of its arguments: the prefix of the
    current line when the formatter is at column 0 and there is at least
    one argument. *)
Definition line_start_text {St X C : Type} (str_obj : nat -> string)
    (f : Formatters.formatter St X C) (args : list (Formatters.thing C)) : string :=
  match args with
  | [] => ""
  | _ :: _ =>
      if (Formatters._pos f =? 0)%Z then joined (texts str_obj (current_prefix f))
      else ""
  end.

(** The formatter after one turn of the wrapping loop that wrote [bit]:
    [bit] and a line feed are on the stream, followed by the prefix of
    the later lines; the formatter is at the column behind that prefix
    (or at [width - 10] when the prefix does not fit) of a line that is
    not the first and on which nothing was written. *)
Definition after_break {X C : Type} (str_obj : nat -> string)
    (f : Formatters.formatter (list string) X C) (bit : string)
    : Formatters.formatter (list string) X C :=
  let later := texts str_obj (Formatters.later_prefix f) in
  Formatters.set_stream (Formatters.stream f ++ [bit; Formatters.newline] ++ later)
    (Formatters.set_pos
       (if (Formatters.width f <=? chars later)%Z
        then (Formatters.width f - 10)%Z else chars later)
       (Formatters.set_wrote_something false
          (Formatters.set_in_first_line false f))).

(** The formatter is within its line and both its prefixes fit:
    [_pos] is between 0 and [width], and it is below [width] on a later
    line on which nothing was written yet. *)
Definition in_line {St X C : Type} (str_obj : nat -> string)
    (f : Formatters.formatter St X C) : Prop :=
  (0 <= Formatters._pos f <= Formatters.width f)%Z /\
  (Formatters._in_first_line f = true \/ Formatters._wrote_something f = true \/
   (Formatters._pos f < Formatters.width f)%Z) /\
  (chars (texts str_obj (Formatters.first_prefix f)) < Formatters.width f)%Z /\
  (chars (texts str_obj (Formatters.later_prefix f)) < Formatters.width f)%Z.

(** Nothing but the column, the line flags and the stream differs
    between two formatters. *)
Definition same_setup {St X C : Type} (f f' : Formatters.formatter St X C) : Prop :=
  Formatters.width f' = Formatters.width f /\
  Formatters.first_prefix f' = Formatters.first_prefix f /\
  Formatters.later_prefix f' = Formatters.later_prefix f /\
  Formatters.autoline f' = Formatters.autoline f /\
  Formatters.wrap f' = Formatters.wrap f /\
  Formatters.ext f' = Formatters.ext f.

(** The longest string among the plain things [ts]. *)
Definition longest {C : Type} (str_obj : nat -> string)
    (ts : list (Formatters.thing C)) : nat :=
  foldr (fun s n => Nat.max (String.length s) n) 0 (texts str_obj ts).

(** [write] on the sample formatters. *)
Definition sample_write (fuel : nat) (args : list (Formatters.thing Empty_set))
    (kw_wrap kw_autoline : option bool)
    : Formatters.run (list string) unit Empty_set unit :=
  Formatters.PlainTextFormatter_write buffer_write no_encoding ascii_replace
    show_obj no_callable linux_EPIPE fuel args kw_wrap kw_autoline.

(** The stream after a run that came to an end. *)
Definition output {X C A : Type}
    (r : option (outcome A * Formatters.formatter (list string) X C))
    : option (list string) :=
  (fun res => Formatters.stream (snd res)) <$> r.




(** [write] of a [TerminfoFormatter] on the sample terminal. *)
Definition terminal_write (fuel : nat)
    (args : list (Formatters.thing (Formatters.code Empty_set)))
    (kw_wrap kw_autoline : option bool)
    : Formatters.run (list string) Formatters.terminfo (Formatters.code Empty_set) unit :=
  Formatters.TerminfoFormatter_write buffer_write no_encoding ascii_replace show_obj
    no_other 0 1 2 3 4 5 6 7 tag_tparm linux_EPIPE fuel args kw_wrap kw_autoline.

(** The characters of a string other than blanks and line feeds, in
    order. *)
Definition solid_char (c : Ascii.ascii) : bool :=
  negb (Ascii.eqb c (Ascii.ascii_of_nat 32)) &&
  negb (Ascii.eqb c (Ascii.ascii_of_nat 10)).

Definition solid (s : string) : list Ascii.ascii :=
  List.filter solid_char (String.list_ascii_of_string s).

(** Both prefixes of the formatter are made of blanks (or empty). *)
Definition blank_prefixes {St X C : Type} (str_obj : nat -> string)
    (f : Formatters.formatter St X C) : Prop :=
  solid (joined (texts str_obj (Formatters.first_prefix f))) = [] /\
  solid (joined (texts str_obj (Formatters.later_prefix f))) = [].
(** * Properties *)

(** ** The observer hook *)

Section ObserverFacts.

Import Observer.

Context {W Args : Type}.

Implicit Types (o : observer W) (s : state W).

(** The two calls on an observer, evaluated. *)
Lemma call_phase_start_eq o phase s :
  call_phase_start o phase s =
  (fst (phase_start o phase (world s)),
   {| issued := issued s ++ [PhaseStart phase];
      world := snd (phase_start o phase (world s)) |}).
Proof.
  unfold call_phase_start, bind, modify, on_world; simpl.
  destruct (phase_start o phase (world s)) as [[[]|e] w]; reflexivity.
Qed.

Lemma call_phase_end_eq o phase status s :
  call_phase_end o phase status s =
  (fst (phase_end o phase status (world s)),
   {| issued := issued s ++ [PhaseEnd phase status];
      world := snd (phase_end o phase status (world s)) |}).
Proof.
  unfold call_phase_end, bind, modify, on_world; simpl.
  destruct (phase_end o phase status (world s)) as [[[]|e] w]; reflexivity.
Qed.

(** The hook with an observer, in terms of the handlers and the body. *)
Lemma wrap_build_method_some o phase
    (method : instance W -> Args -> M (state W) value) self args s :
  inst_observer self = Some o ->
  wrap_build_method phase method self args s =
  match phase_start o phase (world s) with
  | (Raise e, w1) =>
      (Raise e, {| issued := issued s ++ [PhaseStart phase]; world := w1 |})
  | (Ret _, w1) =>
      let '(r, s2) :=
        method self args {| issued := issued s ++ [PhaseStart phase]; world := w1 |} in
      let status := ret_at_finally r in
      match phase_end o phase status (world s2) with
      | (Ret _, w3) =>
          (r, {| issued := issued s2 ++ [PhaseEnd phase status]; world := w3 |})
      | (Raise e, w3) =>
          (Raise e, {| issued := issued s2 ++ [PhaseEnd phase status]; world := w3 |})
      end
  end.
Proof.
  intros Ho. unfold wrap_build_method. rewrite Ho. unfold bind at 1.
  rewrite call_phase_start_eq.
  destruct (phase_start o phase (world s)) as [[[]|e] w1]; cbn [fst snd]; [|reflexivity].
  unfold try_finally.
  destruct (method self args _) as [r s2].
  rewrite call_phase_end_eq.
  destruct (phase_end o phase (ret_at_finally r) (world s2)) as [[[]|e] w3]; reflexivity.
Qed.

(** C1.  With no observer the hook is the stage body, called directly.
    With an observer [o] the hook first calls [o]'s [phase_start(phase)]
    handler, once, on the world it was entered in.  If that handler
    raises, the body is not run, no [phase_end] is issued and the
    exception is the hook's.  If it comes back, the body runs once, in
    the world the handler left, and then [o]'s [phase_end(phase, status)]
    handler is called, once, on the world the body left, with [status]
    the body's return value, or [False] when the body raised.  The hook
    ends in the world that handler leaves, with the body's value or
    exception when the handler came back, and with the handler's
    exception when it raised.  When the body issues nothing itself, the
    two notifications are all that was issued. *)
Theorem wrap_build_method_notifies (phase : string)
    (method : instance W -> Args -> M (state W) value)
    (self : instance W) (args : Args) (s : state W) :
  (inst_observer self = None ->
     wrap_build_method phase method self args s = method self args s) /\
  (forall o r1 w1,
     inst_observer self = Some o ->
     phase_start o phase (world s) = (r1, w1) ->
     let s1 := {| issued := issued s ++ [PhaseStart phase]; world := w1 |} in
     (forall e, r1 = Raise e ->
        wrap_build_method phase method self args s = (Raise e, s1)) /\
     (r1 = Ret tt ->
        forall r s2 r3 w3,
          method self args s1 = (r, s2) ->
          let status := match r with Ret v => v | Raise _ => VBool false end in
          phase_end o phase status (world s2) = (r3, w3) ->
          let s3 := {| issued := issued s2 ++ [PhaseEnd phase status];
                       world := w3 |} in
          wrap_build_method phase method self args s =
            (match r3 with Ret _ => r | Raise e => Raise e end, s3) /\
          (issued s2 = issued s1 ->
             issued s3 = issued s ++ [PhaseStart phase; PhaseEnd phase status]))).
Proof.
  split.
  - intros Hnone. unfold wrap_build_method. rewrite Hnone. reflexivity.
  - intros o r1 w1 Hobs Hstart s1. split.
    + intros e ->. rewrite (wrap_build_method_some o) by exact Hobs.
      rewrite Hstart. reflexivity.
    + intros -> r s2 r3 w3 Hm status Hend s3.
      assert (Hst : status = ret_at_finally r) by (destruct r; reflexivity).
      split.
      * rewrite (wrap_build_method_some o) by exact Hobs.
        rewrite Hstart. fold s1. rewrite Hm. cbn zeta. rewrite <- Hst, Hend.
        destruct r3 as [[]|e]; reflexivity.
      * intros Hsilent. subst s3 s1. cbn [issued] in *.
        rewrite Hsilent, <- app_assoc. reflexivity.
Qed.

End ObserverFacts.

Lemma wrap_build_method_notifies_witness :
  Observer.wrap_build_method "compile" silent_stage logged tt
    (Observer.State [] ["earlier output"]) =
  (Ret (VBool true),
   Observer.State
     [Observer.PhaseStart "compile"; Observer.PhaseEnd "compile" (VBool true)]
     ["earlier output"; "starting compile" +:+ Observer.nl;
      "finished compile: True" +:+ Observer.nl]).
Proof.
  refine (proj1
    (proj2 (proj2 (wrap_build_method_notifies "compile" silent_stage logged tt
                     (Observer.State [] ["earlier output"]))
              (Observer.file_phase_observer buffer_write show_obj)
              (Ret tt) ["earlier output"; "starting compile" +:+ Observer.nl]
              eq_refl eq_refl)
       eq_refl (Ret (VBool true))
       (Observer.State [Observer.PhaseStart "compile"]
          ["earlier output"; "starting compile" +:+ Observer.nl])
       (Ret tt)
       ["earlier output"; "starting compile" +:+ Observer.nl;
        "finished compile: True" +:+ Observer.nl]
       eq_refl eq_refl)).
Defined.

(** On a stream that takes no more output the [phase_start] handler of
    the file observer raises: the stage body is not run and no
    [phase_end] is issued. *)
Lemma phase_start_raising_no_phase_end :
  Observer.inst_observer cramped =
    Some (Observer.file_phase_observer one_line_write show_obj) /\
  Observer.wrap_build_method "compile" silent_stage cramped tt
    (Observer.State [] ["earlier output"]) =
  (Raise (IOError (Some 28%Z)),
   Observer.State [Observer.PhaseStart "compile"] ["earlier output"]).
Proof. split; reflexivity. Qed.

(** A raising body under the plain observer, evaluated: one
    [phase_start], one [phase_end] with status [False], then the
    exception. *)
Example wrap_build_method_raising :
  Observer.wrap_build_method "compile" failing_stage observed tt
    (Observer.State [] tt)
  = (Raise (OtherError "boom"),
     Observer.State [Observer.PhaseStart "compile";
                     Observer.PhaseEnd "compile" (VBool false)] tt).
Proof. reflexivity. Qed.

(** ** The fetch stage *)

Section FetchFacts.

Import Format.

Context {E : Type}.

Implicit Types (self : instance E) (s : state E) (x : fetchable)
  (gotten : gset string) (new : list call).

Lemma fetched_names_cons_fetched x p new :
  fetched_names (Fetcher x (Ret (Some p)) :: new)
  = {[filename x]} ∪ fetched_names new.
Proof. reflexivity. Qed.

(** One turn of the loop, case by case. *)
Lemma fetch_loop_cons self x rest gotten s :
  fetch_loop self (x :: rest) gotten s =
  if decide (filename x ∈ gotten) then fetch_loop self rest gotten s
  else
    match fetcher self x (env s) with
    | (Ret (Some p), e) =>
        fetch_loop self rest ({[filename x]} ∪ gotten)
          {| files := Some (<[p := x]> (files_dict s));
             calls := calls s ++ [Fetcher x (Ret (Some p))]; env := e |}
    | (Ret None, e) =>
        if bool_decide (uri x = []) then
          match nofetch self e with
          | (Ret _, e') =>
              (Ret false,
               {| files := files s;
                  calls := calls s ++ [Fetcher x (Ret None); NoFetch]; env := e' |})
          | (Raise err, e') =>
              (Raise err,
               {| files := files s;
                  calls := calls s ++ [Fetcher x (Ret None); NoFetch]; env := e' |})
          end
        else
          (Ret false,
           {| files := files s; calls := calls s ++ [Fetcher x (Ret None)]; env := e |})
    | (Raise err, e) =>
        (Raise err,
         {| files := files s; calls := calls s ++ [Fetcher x (Raise err)]; env := e |})
    end.
Proof.
  simpl. destruct (decide (filename x ∈ gotten)); [reflexivity|].
  unfold bind, call_fetcher.
  destruct (fetcher self x (env s)) as [[[p|]|err] e]; try reflexivity.
  destruct (bool_decide (uri x = [])); [|reflexivity].
  unfold call_nofetch, bind, log_call, modify, on_env, ret; simpl.
  destruct (nofetch self e) as [[[]|err] e']; simpl; rewrite <- app_assoc; reflexivity.
Qed.

Lemma fetch_loop_spec self xs : forall gotten s,
  exists new, loop_post self xs gotten s (fetch_loop self xs gotten s) new.
Proof.
  induction xs as [|x rest IH]; intros gotten s.
  - exists []. unfold loop_post. simpl. rewrite app_nil_r.
    split_and!; try reflexivity.
    + intros y r Hy; inversion Hy.
    + intros _; split; [constructor|intros y Hy; inversion Hy].
    + intros y Hy; inversion Hy.
  - rewrite fetch_loop_cons.
    destruct (decide (filename x ∈ gotten)) as [Hin|Hnotin].
    + destruct (IH gotten s) as (new & Hc & Hf & Hskip & Hok & Hnone & Hall).
      exists new. unfold loop_post. split_and!; try assumption.
      * intros y r Hy. destruct (Hskip y r Hy). split; [assumption|right; assumption].
      * intros Hr. destruct (Hok Hr) as [Hfa Hsat]. split; [assumption|].
        intros y Hy. apply elem_of_cons in Hy as [->|Hy].
        -- apply elem_of_union_l; assumption.
        -- apply Hsat; assumption.
    + destruct (fetcher self x (env s)) as [[[p|]|err] e1] eqn:Ef.
      * (* the capability produced [p] *)
        match goal with |- context [fetch_loop self rest ?g ?s1] =>
          destruct (IH g s1) as (new & Hc & Hf & Hskip & Hok & Hnone & Hall);
          destruct (fetch_loop self rest g s1) as [r s']
        end.
        cbn [fst snd calls files_dict files default] in *.
        exists (Fetcher x (Ret (Some p)) :: new). unfold loop_post.
        cbn [fst snd]. split_and!.
        -- rewrite Hc, <- app_assoc; reflexivity.
        -- rewrite Hf; reflexivity.
        -- intros y r0 Hy. apply elem_of_cons in Hy as [Heq|Hy].
           ++ inversion Heq; subst. split; [assumption|left].
           ++ destruct (Hskip y r0 Hy) as [Hn Hr]. split; [|right; assumption].
              intros Hg. apply Hn. apply elem_of_union_r; assumption.
        -- intros Hr. destruct (Hok Hr) as [Hfa Hsat]. split.
           ++ constructor; [exact I|assumption].
           ++ intros y Hy. rewrite fetched_names_cons_fetched.
              apply elem_of_cons in Hy as [->|Hy].
              ** apply elem_of_union_r, elem_of_union_l, elem_of_singleton; reflexivity.
              ** specialize (Hsat y Hy).
                 apply elem_of_union in Hsat as [Hsat|Hsat];
                   [apply elem_of_union in Hsat as [Hsat|Hsat]|].
                 --- apply elem_of_union_r, elem_of_union_l; assumption.
                 --- apply elem_of_union_l; assumption.
                 --- apply elem_of_union_r, elem_of_union_r; assumption.
        -- intros y Hy. apply elem_of_cons in Hy as [Heq|Hy]; [discriminate Heq|].
           destruct (Hnone y Hy) as [Huri Hno]. split.
           ++ intros Hu. destruct (Huri Hu) as [Hr Hnf]. split; [assumption|].
              intros Hnf'. apply elem_of_cons in Hnf' as [Heq|Hnf']; [discriminate Heq|].
              contradiction.
           ++ intros Hu. destruct (Hno Hu) as (Hnf & Hr & Htot).
              split; [right; assumption|]. split; assumption.
        -- intros Hfa. apply Forall_cons in Hfa as [_ Hfa]. apply Hall; exact Hfa.
      * (* the capability produced nothing *)
        destruct (bool_decide (uri x = [])) eqn:Huri.
        -- apply bool_decide_eq_true in Huri.
           exists [Fetcher x (Ret None); NoFetch].
           assert (Hmem : forall y r0, Fetcher y r0 ∈ [Fetcher x (Ret None); NoFetch] ->
                                       y = x /\ r0 = Ret None).
           { intros y r0 Hy. apply elem_of_cons in Hy as [Heq|Hy].
             - inversion Heq; subst; split; reflexivity.
             - apply elem_of_cons in Hy as [Heq|Hy]; [discriminate Heq|inversion Hy]. }
           destruct (nofetch self e1) as [[[]|err] e2] eqn:En;
             unfold loop_post; cbn [fst snd calls files_dict files]; split_and!;
             try reflexivity.
           ++ intros y r0 Hy. destruct (Hmem y r0 Hy) as [-> _]. split; [assumption|left].
           ++ intros Hr; discriminate Hr.
           ++ intros y Hy. destruct (Hmem y _ Hy) as [-> _].
              split; [intros Hu; contradiction|].
              intros _. split; [right; left|]. split; [discriminate|reflexivity].
           ++ intros Hfa. apply Forall_cons in Hfa as [[] _].
           ++ intros y r0 Hy. destruct (Hmem y r0 Hy) as [-> _]. split; [assumption|left].
           ++ intros Hr; discriminate Hr.
           ++ intros y Hy. destruct (Hmem y _ Hy) as [-> _].
              split; [intros Hu; contradiction|].
              intros _. split; [right; left|]. split; [discriminate|].
              intros Htot. destruct (Htot e1) as [e3 He3]. congruence.
           ++ intros Hfa. apply Forall_cons in Hfa as [[] _].
        -- apply bool_decide_eq_false in Huri.
           exists [Fetcher x (Ret None)].
           assert (Hmem : forall y r0, Fetcher y r0 ∈ [Fetcher x (Ret None)] ->
                                       y = x /\ r0 = Ret None).
           { intros y r0 Hy. apply elem_of_cons in Hy as [Heq|Hy].
             - inversion Heq; subst; split; reflexivity.
             - inversion Hy. }
           unfold loop_post; cbn [fst snd calls files_dict files]; split_and!;
             try reflexivity.
           ++ intros y r0 Hy. destruct (Hmem y r0 Hy) as [-> _]. split; [assumption|left].
           ++ intros Hr; discriminate Hr.
           ++ intros y Hy. destruct (Hmem y _ Hy) as [-> _].
              split; [|intros Hu; contradiction].
              intros _. split; [reflexivity|].
              intros Hnf. apply elem_of_cons in Hnf as [Heq'|Hnf]; [discriminate Heq'|].
              inversion Hnf.
           ++ intros Hfa. apply Forall_cons in Hfa as [[] _].
      * (* the capability raised *)
        exists [Fetcher x (Raise err)].
        unfold loop_post; cbn [fst snd calls files_dict files]; split_and!;
          try reflexivity.
        -- intros y r0 Hy. apply elem_of_cons in Hy as [Heq|Hy]; [|inversion Hy].
           inversion Heq; subst. split; [assumption|left].
        -- intros Hr; discriminate Hr.
        -- intros y Hy. apply elem_of_cons in Hy as [Heq|Hy]; [discriminate Heq|inversion Hy].
        -- intros Hfa. apply Forall_cons in Hfa as [[] _].
Qed.

(** [self.files], once set, stays set. *)
Lemma fetch_loop_files_set self xs : forall gotten s,
  is_Some (files s) -> is_Some (files (snd (fetch_loop self xs gotten s))).
Proof.
  induction xs as [|x rest IH]; intros gotten s Hs; [exact Hs|].
  rewrite fetch_loop_cons.
  destruct (decide (filename x ∈ gotten)); [apply IH; exact Hs|].
  destruct (fetcher self x (env s)) as [[[p|]|err] e1]; try exact Hs.
  - apply IH. eexists; reflexivity.
  - destruct (bool_decide (uri x = [])); [|exact Hs].
    destruct (nofetch self e1) as [[[]|err] e2]; exact Hs.
Qed.

Lemma elem_of_filenames_of (d : gmap string fetchable) (f : string) :
  f ∈ filenames_of d <-> in_record d f.
Proof.
  unfold filenames_of, in_record. rewrite elem_of_list_to_set, list_elem_of_fmap.
  split.
  - intros (y & -> & Hy). apply list_elem_of_fmap in Hy as ([fp y'] & -> & Hy).
    apply elem_of_map_to_list in Hy. exists fp, y'. split; [assumption|reflexivity].
  - intros (fp & y & Hd & <-). exists y. split; [reflexivity|].
    apply list_elem_of_fmap. exists (fp, y). split; [reflexivity|].
    apply elem_of_map_to_list; assumption.
Qed.

(** A path keeps the fetchable recorded under it while no later call
    returns the same path. *)
Lemma foldl_record_call_keeps post : forall (d : gmap string fetchable) p x,
  d !! p = Some x ->
  (forall y q, Fetcher y (Ret (Some q)) ∈ post -> q <> p) ->
  foldl record_call d post !! p = Some x.
Proof.
  induction post as [|c post IH]; intros d p x Hd Hpost; [exact Hd|].
  simpl. apply IH.
  - destruct c as [y [[q|]|err]|]; simpl; try exact Hd.
    rewrite lookup_insert_ne; [exact Hd|]. apply (Hpost y q). left.
  - intros y q Hy. apply (Hpost y q). right; assumption.
Qed.


(** The loop asks for no name of [gotten], for no name twice, and stops
    at the first call that produces no file. *)
Lemma fetch_loop_shape self xs : forall gotten s,
  exists pre tail,
    calls (snd (fetch_loop self xs gotten s)) = calls s ++ pre ++ tail /\
    NoDup (asked (pre ++ tail)) /\
    (forall f, f ∈ asked (pre ++ tail) -> f ∉ gotten) /\
    Forall fetched pre /\
    ends_with tail (fst (fetch_loop self xs gotten s)).
Proof.
  induction xs as [|x rest IH]; intros gotten s.
  - exists [], []. simpl. rewrite app_nil_r.
    split_and!; [reflexivity|constructor|intros f Hf; inversion Hf|constructor|].
    left; split; reflexivity.
  - rewrite fetch_loop_cons.
    destruct (decide (filename x ∈ gotten)) as [Hin|Hnotin]; [apply IH|].
    destruct (fetcher self x (env s)) as [[[p|]|err] e1] eqn:Ef.
    + match goal with |- context [fetch_loop self rest ?g ?s1] =>
        destruct (IH g s1) as (pre & tail & Hc & Hnd & Hfresh & Hpre & Hend)
      end.
      cbn [calls] in Hc.
      exists (Fetcher x (Ret (Some p)) :: pre), tail. split_and!.
      * rewrite Hc, <- app_assoc. reflexivity.
      * cbn. constructor; [|exact Hnd].
        intros Hx. apply (Hfresh _ Hx). apply elem_of_union_l, elem_of_singleton.
        reflexivity.
      * intros f Hf. cbn in Hf. apply elem_of_cons in Hf as [->|Hf]; [exact Hnotin|].
        intros Hg. apply (Hfresh _ Hf). apply elem_of_union_r; exact Hg.
      * constructor; [exact I|exact Hpre].
      * exact Hend.
    + destruct (bool_decide (uri x = [])) eqn:Huri.
      * apply bool_decide_eq_true in Huri.
        exists [], [Fetcher x (Ret None); NoFetch].
        assert (Hone : forall f, f ∈ asked ([] ++ [Fetcher x (Ret None); NoFetch]) ->
                                 f ∉ gotten).
        { intros f Hf. cbn in Hf. apply elem_of_cons in Hf as [->|Hf];
            [exact Hnotin|inversion Hf]. }
        destruct (nofetch self e1) as [[[]|err] e2]; cbn [fst snd calls];
          (split_and!;
           [reflexivity|cbn; apply NoDup_singleton|exact Hone|constructor|]);
          right; right; left; exists x; split_and!; try reflexivity; try exact Huri.
        -- left; reflexivity.
        -- right; exists err; reflexivity.
      * apply bool_decide_eq_false in Huri.
        exists [], [Fetcher x (Ret None)]. cbn [fst snd calls].
        split_and!; [reflexivity|cbn; apply NoDup_singleton| |constructor|].
        -- intros f Hf. cbn in Hf. apply elem_of_cons in Hf as [->|Hf];
             [exact Hnotin|inversion Hf].
        -- right; left. exists x. split_and!; [reflexivity|exact Huri|reflexivity].
    + exists [], [Fetcher x (Raise err)]. cbn [fst snd calls].
      split_and!; [reflexivity|cbn; apply NoDup_singleton| |constructor|].
      * intros f Hf. cbn in Hf. apply elem_of_cons in Hf as [->|Hf];
          [exact Hnotin|inversion Hf].
      * right; right; right. exists x, err. split; reflexivity.
Qed.

Lemma raw_fetch_loop self s :
  _raw_fetch self s =
  fetch_loop self (fetchables self) (filenames_of (files_dict s))
    {| files := Some (files_dict s); calls := calls s; env := env s |}.
Proof. reflexivity. Qed.


End FetchFacts.

(** The scenarios of the specification.  [archive_b] is in the record and
    is never asked for; nothing found for [archive_a], which has a URI:
    [False], no hook. *)
Example fetch_skips_and_fails :
  let res := Format._raw_fetch (fetching [archive_a; archive_b] nothing_found) have_b in
  fst res = Ret false /\
  Format.calls (snd res) = [Format.Fetcher archive_a (Ret None)].
Proof. vm_compute. split; reflexivity. Qed.

(** Nothing found for [local_c], which has no URI: the hook, then
    [False]; [archive_a] was fetched and recorded before. *)
Example fetch_nofetch :
  let res := Format._raw_fetch (fetching [archive_b; archive_a; local_c] only_a) have_b in
  fst res = Ret false /\
  Format.calls (snd res) =
    [Format.Fetcher archive_a (Ret (Some "/distfiles/a.tar"));
     Format.Fetcher local_c (Ret None); Format.NoFetch] /\
  Format.files_dict (snd res) !! "/distfiles/a.tar" = Some archive_a.
Proof. vm_compute. repeat split. Qed.

(** Everything obtained: [True]. *)
Example fetch_succeeds :
  let res := Format._raw_fetch (fetching [archive_a; archive_b; archive_a] only_a) have_b in
  fst res = Ret true /\
  Format.calls (snd res) = [Format.Fetcher archive_a (Ret (Some "/distfiles/a.tar"))] /\
  map_to_list (Format.files_dict (snd res)) =
    [("/distfiles/a.tar", archive_a); ("/distfiles/b.tar", archive_b)].
Proof. vm_compute. repeat split. Qed.

(** Two fetchables under one file name: the capability is asked once. *)
Example fetch_asks_once :
  let res := Format._raw_fetch (fetching [archive_a; archive_a] only_a) nothing_yet in
  fst res = Ret true /\
  Format.calls (snd res) = [Format.Fetcher archive_a (Ret (Some "/distfiles/a.tar"))].
Proof. vm_compute. split; reflexivity. Qed.

(** ** The stage engine *)

Section EngineFacts.

Import ForcedDepends.

Context {S : Type}.
Variable stage_depends : gmap string (list string).
Variable methods : string -> option (M S value).

Abbreviation prereqs := (prerequisites stage_depends).
Abbreviation run_ := (run stage_depends methods).

(** The two recursive procedures, one step at a time. *)
Lemma run_prerequisites_cons (go : string -> M (state S) value) p ps s :
  run_prerequisites go (p :: ps) s =
  match go p s with
  | (Ret v, s1) =>
      if truthy v then run_prerequisites go ps s1 else (Ret false, s1)
  | (Raise e, s1) => (Raise e, s1)
  end.
Proof.
  simpl. unfold bind. destruct (go p s) as [[v|e] s1]; [|reflexivity].
  destruct (truthy v); reflexivity.
Qed.

Lemma run_step n name s :
  run_ (Datatypes.S n) name s =
  match completed s !! name with
  | Some v => (Ret v, s)
  | None =>
      match methods name with
      | None => (Raise (OtherError "stage_depends: missing stage"), s)
      | Some body =>
          match run_prerequisites (run_ n) (prereqs name) s with
          | (Ret true, s1) => execute name body s1
          | (Ret false, s1) => (Ret (VBool false), s1)
          | (Raise e, s1) => (Raise e, s1)
          end
      end
  end.
Proof.
  simpl. unfold bind, get.
  destruct (completed s !! name); [reflexivity|].
  destruct (methods name); [|reflexivity].
  destruct (run_prerequisites (run_ n) (prereqs name) s) as [[[|]|e] s1]; reflexivity.
Qed.

(** The graph is acyclic: prerequisites have a smaller rank. *)
Variable rank : string -> nat.
Hypothesis rank_decreases : forall n p, p ∈ prereqs n -> rank p < rank n.

(** A property of instances that every stage body keeps when the engine
    executes it: not completed yet, all its prerequisites completed. *)
Variable Inv : state S -> Prop.
Hypothesis Inv_execute : forall name body s,
  methods name = Some body ->
  completed s !! name = None ->
  Forall (fun p => is_Some (completed s !! p)) (prereqs name) ->
  Inv s ->
  Inv (snd (execute name body s)).

Abbreviation run_post := (engine_post rank Inv).

Lemma execute_post name body s :
  methods name = Some body ->
  completed s !! name = None ->
  Forall (fun p => is_Some (completed s !! p)) (prereqs name) ->
  Inv s ->
  run_post (rank name) (Some name) s
    (returned (fst (execute name body s))) (snd (execute name body s)).
Proof.
  intros Hm Hnone Hpre HI.
  pose proof (Inv_execute name body s Hm Hnone Hpre HI) as HI'.
  revert HI'. unfold execute.
  destruct (body (inner s)) as [[v|e] i]; [destruct (truthy v) eqn:Hv|];
    cbn [fst snd completed returned]; intros HI'.
  - split_and!; [exact HI'|apply insert_subseteq; exact Hnone| |].
    + intros x Hx. apply lookup_insert_ne. intros ->. lia.
    + intros n v' [= <-] _ _. cbn [completed]. rewrite lookup_insert_eq.
      eexists; reflexivity.
  - split_and!; [exact HI'|reflexivity|reflexivity|].
    intros n v' _ [= <-] Ht. discriminate Ht.
  - split_and!; [exact HI'|reflexivity|reflexivity|].
    intros n v' _ Hv. discriminate Hv.
Qed.

Lemma run_prerequisites_post (go : string -> M (state S) value) (k : nat) :
  (forall p s, rank p < k -> Inv s ->
     run_post (rank p) (Some p) s (returned (fst (go p s))) (snd (go p s))) ->
  forall ps s,
    (forall p, p ∈ ps -> rank p < k) ->
    Inv s ->
    Inv (snd (run_prerequisites go ps s)) /\
    completed s ⊆ completed (snd (run_prerequisites go ps s)) /\
    (forall x, k <= rank x ->
       completed (snd (run_prerequisites go ps s)) !! x = completed s !! x) /\
    (fst (run_prerequisites go ps s) = Ret true ->
       Forall (fun p => is_Some (completed (snd (run_prerequisites go ps s)) !! p)) ps).
Proof.
  intros Hgo. induction ps as [|p ps IH]; intros s Hrank HI.
  - simpl. split_and!; [exact HI|reflexivity|reflexivity|constructor].
  - assert (Hp : rank p < k) by (apply Hrank; left).
    destruct (Hgo p s Hp HI) as (HI1 & Hsub1 & Hfr1 & Hdone1).
    rewrite run_prerequisites_cons.
    destruct (go p s) as [[v|e] s1] eqn:Eg; cbn [fst snd returned] in *.
    + destruct (truthy v) eqn:Hv.
      * destruct (IH s1 (fun q Hq => Hrank q (list_elem_of_further _ _ _ Hq)) HI1)
          as (HI2 & Hsub2 & Hfr2 & Hdone2).
        split_and!.
        -- exact HI2.
        -- etransitivity; eassumption.
        -- intros x Hx. rewrite Hfr2 by exact Hx. apply Hfr1. lia.
        -- intros Hr. constructor; [|apply Hdone2; exact Hr].
           destruct (Hdone1 p v eq_refl eq_refl Hv) as [w Hw].
           exists w. eapply lookup_weaken; eassumption.
      * cbn [fst snd]. split_and!; [exact HI1|exact Hsub1| |intros Hr; discriminate Hr].
        intros x Hx. apply Hfr1. lia.
    + split_and!; [exact HI1|exact Hsub1| |intros Hr; discriminate Hr].
      intros x Hx. apply Hfr1. lia.
Qed.

Lemma run_post_holds : forall fuel name s,
  Inv s ->
  run_post (rank name) (Some name) s
    (returned (fst (run_ fuel name s))) (snd (run_ fuel name s)).
Proof.
  induction fuel as [|n IH]; intros name s HI.
  - simpl. split_and!; [exact HI|reflexivity|reflexivity|].
    intros ? ? _ Hv; discriminate Hv.
  - rewrite run_step.
    destruct (completed s !! name) as [v|] eqn:Hc.
    + cbn [fst snd returned].
      split_and!; [exact HI|reflexivity|reflexivity|].
      intros ? ? [= <-] [= <-] _. eexists; exact Hc.
    + destruct (methods name) as [body|] eqn:Hm.
      * pose proof (run_prerequisites_post (run_ n) (rank name)
                      (fun p s' _ HI' => IH p s' HI') (prereqs name) s
                      (fun p Hp => rank_decreases name p Hp) HI)
          as (HI1 & Hsub1 & Hfr1 & Hdone1).
        destruct (run_prerequisites (run_ n) (prereqs name) s) as [[[|]|e] s1];
          cbn [fst snd returned] in *.
        -- assert (Hnone : completed s1 !! name = None).
           { rewrite Hfr1 by lia. exact Hc. }
           destruct (execute_post name body s1 Hm Hnone (Hdone1 eq_refl) HI1)
             as (HI2 & Hsub2 & Hfr2 & Hdone2).
           split_and!.
           ++ exact HI2.
           ++ etransitivity; eassumption.
           ++ intros x Hx. rewrite Hfr2 by exact Hx. apply Hfr1. lia.
           ++ exact Hdone2.
        -- split_and!; [exact HI1|exact Hsub1|intros x Hx; apply Hfr1; lia|].
           intros ? ? _ [= <-] Ht. discriminate Ht.
        -- split_and!; [exact HI1|exact Hsub1|intros x Hx; apply Hfr1; lia|].
           intros ? ? _ Hv. discriminate Hv.
      * cbn [fst snd returned].
        split_and!; [exact HI|reflexivity|reflexivity|].
        intros ? ? _ Hv. discriminate Hv.
Qed.

(** The property survives every call of a stage method. *)
Lemma run_stage_keeps name s :
  Inv s -> Inv (snd (run_stage stage_depends methods name s)).
Proof. intros HI. apply (run_post_holds _ name s HI). Qed.

End EngineFacts.

(** ** Repository operations: the lock and the underway flag *)

Section RepoFacts.

Import ForcedDepends Repo.

Context {B Obs : Type}.

Abbreviation rstate := (Repo.state B Obs).

Lemma update_all_frame cs : forall s : rstate,
  underway (snd (update_all cs s)) = underway s /\
  write_locked (snd (update_all cs s)) = write_locked s /\
  lock (snd (update_all cs s)) = lock s.
Proof.
  induction cs as [|c cs IH]; intros s; [repeat split|].
  simpl. unfold bind at 1, _update_pkg_contents, bind, get.
  destruct (new_pkg s) as [p|]; [|repeat split].
  cbn [modify].
  destruct (IH (set_new_pkg (Some (MutatedPkg p [("contents", c)])) s))
    as (H1 & H2 & H3).
  rewrite H1, H2, H3. repeat split.
Qed.

Lemma data_method_framed (body : data_stage B Obs) : framed (data_method body).
Proof.
  intros s. unfold data_method.
  destruct (body s) as [cs [r b]].
  destruct (update_all_frame cs (set_backend b s)) as (H1 & H2 & H3).
  destruct (update_all cs (set_backend b s)) as [[[]|e] s']; simpl in *;
    repeat split; assumption.
Qed.

Lemma plain_method_framed (body : plain_stage B Obs) : framed (plain_method body).
Proof.
  intros s. unfold plain_method. destruct (body s) as [r b]. repeat split.
Qed.

Lemma _notify_repo_add_framed : framed (_notify_repo_add (B:=B) (Obs:=Obs)).
Proof.
  intros s. unfold _notify_repo_add, bind, get.
  destruct (new_pkg s); repeat split.
Qed.

Lemma _notify_repo_remove_framed : framed (_notify_repo_remove (B:=B) (Obs:=Obs)).
Proof.
  intros s. unfold _notify_repo_remove, bind, get.
  destruct (old_pkg s); repeat split.
Qed.

(** [start] and [finish], evaluated. *)
Lemma start_effect (s : rstate) :
  fst (start s) = Ret (VBool true) /\
  underway (snd (start s)) = true /\
  lock (snd (start s)) = lock s /\
  (lock s = RepoLock -> write_locked (snd (start s)) = true) /\
  (lock s = FakeLock -> snd (start s) = set_underway true s).
Proof.
  unfold start, bind, modify, acquire_write_lock, ret. simpl.
  destruct (lock s) eqn:Hl; simpl; rewrite ?Hl; repeat split; congruence.
Qed.

Lemma finish_effect (s : rstate) :
  fst (finish s) = Ret (VBool true) /\
  underway (snd (finish s)) = false /\
  lock (snd (finish s)) = lock s /\
  (lock s = RepoLock -> write_locked (snd (finish s)) = false) /\
  (lock s = FakeLock -> snd (finish s) = set_underway false s).
Proof.
  unfold finish, bind, modify, release_write_lock, ret.
  destruct (lock s) eqn:Hl; simpl; rewrite ?Hl; repeat split; congruence.
Qed.

(** Splitting a trace that grew by one entry. *)
Lemma snoc_split {A} (l : list A) (e : A) pre x post :
  l ++ [e] = pre ++ x :: post ->
  (post = [] /\ pre = l /\ x = e) \/
  (exists post', post = post' ++ [e] /\ l = pre ++ x :: post').
Proof.
  intros H. destruct post as [|y post' _] using rev_ind.
  - left. apply (app_inj_tail l pre e x) in H as [-> ->]. repeat split.
  - right. exists post'.
    rewrite app_comm_cons, app_assoc in H.
    apply app_inj_tail in H as [H ->]. split; [reflexivity|exact H].
Qed.

Section Class.

(** A class of repository operations: its graph, its methods, and a rank
    showing the graph acyclic. *)
Variable stage_depends : gmap string (list string).
Variable methods : string -> option (M rstate value).
Variable rank : string -> nat.
Variable notify : string.

Abbreviation prereqs := (prerequisites stage_depends).

Hypothesis rank_decreases : forall n p, p ∈ prereqs n -> rank p < rank n.
Hypothesis start_method : methods "start" = Some start.
Hypothesis finish_method : methods "finish" = Some finish.
Hypothesis others_framed : forall name body,
  methods name = Some body -> name <> "start" -> name <> "finish" -> framed body.
Hypothesis start_is_root : prereqs "start" = [].
Hypothesis others_rooted : forall name,
  is_Some (methods name) -> name <> "start" -> prereqs name <> [].
Hypothesis finish_is_top : forall c : gmap string value,
  (forall x p, is_Some (c !! x) -> p ∈ prereqs x -> is_Some (c !! p)) ->
  Forall (fun p => is_Some (c !! p)) (prereqs "finish") ->
  forall n, is_Some (methods n) -> is_Some (c !! n) \/ n = "finish".

Abbreviation repo_inv := (stage_inv stage_depends methods).

Lemma repo_inv_fresh (s : rstate) : repo_inv (fresh s).
Proof.
  unfold repo_inv, fresh; cbn [completed ran inner].
  split_and!.
  - intros x p [v Hv]. rewrite lookup_empty in Hv. discriminate Hv.
  - intros x [v Hv]. rewrite lookup_empty in Hv. discriminate Hv.
  - intros [v Hv]. rewrite lookup_empty in Hv. discriminate Hv.
  - intros [v Hv]. rewrite lookup_empty in Hv. discriminate Hv.
  - intros x [v Hv]. rewrite lookup_empty in Hv. discriminate Hv.
  - intros n s' Hin. inversion Hin.
  - intros pre n s' post H. destruct pre; discriminate H.
Qed.

(** A stage other than [start] finds the operation guarded when the
    engine enters it. *)
Lemma guarded_at_entry name st :
  repo_inv st ->
  is_Some (methods name) ->
  completed st !! name = None ->
  Forall (fun p => is_Some (completed st !! p)) (prereqs name) ->
  name <> "start" ->
  guarded (inner st).
Proof.
  intros (Hcl & Hst & Htop & Hg & _) Hm Hnone Hpre Hname.
  assert (Hstart : is_Some (completed st !! "start")).
  { destruct (prereqs name) as [|p ps] eqn:Hp.
    - exfalso. exact (others_rooted name Hm Hname Hp).
    - apply Forall_cons in Hpre as [Hp1 _]. exact (Hst p Hp1). }
  apply Hg; [exact Hstart|].
  destruct (completed st !! "finish") as [v|] eqn:Hf; [|reflexivity].
  exfalso. destruct (Htop (ex_intro _ v eq_refl) name Hm) as [w Hw]. congruence.
Qed.

Lemma repo_inv_execute name body st :
  methods name = Some body ->
  completed st !! name = None ->
  Forall (fun p => is_Some (completed st !! p)) (prereqs name) ->
  repo_inv st ->
  repo_inv (snd (execute name body st)).
Proof.
  intros Hm Hnone Hpre HI.
  assert (Hentry : name <> "start" -> guarded (inner st)).
  { intros Hn. eapply guarded_at_entry; eauto. }
  destruct HI as (Hcl & Hst & Htop & Hg & Hseen & Hent & Hord).
  (* the parts that only concern the trace *)
  assert (Hseen' : forall x, is_Some (completed st !! x) \/ x = name ->
                             x ∈ (ran st ++ [(name, inner st)]).*1).
  { intros x [Hx| ->]; rewrite fmap_app; apply elem_of_app.
    - left. apply Hseen; exact Hx.
    - right. left. }
  assert (Hent' : forall n s, (n, s) ∈ ran st ++ [(name, inner st)] ->
                              n <> "start" -> guarded s).
  { intros n s Hin Hn. apply elem_of_app in Hin as [Hin|Hin].
    - eapply Hent; eassumption.
    - apply list_elem_of_singleton in Hin. inversion Hin; subst. apply Hentry; exact Hn. }
  assert (Hord' : forall pre n s post,
             ran st ++ [(name, inner st)] = pre ++ (n, s) :: post ->
             forall p, p ∈ prereqs n -> p ∈ pre.*1).
  { intros pre n s post Heq p Hp.
    apply snoc_split in Heq as [(-> & -> & Heq)|(post' & -> & Heq)].
    - inversion Heq; subst. apply Hseen.
      rewrite Forall_forall in Hpre. apply Hpre. exact Hp.
    - eapply Hord; eassumption. }
  (* the status of the stages after a successful execution *)
  assert (Hcl' : forall v x p,
             is_Some (<[name := v]> (completed st) !! x) -> p ∈ prereqs x ->
             is_Some (<[name := v]> (completed st) !! p)).
  { intros v x p Hx Hp. destruct (decide (x = name)) as [->|Hne].
    - rewrite Forall_forall in Hpre. specialize (Hpre p Hp).
      destruct (decide (p = name)) as [->|Hne']; [rewrite lookup_insert_eq; eauto|].
      rewrite lookup_insert_ne by congruence. exact Hpre.
    - rewrite lookup_insert_ne in Hx by congruence.
      specialize (Hcl x p Hx Hp).
      destruct (decide (p = name)) as [->|Hne']; [rewrite lookup_insert_eq; eauto|].
      rewrite lookup_insert_ne by congruence. exact Hcl. }
  assert (Hst' : forall v x,
             is_Some (<[name := v]> (completed st) !! x) ->
             is_Some (<[name := v]> (completed st) !! "start")).
  { intros v x Hx.
    destruct (decide (name = "start")) as [->|Hne]; [rewrite lookup_insert_eq; eauto|].
    rewrite lookup_insert_ne by congruence.
    destruct (decide (x = name)) as [->|Hne'].
    - destruct (prereqs name) as [|p ps] eqn:Hp.
      + exfalso. exact (others_rooted name (ex_intro _ body Hm) Hne Hp).
      + apply Forall_cons in Hpre as [Hp1 _]. exact (Hst p Hp1).
    - rewrite lookup_insert_ne in Hx by congruence. exact (Hst x Hx). }
  assert (Htop' : forall v,
             is_Some (<[name := v]> (completed st) !! "finish") ->
             forall n, is_Some (methods n) ->
                       is_Some (<[name := v]> (completed st) !! n)).
  { intros v Hf n Hn.
    destruct (decide (n = name)) as [->|Hne]; [rewrite lookup_insert_eq; eauto|].
    rewrite lookup_insert_ne by congruence.
    destruct (decide (name = "finish")) as [->|Hnf].
    - destruct (finish_is_top (completed st) Hcl Hpre n Hn) as [H| ->];
        [exact H|congruence].
    - rewrite lookup_insert_ne in Hf by congruence. exact (Htop Hf n Hn). }
  unfold execute.
  destruct (decide (name = "start")) as [->|Hns].
  { (* start *)
    rewrite start_method in Hm. injection Hm as <-.
    destruct (start_effect (inner st)) as (Hr & Hu & Hl & Hw & _).
    destruct (start (inner st)) as [r i]; cbn [fst snd] in *. subst r.
    cbn [truthy snd]. unfold repo_inv; cbn [completed ran inner].
    split_and!; eauto.
    - intros _ _. split; [exact Hu|]. intros Hi. apply Hw. congruence.
    - intros x Hx. apply Hseen'.
      destruct (decide (x = "start")) as [->|Hne]; [right; reflexivity|left].
      rewrite lookup_insert_ne in Hx by congruence. exact Hx. }
  destruct (decide (name = "finish")) as [->|Hnf].
  { (* finish *)
    rewrite finish_method in Hm. injection Hm as <-.
    destruct (finish_effect (inner st)) as (Hr & Hu & Hl & Hw & _).
    destruct (finish (inner st)) as [r i]; cbn [fst snd] in *. subst r.
    cbn [truthy snd]. unfold repo_inv; cbn [completed ran inner].
    split_and!; eauto.
    - intros _ Hf. rewrite lookup_insert_eq in Hf. discriminate Hf.
    - intros x Hx. apply Hseen'.
      destruct (decide (x = "finish")) as [->|Hne]; [right; reflexivity|left].
      rewrite lookup_insert_ne in Hx by congruence. exact Hx. }
  (* any other stage *)
  destruct (others_framed name body Hm Hns Hnf (inner st)) as (Hu & Hw & Hl).
  assert (Hkeep : guarded (inner st) -> guarded (snd (body (inner st)))).
  { intros [G1 G2]. split; [congruence|]. intros Hi. rewrite Hw. apply G2. congruence. }
  destruct (body (inner st)) as [[v|e] i]; [destruct (truthy v)|];
    cbn [fst snd] in *; unfold repo_inv; cbn [completed ran inner]; split_and!; eauto.
  intros x Hx. apply Hseen'.
  destruct (decide (x = name)) as [->|Hne]; [right; reflexivity|left].
  rewrite lookup_insert_ne in Hx by congruence. exact Hx.
Qed.

(** Whatever stage methods a caller invokes on a new instance, in
    whatever order, the instance keeps the invariant. *)
Lemma repo_inv_calls names : forall st,
  repo_inv st ->
  repo_inv (call_stages (run_stage stage_depends methods) names st).
Proof.
  induction names as [|n names IH]; intros st HI; [exact HI|].
  simpl. apply IH.
  apply (run_stage_keeps stage_depends methods rank rank_decreases
           repo_inv repo_inv_execute n st HI).
Qed.

Lemma unlocked_inv_execute w name body st :
  methods name = Some body ->
  unlocked_inv w st -> unlocked_inv w (snd (execute name body st)).
Proof.
  intros Hm [Hl Hw].
  assert (Hbody : lock (snd (body (inner st))) = FakeLock /\
                  write_locked (snd (body (inner st))) = w).
  { destruct (decide (name = "start")) as [->|Hns].
    - rewrite start_method in Hm. injection Hm as <-.
      destruct (start_effect (inner st)) as (_ & _ & _ & _ & Hfake).
      rewrite (Hfake Hl). split; assumption.
    - destruct (decide (name = "finish")) as [->|Hnf].
      + rewrite finish_method in Hm. injection Hm as <-.
        destruct (finish_effect (inner st)) as (_ & _ & _ & _ & Hfake).
        rewrite (Hfake Hl). split; assumption.
      + destruct (others_framed name body Hm Hns Hnf (inner st)) as (_ & Hw' & Hl').
        split; congruence. }
  unfold execute, unlocked_inv.
  destruct (body (inner st)) as [[v|e] i]; [destruct (truthy v)|]; exact Hbody.
Qed.

Lemma unlocked_inv_calls w names : forall st,
  unlocked_inv w st ->
  unlocked_inv w (call_stages (run_stage stage_depends methods) names st).
Proof.
  induction names as [|n names IH]; intros st HI; [exact HI|].
  simpl. apply IH.
  apply (run_stage_keeps stage_depends methods rank rank_decreases
           (unlocked_inv w)); [|exact HI].
  intros name body s Hm _ _. apply unlocked_inv_execute; exact Hm.
Qed.

(** From the invariant to the discipline of the trace. *)
Lemma repo_inv_discipline (data : list string) st :
  (forall n, n ∈ data -> "start" ∈ prereqs n) ->
  notify ∈ prereqs "finish" ->
  repo_inv st ->
  stage_discipline notify data (ran st).
Proof.
  intros Hdata Hnotify (_ & _ & _ & _ & _ & Hent & Hord).
  split_and!.
  - exact Hent.
  - intros pre n s post Heq Hn. eapply Hord; [exact Heq|]. apply Hdata; exact Hn.
  - intros pre s post Heq. eapply Hord; [exact Heq|]. exact Hnotify.
Qed.

End Class.

(** The methods of a class, from its table. *)
Lemma method_of_elem (table : list (string * M rstate value)) name body :
  method_of table name = Some body -> (name, body) ∈ table.
Proof. unfold method_of. apply elem_of_list_to_map_2. Qed.

(** The prerequisites of a stage, from the graph's entries. *)
Lemma prerequisites_elem (g : gmap string (list string)) n p :
  p ∈ prerequisites g n -> exists ps, (n, ps) ∈ map_to_list g /\ p ∈ ps.
Proof.
  unfold prerequisites. destruct (g !! n) as [ps|] eqn:Hg; simpl.
  - intros Hp. exists ps. split; [apply elem_of_map_to_list; exact Hg|exact Hp].
  - intros Hp. inversion Hp.
Qed.

End RepoFacts.

(** Case analysis on membership in an explicit list. *)
Ltac elem_cases H :=
  repeat (apply elem_of_cons in H as [H|H]); [..|inversion H].

Ltac prereq_cases H :=
  let ps := fresh "ps" in
  let Hn := fresh "Hn" in
  apply prerequisites_elem in H as (ps & Hn & H);
  vm_compute in Hn; elem_cases Hn; inversion Hn; subst; clear Hn;
  elem_cases H; subst.

(** Case analysis on the method a class has under a name. *)
Ltac method_cases H :=
  apply method_of_elem in H; elem_cases H; inversion H; subst; clear H.

Section RepoClasses.

Import ForcedDepends Repo.

Context {B Obs : Type}.

Lemma install_rank_decreases n p :
  p ∈ prerequisites install_stage_depends n -> install_rank p < install_rank n.
Proof. intros H. prereq_cases H; vm_compute; lia. Qed.

Lemma uninstall_rank_decreases n p :
  p ∈ prerequisites uninstall_stage_depends n -> uninstall_rank p < uninstall_rank n.
Proof. intros H. prereq_cases H; vm_compute; lia. Qed.

Lemma replace_rank_decreases n p :
  p ∈ prerequisites replace_stage_depends n -> replace_rank p < replace_rank n.
Proof. intros H. prereq_cases H; vm_compute; lia. Qed.

Lemma install_calls_keep (add_data finalize_data : data_stage B Obs) names s0 :
  stage_inv install_stage_depends (method_of (install_methods add_data finalize_data))
    (call_stages (install_run add_data finalize_data) names (fresh s0)).
Proof.
  apply (repo_inv_calls install_stage_depends _ install_rank).
  - exact install_rank_decreases.
  - reflexivity.
  - reflexivity.
  - intros name body Hm Hs Hf. method_cases Hm; try congruence;
      auto using data_method_framed, _notify_repo_add_framed.
  - intros name [body Hm] Hs. method_cases Hm; try congruence; vm_compute; discriminate.
  - intros c Hcl Hpre n [body Hm].
    assert (H1 : is_Some (c !! "_notify_repo_add")).
    { rewrite Forall_forall in Hpre. apply Hpre. vm_compute. left. }
    assert (H2 : is_Some (c !! "finalize_data")).
    { apply (Hcl "_notify_repo_add"); [exact H1|vm_compute; left]. }
    assert (H3 : is_Some (c !! "add_data")).
    { apply (Hcl "finalize_data"); [exact H2|vm_compute; left]. }
    assert (H4 : is_Some (c !! "start")).
    { apply (Hcl "add_data"); [exact H3|vm_compute; left]. }
    method_cases Hm; auto.
  - apply repo_inv_fresh.
Qed.

Lemma uninstall_calls_keep (remove_data finalize_data : plain_stage B Obs) names s0 :
  stage_inv uninstall_stage_depends
    (method_of (uninstall_methods remove_data finalize_data))
    (call_stages (uninstall_run remove_data finalize_data) names (fresh s0)).
Proof.
  apply (repo_inv_calls uninstall_stage_depends _ uninstall_rank).
  - exact uninstall_rank_decreases.
  - reflexivity.
  - reflexivity.
  - intros name body Hm Hs Hf. method_cases Hm; try congruence;
      auto using plain_method_framed, _notify_repo_remove_framed.
  - intros name [body Hm] Hs. method_cases Hm; try congruence; vm_compute; discriminate.
  - intros c Hcl Hpre n [body Hm].
    assert (H1 : is_Some (c !! "_notify_repo_remove")).
    { rewrite Forall_forall in Hpre. apply Hpre. vm_compute. left. }
    assert (H2 : is_Some (c !! "finalize_data")).
    { apply (Hcl "_notify_repo_remove"); [exact H1|vm_compute; left]. }
    assert (H3 : is_Some (c !! "remove_data")).
    { apply (Hcl "finalize_data"); [exact H2|vm_compute; left]. }
    assert (H4 : is_Some (c !! "start")).
    { apply (Hcl "remove_data"); [exact H3|vm_compute; left]. }
    method_cases Hm; auto.
  - apply repo_inv_fresh.
Qed.

Lemma replace_calls_keep (add_data remove_data finalize_data : data_stage B Obs)
    names s0 :
  stage_inv replace_stage_depends
    (method_of (replace_methods add_data remove_data finalize_data))
    (call_stages (replace_run add_data remove_data finalize_data) names (fresh s0)).
Proof.
  apply (repo_inv_calls replace_stage_depends _ replace_rank).
  - exact replace_rank_decreases.
  - reflexivity.
  - reflexivity.
  - intros name body Hm Hs Hf. method_cases Hm; try congruence;
      auto using data_method_framed, _notify_repo_add_framed,
                 _notify_repo_remove_framed.
  - intros name [body Hm] Hs. method_cases Hm; try congruence; vm_compute; discriminate.
  - intros c Hcl Hpre n [body Hm].
    assert (H1 : is_Some (c !! "_notify_repo_add")).
    { rewrite Forall_forall in Hpre. apply Hpre. vm_compute. left. }
    assert (H2 : is_Some (c !! "finalize_data")).
    { apply (Hcl "_notify_repo_add"); [exact H1|vm_compute; left]. }
    assert (H3 : is_Some (c !! "add_data")).
    { apply (Hcl "finalize_data"); [exact H2|vm_compute; left]. }
    assert (H4 : is_Some (c !! "_notify_repo_remove")).
    { apply (Hcl "finalize_data"); [exact H2|vm_compute; right; left]. }
    assert (H5 : is_Some (c !! "remove_data")).
    { apply (Hcl "_notify_repo_remove"); [exact H4|vm_compute; left]. }
    assert (H6 : is_Some (c !! "start")).
    { apply (Hcl "add_data"); [exact H3|vm_compute; left]. }
    method_cases Hm; auto.
  - apply repo_inv_fresh.
Qed.

(** C3.  [start] sets the underway flag and takes the write lock;
    [finish] releases the lock and clears the flag.  For an instance of
    [install], [uninstall] or [replace] with any backend, and whatever
    stage methods are called on it in whatever order: every stage body
    other than [start] is entered with the flag set and the write lock
    held (the lock being the repository's); [start] has been entered
    before a data stage is; and the repository notification stage has
    been entered before [finish] is. *)
Theorem repo_operations_guarded :
  (forall s : Repo.state B Obs,
     fst (start s) = Ret (VBool true) /\
     underway (snd (start s)) = true /\
     (lock s = RepoLock -> write_locked (snd (start s)) = true)) /\
  (forall s : Repo.state B Obs,
     fst (finish s) = Ret (VBool true) /\
     underway (snd (finish s)) = false /\
     (lock s = RepoLock -> write_locked (snd (finish s)) = false)) /\
  (forall (add_data finalize_data : data_stage B Obs) names s0,
     stage_discipline "_notify_repo_add" ["add_data"]
       (ran (call_stages (install_run add_data finalize_data) names (fresh s0)))) /\
  (forall (remove_data finalize_data : plain_stage B Obs) names s0,
     stage_discipline "_notify_repo_remove" ["remove_data"]
       (ran (call_stages (uninstall_run remove_data finalize_data) names (fresh s0)))) /\
  (forall (add_data remove_data finalize_data : data_stage B Obs) names s0,
     stage_discipline "_notify_repo_add" ["add_data"; "remove_data"]
       (ran (call_stages (replace_run add_data remove_data finalize_data)
               names (fresh s0)))).
Proof.
  split_and!.
  - intros s. destruct (start_effect s) as (H1 & H2 & _ & H3 & _). auto.
  - intros s. destruct (finish_effect s) as (H1 & H2 & _ & H3 & _). auto.
  - intros add_data finalize_data names s0.
    eapply repo_inv_discipline; [| |apply install_calls_keep].
    + intros n Hn. elem_cases Hn; subst. vm_compute. left.
    + vm_compute. left.
  - intros remove_data finalize_data names s0.
    eapply repo_inv_discipline; [| |apply uninstall_calls_keep].
    + intros n Hn. elem_cases Hn; subst. vm_compute. left.
    + vm_compute. left.
  - intros add_data remove_data finalize_data names s0.
    eapply repo_inv_discipline; [| |apply replace_calls_keep].
    + intros n Hn. elem_cases Hn; subst; vm_compute; left.
    + vm_compute. left.
Qed.

End RepoClasses.

(** Complete runs on the sample backends: the stage bodies entered, and
    what the repository was told. *)
Example install_finish_run :
  let res := Repo.install_run ok_stage finalizing_stage "finish"
               (ForcedDepends.fresh (new_install locked_repo)) in
  fst res = Ret (VBool true) /\
  entries (snd res) =
    [("start", false, false); ("add_data", true, true);
     ("finalize_data", true, true); ("_notify_repo_add", true, true);
     ("finish", true, true)] /\
  Repo.notified (ForcedDepends.inner (snd res)) =
    [Repo.NotifyAdd (Repo.MutatedPkg (Repo.Pkg 1) [("contents", merged)])] /\
  Repo.underway (ForcedDepends.inner (snd res)) = false /\
  Repo.write_locked (ForcedDepends.inner (snd res)) = false.
Proof. vm_compute. repeat split. Qed.

Example uninstall_finish_run :
  let res := Repo.uninstall_run ok_plain_stage ok_plain_stage "finish"
               (ForcedDepends.fresh (new_uninstall locked_repo)) in
  fst res = Ret (VBool true) /\
  entries (snd res) =
    [("start", false, false); ("remove_data", true, true);
     ("finalize_data", true, true); ("_notify_repo_remove", true, true);
     ("finish", true, true)] /\
  Repo.notified (ForcedDepends.inner (snd res)) = [Repo.NotifyRemove (Repo.Pkg 0)].
Proof. vm_compute. repeat split. Qed.

Example replace_finish_run :
  let res := Repo.replace_run ok_stage ok_stage finalizing_stage "finish"
               (ForcedDepends.fresh (new_replace locked_repo)) in
  fst res = Ret (VBool true) /\
  entries (snd res) =
    [("start", false, false); ("add_data", true, true);
     ("remove_data", true, true); ("_notify_repo_remove", true, true);
     ("finalize_data", true, true); ("_notify_repo_add", true, true);
     ("finish", true, true)] /\
  Repo.notified (ForcedDepends.inner (snd res)) =
    [Repo.NotifyRemove (Repo.Pkg 0);
     Repo.NotifyAdd (Repo.MutatedPkg (Repo.Pkg 1) [("contents", merged)])].
Proof. vm_compute. repeat split. Qed.

(** A second call of [finish] executes nothing. *)
Example install_finish_twice :
  entries (call_stages (Repo.install_run ok_stage finalizing_stage)
             ["finish"; "finish"] (ForcedDepends.fresh (new_install locked_repo)))
  = entries (call_stages (Repo.install_run ok_stage finalizing_stage)
               ["finish"] (ForcedDepends.fresh (new_install locked_repo))).
Proof. vm_compute. reflexivity. Qed.

(** A subclass that leaves [add_data] abstract: the run ends in
    [NotImplementedError] with [start] done and the lock still held. *)
Example install_abstract_add_data :
  let res := Repo.install_run (Repo.abstract "add_data") finalizing_stage "finish"
               (ForcedDepends.fresh (new_install locked_repo)) in
  fst res = Raise (NotImplementedError "add_data") /\
  entries (snd res) = [("start", false, false); ("add_data", true, true)] /\
  Repo.write_locked (ForcedDepends.inner (snd res)) = true.
Proof. vm_compute. repeat split. Qed.

(** ** Repository operations: the package that is notified *)

Section NotifyFacts.

Import Repo.

Context {B Obs : Type}.

Lemma update_all_new_pkg cs : forall (s : Repo.state B Obs) p,
  new_pkg s = Some p ->
  fst (update_all cs s) = Ret tt /\
  snd (update_all cs s) = set_new_pkg (Some (mutated p cs)) s.
Proof.
  induction cs as [|c cs IH]; intros s p Hp.
  - simpl. split; [reflexivity|]. destruct s; simpl in *; subst; reflexivity.
  - simpl. unfold bind at 1, _update_pkg_contents, bind, get. rewrite Hp.
    cbn [modify].
    destruct (IH (set_new_pkg (Some (MutatedPkg p [("contents", c)])) s)
                 (MutatedPkg p [("contents", c)]) eq_refl) as [H1 H2].
    rewrite H1, H2. split; reflexivity.
Qed.

Lemma layers_mutated cs : forall p, layers (mutated p cs) = length cs + layers p.
Proof.
  induction cs as [|c cs IH]; intros p; [reflexivity|].
  unfold mutated in *. simpl. rewrite IH. simpl. lia.
Qed.

Lemma mutated_differs p cs : cs <> [] -> mutated p cs <> p.
Proof.
  intros Hcs Heq. apply (f_equal layers) in Heq. rewrite layers_mutated in Heq.
  destruct cs; [congruence|simpl in Heq; lia].
Qed.

(** C5.  When the operation's package is [p] and [finalize_data] calls
    the content-update hook with the contents [cs] (at least once), then
    after [finalize_data] the add-notification that follows hands the
    repository the mutated package, which is not [p]; and [p] is the
    package given at construction when nothing replaced it before. *)
Theorem notify_repo_add_passes_mutated (finalize_data : data_stage B Obs)
    (s : Repo.state B Obs) (p : pkg) cs r b :
  new_pkg s = Some p ->
  finalize_data s = (cs, (r, b)) ->
  cs <> [] ->
  let s1 := snd (data_method finalize_data s) in
  fst (data_method finalize_data s) = r /\
  new_pkg s1 = Some (mutated p cs) /\
  fst (_notify_repo_add s1) = Ret (VBool true) /\
  notified (snd (_notify_repo_add s1)) = notified s ++ [NotifyAdd (mutated p cs)] /\
  mutated p cs <> p /\
  (forall repo q (o : option Obs) (self : Repo.state B Obs),
     fst (install__init__ repo q o self) = Ret tt ->
     new_pkg (snd (install__init__ repo q o self)) = Some q).
Proof.
  intros Hp Hf Hcs s1. subst s1. unfold data_method. rewrite Hf.
  destruct (update_all_new_pkg cs (set_backend b s) p Hp) as [H1 H2].
  destruct (update_all cs (set_backend b s)) as [[[]|e] s'] eqn:Eu;
    cbn [fst snd] in *; [|discriminate H1]. subst s'.
  split_and!.
  - reflexivity.
  - reflexivity.
  - reflexivity.
  - reflexivity.
  - apply mutated_differs; exact Hcs.
  - intros repo q o self. unfold install__init__, base__init__, bind, modify.
    destruct (repo_lock repo); simpl; [discriminate|reflexivity|reflexivity].
Qed.

End NotifyFacts.

Lemma notify_repo_add_passes_mutated_witness :
  Repo.new_pkg (new_install locked_repo) = Some (Repo.Pkg 1) /\
  finalizing_stage (new_install locked_repo) = ([merged], (Ret (VBool true), tt)) /\
  [merged] <> [] /\
  Repo.notified
    (snd (Repo._notify_repo_add
            (snd (Repo.data_method finalizing_stage (new_install locked_repo)))))
  = [Repo.NotifyAdd (Repo.MutatedPkg (Repo.Pkg 1) [("contents", merged)])].
Proof.
  split; [reflexivity|]. split; [reflexivity|]. split; [discriminate|].
  exact (proj1 (proj2 (proj2 (proj2
    (notify_repo_add_passes_mutated finalizing_stage (new_install locked_repo)
       (Repo.Pkg 1) [merged] (Ret (VBool true)) tt
       eq_refl eq_refl (fun H => eq_ind [merged] (fun l => match l with [] => False | _ => True end) I [] H)))))).
Defined.

(** ** Repository operations: the fake lock *)

Section FakeLockFacts.

Import ForcedDepends Repo.

Context {B Obs : Type}.

(** C7.  Over a repository whose [lock] is [None], the constructors of
    the three operations succeed and leave a [fake_lock] in [self.lock];
    with it, taking and releasing the write lock change nothing, [start]
    and [finish] only set and clear the underway flag, and no sequence of
    stage calls on such an instance changes the state of the repository's
    lock. *)
Theorem fake_lock_stands_in (repo : repository) (o : option Obs)
    (self : Repo.state B Obs) :
  repo_lock repo = LockNone ->
  (fst (base__init__ repo o self) = Ret tt /\
   lock (snd (base__init__ repo o self)) = FakeLock) /\
  (forall p, fst (install__init__ repo p o self) = Ret tt /\
             lock (snd (install__init__ repo p o self)) = FakeLock) /\
  (forall p, fst (uninstall__init__ repo p o self) = Ret tt /\
             lock (snd (uninstall__init__ repo p o self)) = FakeLock) /\
  (forall p q, fst (replace__init__ repo p q o self) = Ret tt /\
               lock (snd (replace__init__ repo p q o self)) = FakeLock) /\
  (forall s : Repo.state B Obs, lock s = FakeLock ->
     acquire_write_lock s = (Ret tt, s) /\
     release_write_lock s = (Ret tt, s) /\
     start s = (Ret (VBool true), set_underway true s) /\
     finish s = (Ret (VBool true), set_underway false s)) /\
  (forall (s0 : Repo.state B Obs) names, lock s0 = FakeLock ->
     (forall add_data finalize_data,
        write_locked (inner (call_stages (install_run add_data finalize_data)
                               names (fresh s0))) = write_locked s0) /\
     (forall remove_data finalize_data,
        write_locked (inner (call_stages (uninstall_run remove_data finalize_data)
                               names (fresh s0))) = write_locked s0) /\
     (forall add_data remove_data finalize_data,
        write_locked (inner (call_stages
                               (replace_run add_data remove_data finalize_data)
                               names (fresh s0))) = write_locked s0)).
Proof.
  intros Hlock. refine (conj _ (conj _ (conj _ (conj _ (conj _ _))))).
  - unfold base__init__. rewrite Hlock. split; reflexivity.
  - intros p. unfold install__init__, base__init__, bind, modify. rewrite Hlock.
    split; reflexivity.
  - intros p. unfold uninstall__init__, base__init__, bind, modify. rewrite Hlock.
    split; reflexivity.
  - intros p q. unfold replace__init__, install__init__, uninstall__init__,
      base__init__, bind, modify. rewrite Hlock. split; reflexivity.
  - intros s Hs.
    unfold start, finish, bind, modify, ret, acquire_write_lock, release_write_lock.
    cbn [lock set_underway]. rewrite Hs. repeat split.
  - intros s0 names Hs. refine (conj _ (conj _ _)).
    + intros add_data finalize_data.
      eapply (unlocked_inv_calls install_stage_depends _ install_rank
                install_rank_decreases eq_refl eq_refl).
      * intros name body Hm Hns Hnf. method_cases Hm; try congruence;
          auto using data_method_framed, _notify_repo_add_framed.
      * split; [exact Hs|reflexivity].
    + intros remove_data finalize_data.
      eapply (unlocked_inv_calls uninstall_stage_depends _ uninstall_rank
                uninstall_rank_decreases eq_refl eq_refl).
      * intros name body Hm Hns Hnf. method_cases Hm; try congruence;
          auto using plain_method_framed, _notify_repo_remove_framed.
      * split; [exact Hs|reflexivity].
    + intros add_data remove_data finalize_data.
      eapply (unlocked_inv_calls replace_stage_depends _ replace_rank
                replace_rank_decreases eq_refl eq_refl).
      * intros name body Hm Hns Hnf. method_cases Hm; try congruence;
          auto using data_method_framed, _notify_repo_add_framed,
                     _notify_repo_remove_framed.
      * split; [exact Hs|reflexivity].
Qed.

End FakeLockFacts.

Lemma fake_lock_stands_in_witness :
  Repo.repo_lock lockless_repo = Repo.LockNone /\
  fst (Repo.base__init__ lockless_repo (None : option nat)
         (Repo.blank lockless_repo false [] tt)) = Ret tt /\
  Repo.lock (snd (Repo.base__init__ lockless_repo (None : option nat)
                    (Repo.blank lockless_repo false [] tt))) = Repo.FakeLock.
Proof.
  split; [reflexivity|].
  exact (proj1 (fake_lock_stands_in lockless_repo None
                  (Repo.blank lockless_repo false [] tt) eq_refl)).
Defined.

(** With no lock to take, a complete run leaves the lock state alone. *)
Example lockless_install_run :
  let res := Repo.install_run ok_stage finalizing_stage "finish"
               (ForcedDepends.fresh (new_install lockless_repo)) in
  fst res = Ret (VBool true) /\
  entries (snd res) =
    [("start", false, false); ("add_data", true, false);
     ("finalize_data", true, false); ("_notify_repo_add", true, false);
     ("finish", true, false)].
Proof. vm_compute. repeat split. Qed.

(** A repository object with no [lock] attribute at all is refused. *)
Example lock_attribute_missing :
  fst (Repo.base__init__
         {| Repo.repo_lock := Repo.LockMissing; Repo.frozen := false;
            Repo._syncer := None |}
         (None : option nat) (Repo.blank lockless_repo false [] tt))
  = Raise (AttributeError "lock").
Proof. reflexivity. Qed.

(** ** The operations registry *)

Section RegistryFacts.

Import Repo Registry.

Implicit Types (c d : gmap string attribute) (r : repository).

(** [startswith] and the slice [x[len(p):]] on a concatenation. *)
Lemma append_cons a p x : String a p +:+ x = String a (p +:+ x).
Proof. reflexivity. Qed.

Lemma append_nil x : "" +:+ x = x.
Proof. reflexivity. Qed.

Lemma prefix_app p x : String.prefix p (p +:+ x) = true.
Proof.
  induction p as [|a p IH].
  - rewrite append_nil. destruct x; reflexivity.
  - rewrite append_cons. cbn [String.prefix].
    destruct (Ascii.ascii_dec a a); [exact IH|congruence].
Qed.

Lemma prefix_app_app p q x : String.prefix (p +:+ q) (p +:+ x) = String.prefix q x.
Proof.
  induction p as [|a p IH]; [reflexivity|].
  rewrite !append_cons. cbn [String.prefix].
  destruct (Ascii.ascii_dec a a); [exact IH|congruence].
Qed.

Lemma substring_all x : String.substring 0 (String.length x) x = x.
Proof.
  induction x as [|a x IH]; [reflexivity|]. cbn [String.length String.substring].
  rewrite IH. reflexivity.
Qed.

Lemma strip_app p x : strip p (p +:+ x) = x.
Proof.
  unfold strip. induction p as [|a p IH].
  - rewrite append_nil. cbn [String.length]. rewrite Nat.sub_0_r. apply substring_all.
  - rewrite append_cons. cbn [String.length String.substring Nat.sub]. exact IH.
Qed.

Lemma prefix_split p : forall x,
  String.prefix p x = true -> x = p +:+ strip p x.
Proof.
  induction p as [|a p IH]; intros x Hx.
  - unfold strip. rewrite append_nil. cbn [String.length]. rewrite Nat.sub_0_r.
    symmetry. apply substring_all.
  - destruct x as [|b x]; [discriminate Hx|]. cbn [String.prefix] in Hx.
    destruct (Ascii.ascii_dec a b) as [->|]; [|discriminate Hx].
    rewrite append_cons. f_equal. exact (IH x Hx).
Qed.

Lemma elem_of_dir c x : x ∈ dir c <-> is_Some (c !! x).
Proof.
  unfold dir. rewrite list_elem_of_fmap. split.
  - intros ([k a] & -> & H). apply elem_of_map_to_list in H. eauto.
  - intros [a H]. exists (x, a). split; [reflexivity|].
    apply elem_of_map_to_list. exact H.
Qed.

(** What [_collect_operations] yields. *)
Lemma elem_of_collect_operations c x :
  x ∈ _collect_operations c <-> has_handler c x.
Proof.
  unfold _collect_operations, has_handler. rewrite list_elem_of_omap. split.
  - intros (n & Hn & Hx). apply elem_of_dir in Hn.
    destruct (startswith n "_cmd_") eqn:H1; [|discriminate Hx].
    destruct (startswith n "_cmd_enabled_") eqn:H2; [discriminate Hx|].
    destruct (startswith n "_cmd_check_support_") eqn:H3; [discriminate Hx|].
    cbn in Hx. injection Hx as <-.
    unfold startswith in *. pose proof (prefix_split _ _ H1) as Hsplit.
    rewrite <- Hsplit. split; [exact Hn|].
    rewrite Hsplit in H2, H3.
    change "_cmd_enabled_" with ("_cmd_" +:+ "enabled_") in H2.
    change "_cmd_check_support_" with ("_cmd_" +:+ "check_support_") in H3.
    rewrite prefix_app_app in H2, H3. split; assumption.
  - intros (Hn & H2 & H3). exists ("_cmd_" +:+ x). split; [apply elem_of_dir, Hn|].
    unfold startswith in *. rewrite prefix_app.
    change "_cmd_enabled_" with ("_cmd_" +:+ "enabled_").
    change "_cmd_check_support_" with ("_cmd_" +:+ "check_support_").
    rewrite !prefix_app_app, H2, H3. cbn. rewrite strip_app. reflexivity.
Qed.

Lemma wrapper_name_is_command w : wrapper_name w ∈ wrapped_commands.
Proof.
  unfold wrapped_commands.
  destruct w; cbn; repeat (first [left; fail | apply elem_of_cons; right]);
    apply elem_of_cons; left; reflexivity.
Qed.


Lemma check_name_not_repo x : "repo" <> "_cmd_check_support_" +:+ x.
Proof. simpl. discriminate. Qed.

Lemma getattr_in_check c x :
  getattr_in c {["repo" := AValue]} ("_cmd_check_support_" +:+ x)
  = c !! ("_cmd_check_support_" +:+ x).
Proof.
  unfold getattr_in. rewrite lookup_singleton_ne by apply check_name_not_repo.
  reflexivity.
Qed.

(** What [_filter_disabled_commands] keeps: the commands of the sequence
    that are not rejected. *)
Lemma filter_disabled_spec c r sequence : forall l,
  _filter_disabled_commands c {["repo" := AValue]} r sequence = Ret l ->
  forall x, x ∈ l <-> x ∈ sequence /\ rejected c r x = false.
Proof.
  induction sequence as [|command rest IH]; intros l Hl x.
  - simpl in Hl. injection Hl as <-. split; [intros H; inversion H|intros [H _]; inversion H].
  - simpl in Hl. rewrite getattr_in_check in Hl.
    assert (Hstep : forall keep,
              match _filter_disabled_commands c {["repo" := AValue]} r rest with
              | Ret l0 => Ret (if keep : bool then command :: l0 else l0)
              | Raise e => Raise e
              end = Ret l ->
              rejected c r command = negb keep ->
              x ∈ l <-> x ∈ command :: rest /\ rejected c r x = false).
    { intros keep Hk Hrej.
      destruct (_filter_disabled_commands c {["repo" := AValue]} r rest) as [l0|e];
        [|discriminate Hk].
      injection Hk as <-. specialize (IH l0 eq_refl x).
      destruct keep; simpl in Hrej.
      - rewrite !elem_of_cons, IH. split.
        + intros [->|[H1 H2]]; [split; [left; reflexivity|exact Hrej]|].
          split; [right; exact H1|exact H2].
        + intros [[->|H1] H2]; [left; reflexivity|right; split; assumption].
      - rewrite elem_of_cons, IH. split.
        + intros [H1 H2]. split; [right; exact H1|exact H2].
        + intros [[->|H1] H2]; [congruence|split; assumption]. }
    unfold rejected in Hstep at 1.
    destruct (c !! ("_cmd_check_support_" +:+ command)) as [[|f| | |]|] eqn:Hc;
      try discriminate Hl.
    + apply (Hstep true Hl). reflexivity.
    + apply (Hstep (f r) Hl). reflexivity.
    + apply (Hstep true Hl). reflexivity.
Qed.

(** The enabled set of a constructed registry. *)
Lemma init_enabled c r dis en reg :
  __init__ c r dis en = Ret reg ->
  forall x, x ∈ _enabled_ops reg <->
    ((x ∈ _collect_operations c /\ rejected c r x = false) \/ x ∈ en) /\ x ∉ dis.
Proof.
  unfold __init__. intros Hinit x.
  destruct (_filter_disabled_commands c {["repo" := AValue]} r (_collect_operations c))
    as [cmds|e] eqn:Hf; [|discriminate Hinit].
  destruct (enable_all _ _ _) as [d|e]; [|discriminate Hinit].
  injection Hinit as <-. cbn [_enabled_ops].
  rewrite elem_of_difference, elem_of_union, !elem_of_list_to_set.
  rewrite (filter_disabled_spec c r _ cmds Hf x). reflexivity.
Qed.

(** C4.  For a registry constructed by [operations.__init__] from class
    [c]: when the repository is frozen and no enable overrides are given,
    a command among install, uninstall and replace for which [c] keeps
    the frozen test of [operations] is not in the enabled set; and a
    command that its support predicate rejects is in the enabled set
    exactly when it is among the enable overrides (and not among the
    disable overrides, which are applied last), so passing it as an
    enable override enables it.  A registry of [operations_proxy], which
    has its own [__init__], is another matter: see
    [operations_proxy__init__]. *)
Theorem frozen_and_overrides c r dis en reg :
  __init__ c r dis en = Ret reg ->
  (frozen r = true -> en = [] ->
     forall x, x ∈ ["install"; "uninstall"; "replace"] ->
       frozen_check_inherited c x -> x ∉ _enabled_ops reg) /\
  (forall x, rejected c r x = true ->
     (x ∈ _enabled_ops reg <-> x ∈ en /\ x ∉ dis)) /\
  (forall x, x ∈ en -> x ∉ dis -> x ∈ _enabled_ops reg).
Proof.
  intros Hinit. pose proof (init_enabled c r dis en reg Hinit) as Hen.
  assert (Hrej : forall x, rejected c r x = true ->
                   (x ∈ _enabled_ops reg <-> x ∈ en /\ x ∉ dis)).
  { intros x Hx. rewrite Hen. split.
    - intros [[[_ H]|H] Hd]; [congruence|split; assumption].
    - intros [H Hd]. split; [right; exact H|exact Hd]. }
  split_and!.
  - intros Hfrozen -> x Hx Hcheck Hin.
    assert (Hr : rejected c r x = true).
    { unfold rejected. rewrite Hcheck. unfold _disabled_if_frozen.
      rewrite Hfrozen. reflexivity. }
    apply (Hrej x Hr) in Hin as [Hin _]. inversion Hin.
  - exact Hrej.
  - intros x Hx Hd. apply Hen. split; [right; exact Hx|exact Hd].
Qed.

(** Attribute lookup only gains from a growing [__dict__]. *)
Lemma getattr_in_mono c d d' name :
  (forall k, is_Some (d !! k) -> is_Some (d' !! k)) ->
  is_Some (getattr_in c d name) -> is_Some (getattr_in c d' name).
Proof.
  unfold getattr_in. intros Hsub H.
  destruct (d' !! name) as [a'|] eqn:Hd'; [eexists; reflexivity|].
  destruct (d !! name) as [a|] eqn:Hd; [|exact H].
  destruct (Hsub name (ex_intro _ a Hd)) as [b Hb]. congruence.
Qed.

(** What enabling a list of operations does to the [__dict__]. *)
Lemma enable_all_spec c ops : forall d d',
  enable_all c d ops = Ret d' ->
  (forall k, is_Some (d !! k) -> is_Some (d' !! k)) /\
  (forall op, op ∈ ops ->
     is_Some (d' !! op) /\ is_Some (getattr_in c d' ("_cmd_enabled_" +:+ op))).
Proof.
  induction ops as [|op ops IH]; intros d d' H.
  - simpl in H. injection H as <-. split; [auto|]. intros op Hop; inversion Hop.
  - simpl in H. unfold _enable_operation in H.
    destruct (getattr_in c d ("_cmd_enabled_" +:+ op)) as [a|] eqn:Ha;
      [|discriminate H].
    destruct (IH _ _ H) as [Hsub Hops].
    assert (Hsub' : forall k, is_Some (d !! k) -> is_Some (d' !! k)).
    { intros k Hk. apply Hsub.
      destruct (decide (op = k)) as [->|Hne]; [rewrite lookup_insert_eq; eauto|].
      rewrite lookup_insert_ne by exact Hne. exact Hk. }
    split; [exact Hsub'|].
    intros op' Hop'. apply elem_of_cons in Hop' as [->|Hop']; [|apply Hops; exact Hop'].
    split.
    + apply Hsub. rewrite lookup_insert_eq. eauto.
    + apply (getattr_in_mono c d d'); [exact Hsub'|]. rewrite Ha. eauto.
Qed.

(** An attribute of [operations] whose name starts with
    [_cmd_enabled_] is one of the five wrappers, under its own name. *)
Lemma operations_enabled_attr op a :
  operations_attrs !! ("_cmd_enabled_" +:+ op) = Some a ->
  exists w, a = AEnabled w /\ wrapper_name w = op.
Proof.
  intros H. apply elem_of_list_to_map_2 in H. simpl in H.
  elem_cases H; inversion H; cbv [String.append] in *; subst;
    eexists; split; reflexivity.
Qed.

Lemma startswith_enabled op : startswith ("_cmd_enabled_" +:+ op) "_cmd_enabled_" = true.
Proof. destruct op; reflexivity. Qed.

Lemma startswith_enabled_cmd op : startswith ("_cmd_enabled_" +:+ op) "_cmd_" = true.
Proof. reflexivity. Qed.

(** The wrapper of an enabled command and the command itself are
    attributes of a constructed registry. *)
Lemma init_enabled_attrs c r dis en reg :
  __init__ c r dis en = Ret reg ->
  forall x, x ∈ _enabled_ops reg ->
    is_Some (getattr reg x) /\ is_Some (getattr reg ("_cmd_enabled_" +:+ x)).
Proof.
  unfold __init__. intros Hinit x Hx.
  destruct (_filter_disabled_commands _ _ _ _) as [cmds|e]; [|discriminate Hinit].
  match type of Hinit with
  | context [enable_all ?c0 ?d0 ?ops] =>
      destruct (enable_all c0 d0 ops) as [d|e] eqn:He; [|discriminate Hinit];
      destruct (enable_all_spec c0 ops d0 d He) as [Hsub Hops]
  end.
  injection Hinit as <-. cbn [_enabled_ops] in Hx.
  apply elem_of_elements in Hx. destruct (Hops x Hx) as [H1 H2].
  assert (Hgrow : forall k, is_Some (d !! k) ->
                            is_Some (<["_enabled_ops" := AValue]> d !! k)).
  { intros k Hk. destruct (decide ("_enabled_ops" = k)) as [<-|Hne];
      [rewrite lookup_insert_eq; eauto|rewrite lookup_insert_ne by exact Hne; exact Hk]. }
  unfold getattr; cbn [cls dict]. split.
  - apply (getattr_in_mono c d); [exact Hgrow|].
    unfold getattr_in. destruct H1 as [a ->]. eauto.
  - apply (getattr_in_mono c d); [exact Hgrow|exact H2].
Qed.

(** The keys of the [__dict__] after enabling a list of operations. *)
Lemma enable_all_keys c ops : forall d d',
  enable_all c d ops = Ret d' ->
  forall k, is_Some (d' !! k) <-> k ∈ ops \/ is_Some (d !! k).
Proof.
  induction ops as [|op ops IH]; intros d d' H k.
  - simpl in H. injection H as <-. split; [auto|].
    intros [Hk|Hk]; [inversion Hk|exact Hk].
  - simpl in H. unfold _enable_operation in H.
    destruct (getattr_in c d ("_cmd_enabled_" +:+ op)) as [a|]; [|discriminate H].
    rewrite (IH _ _ H k), elem_of_cons, lookup_insert_is_Some. split.
    + intros [Hk|[->|[_ Hk]]]; auto.
    + intros [[->|Hk]|Hk]; auto.
      destruct (decide (op = k)); auto.
Qed.

(** The class and the [__dict__] of a constructed registry: the
    [__dict__] holds [repo], [_enabled_ops] and the enabled commands. *)
Lemma init_dict_keys c r dis en reg :
  __init__ c r dis en = Ret reg ->
  cls reg = c /\
  forall k, is_Some (dict reg !! k) <->
    k ∈ _enabled_ops reg \/ k = "repo" \/ k = "_enabled_ops".
Proof.
  unfold __init__. intros Hinit.
  destruct (_filter_disabled_commands _ _ _ _) as [cmds|e]; [|discriminate Hinit].
  match type of Hinit with
  | context [enable_all ?c0 ?d0 ?ops] =>
      destruct (enable_all c0 d0 ops) as [d|e] eqn:He; [|discriminate Hinit];
      pose proof (enable_all_keys c0 ops d0 d He) as Hkeys
  end.
  injection Hinit as <-. cbn [cls dict _enabled_ops]. split; [reflexivity|].
  intros k. rewrite lookup_insert_is_Some, Hkeys, elem_of_elements.
  rewrite <- (elem_of_dom (M := gmap string)), dom_singleton_L, elem_of_singleton.
  split.
  - intros [<-|[_ [Hk| ->]]]; auto.
  - intros [Hk|[->| ->]]; auto.
    destruct (decide ("_enabled_ops" = k)); auto.
Qed.

Lemma getattr_is_Some (reg : registry) k :
  is_Some (getattr reg k) <-> is_Some (dict reg !! k) \/ is_Some (cls reg !! k).
Proof.
  unfold getattr, getattr_in. destruct (dict reg !! k) as [a|]; [split; eauto|].
  split; [auto|]. intros [[a H]|H]; [discriminate H|exact H].
Qed.

(** [hasattr] on a registry. *)
Lemma hasattr_true (reg : registry) k :
  hasattr reg k = true <->
  is_Some (dict reg !! k) \/ is_Some (cls reg !! k) \/ k ∈ object_attrs.
Proof.
  unfold hasattr, getattr, getattr_in.
  rewrite orb_true_iff, !bool_decide_eq_true.
  destruct (dict reg !! k) as [a|]; [split; eauto|].
  split.
  - intros [H|H]; auto.
  - intros [[a H]|[H|H]]; [discriminate H|auto|auto].
Qed.

(** No wrapper name is [repo], [_enabled_ops] or a name every object
    has. *)
Lemma wrapper_attr_own n :
  "_cmd_enabled_" +:+ n <> "repo" /\ "_cmd_enabled_" +:+ n <> "_enabled_ops" /\
  "_cmd_enabled_" +:+ n ∉ object_attrs.
Proof.
  split_and!; try (cbv [String.append]; discriminate).
  intros H. unfold object_attrs in H.
  elem_cases H; cbv [String.append] in H; discriminate H.
Qed.

Lemma flag_true b : Flag b = Flag true <-> b = true.
Proof. split; [intros H; injection H as ->; reflexivity|intros ->; reflexivity]. Qed.

(** The classes of the plain kind have the wrappers of the five wrapped
    commands and no other. *)
Lemma plain_class_wrappers defined n :
  plain_subclass defined ->
  is_Some (subclass defined !! ("_cmd_enabled_" +:+ n)) <-> n ∈ wrapped_commands.
Proof.
  intros Hsub. unfold subclass. rewrite lookup_union_is_Some. split.
  - intros [H|[a H]].
    + destruct (Hsub _ H) as [_ Hno]. rewrite startswith_enabled in Hno.
      discriminate Hno.
    + apply operations_enabled_attr in H as (w & _ & <-).
      apply wrapper_name_is_command.
  - intros H. right. unfold wrapped_commands in H.
    elem_cases H; subst; vm_compute; eauto.
Qed.

(** In a plain [__dict__] no name starts with [_cmd_]. *)
Lemma plain_dict_no_cmd d name :
  plain_dict d -> startswith name "_cmd_" = true -> d !! name = None.
Proof.
  intros Hd Hname. destruct (d !! name) as [a|] eqn:Ha; [|reflexivity].
  exfalso. destruct (Hd name a Ha) as [[[->| ->] _]|(w & _ & <-)];
    [discriminate Hname|discriminate Hname|destruct w; discriminate Hname].
Qed.

Lemma plain_dict_enable defined ops : forall d d',
  plain_subclass defined ->
  plain_dict d ->
  enable_all (subclass defined) d ops = Ret d' ->
  plain_dict d'.
Proof.
  induction ops as [|op ops IH]; intros d d' Hsub Hd H.
  - simpl in H. injection H as <-. exact Hd.
  - simpl in H. unfold _enable_operation, getattr_in in H.
    rewrite (plain_dict_no_cmd d ("_cmd_enabled_" +:+ op) Hd
               (startswith_enabled_cmd op)) in H.
    destruct (subclass defined !! ("_cmd_enabled_" +:+ op)) as [a|] eqn:Ha;
      [|discriminate H].
    apply (IH _ _ Hsub) in H; [exact H|].
    unfold subclass in Ha. apply lookup_union_Some_raw in Ha as [Ha|[_ Ha]].
    + destruct (Hsub _ (ex_intro _ a Ha)) as [_ Hno].
      rewrite startswith_enabled in Hno. discriminate Hno.
    + apply operations_enabled_attr in Ha as (w & -> & Hw).
      intros k b Hk. destruct (decide (op = k)) as [<-|Hne].
      * rewrite lookup_insert_eq in Hk. injection Hk as <-. right. eauto.
      * rewrite lookup_insert_ne in Hk by exact Hne. exact (Hd k b Hk).
Qed.

(** The [__dict__] of a registry constructed from a plain subclass. *)
Lemma init_plain_dict defined r dis en reg :
  plain_subclass defined ->
  __init__ (subclass defined) r dis en = Ret reg ->
  cls reg = subclass defined /\ plain_dict (dict reg) /\
  forall x, x ∈ _enabled_ops reg -> is_Some (dict reg !! x).
Proof.
  unfold __init__. intros Hsub Hinit.
  destruct (_filter_disabled_commands _ _ _ _) as [cmds|e]; [|discriminate Hinit].
  match type of Hinit with
  | context [enable_all ?c0 ?d0 ?ops] =>
      destruct (enable_all c0 d0 ops) as [d|e] eqn:He; [|discriminate Hinit];
      pose proof (plain_dict_enable defined ops d0 d Hsub) as Hplain;
      destruct (enable_all_spec c0 ops d0 d He) as [_ Hops]
  end.
  injection Hinit as <-. cbn [cls dict _enabled_ops].
  assert (Hd : plain_dict d).
  { apply Hplain; [|exact He]. intros k a Hk.
    apply lookup_singleton_Some in Hk as [<- <-]. left. auto. }
  split; [reflexivity|]. split.
  - intros k a Hk. destruct (decide ("_enabled_ops" = k)) as [<-|Hne].
    + rewrite lookup_insert_eq in Hk. injection Hk as <-. left. auto.
    + rewrite lookup_insert_ne in Hk by exact Hne. exact (Hd k a Hk).
  - intros x Hx. apply elem_of_elements in Hx. destruct (Hops x Hx) as [[a Ha] _].
    destruct (decide ("_enabled_ops" = x)) as [<-|Hne];
      [rewrite lookup_insert_eq; eauto|].
    rewrite lookup_insert_ne by exact Hne. eauto.
Qed.

(** C6, as the code has it.  On a registry constructed by
    [operations.__init__] from class [c], [supports()] is the enabled
    set and [supports(raw=True)] the set of the commands [c] has a
    handler for.  For a non-empty name [n]:
    - [supports(n, raw=True)] tests the attribute [_cmd_enabled_n]: it
      is true exactly when the class has that attribute (or a command of
      that very name is enabled), whether or not there is a handler; for
      [operations] and the subclasses that define no wrapper, exactly
      when [n] is one of the five wrapped commands;
    - [supports(n)] tests the attribute [n]: it is true exactly when [n]
      is in the enabled set or names something else the registry has (a
      class attribute, [repo], [_enabled_ops], an attribute every object
      has); so for every other name, exactly when [n] is in the enabled
      set;
    - both are true for every member of the enabled set. *)
Theorem supports_tests_attributes c r dis en reg n :
  __init__ c r dis en = Ret reg ->
  n <> "" ->
  exists names raw_names,
    supports reg None false = Ops names /\
    supports reg None true = Ops raw_names /\
    names = _enabled_ops reg /\
    (n ∈ raw_names <-> has_handler c n) /\
    (supports reg (Some n) true = Flag true <->
       is_Some (c !! ("_cmd_enabled_" +:+ n)) \/ "_cmd_enabled_" +:+ n ∈ names) /\
    (forall defined, c = subclass defined -> plain_subclass defined ->
       (supports reg (Some n) true = Flag true <-> n ∈ wrapped_commands)) /\
    (supports reg (Some n) false = Flag true <->
       n ∈ names \/ is_Some (c !! n) \/ n = "repo" \/ n = "_enabled_ops" \/
       n ∈ object_attrs) /\
    (c !! n = None -> n <> "repo" -> n <> "_enabled_ops" -> n ∉ object_attrs ->
       (supports reg (Some n) false = Flag true <-> n ∈ names)) /\
    (n ∈ names ->
       supports reg (Some n) false = Flag true /\
       supports reg (Some n) true = Flag true).
Proof.
  intros Hinit Hn.
  destruct (init_dict_keys c r dis en reg Hinit) as [Hcls Hkeys].
  assert (Hnamed : forall raw, supports reg (Some n) raw =
            if raw then Flag (hasattr reg ("_cmd_enabled_" +:+ n))
            else Flag (hasattr reg n)).
  { intros raw. unfold supports, supports_from. destruct n; [congruence|reflexivity]. }
  destruct (wrapper_attr_own n) as (Hw1 & Hw2 & Hw3).
  assert (Hraw : supports reg (Some n) true = Flag true <->
            is_Some (c !! ("_cmd_enabled_" +:+ n)) \/
            "_cmd_enabled_" +:+ n ∈ _enabled_ops reg).
  { rewrite (Hnamed true), flag_true, hasattr_true, Hkeys, Hcls. split.
    - intros [[H|[H|H]]|[H|H]]; auto; contradiction.
    - intros [H|H]; auto. }
  assert (Hplain : supports reg (Some n) false = Flag true <->
            n ∈ _enabled_ops reg \/ is_Some (c !! n) \/ n = "repo" \/
            n = "_enabled_ops" \/ n ∈ object_attrs).
  { rewrite (Hnamed false), flag_true, hasattr_true, Hkeys, Hcls. split.
    - intros [[H|[H|H]]|[H|H]]; auto.
    - intros [H|[H|[H|[H|H]]]]; auto. }
  exists (_enabled_ops reg), (list_to_set (_collect_operations c)).
  split_and!.
  - reflexivity.
  - unfold supports, supports_from. rewrite Hcls. reflexivity.
  - reflexivity.
  - rewrite elem_of_list_to_set. apply elem_of_collect_operations.
  - exact Hraw.
  - intros defined -> Hsub.
    destruct (init_plain_dict defined r dis en reg Hsub Hinit) as (_ & Hd & Hen).
    rewrite Hraw, (plain_class_wrappers defined n Hsub).
    split; [|auto]. intros [H|H]; [exact H|exfalso].
    destruct (Hen _ H) as [a Ha].
    rewrite (plain_dict_no_cmd _ _ Hd (startswith_enabled_cmd n)) in Ha.
    discriminate Ha.
  - exact Hplain.
  - intros Hc H1 H2 H3. rewrite Hplain. split; [|auto].
    intros [H|[[a H]|[H|[H|H]]]]; try contradiction; [exact H|congruence].
  - intros Hin. split; [apply Hplain; auto|].
    rewrite (Hnamed true), flag_true, hasattr_true.
    destruct (init_enabled_attrs _ _ _ _ _ Hinit n Hin) as [_ Hw].
    apply getattr_is_Some in Hw as [Hw|Hw]; auto.
Qed.


End RegistryFacts.

Lemma frozen_registry_built :
  Registry.__init__ Registry.operations_attrs frozen_repo [] [] = Ret frozen_registry.
Proof. vm_compute. reflexivity. Qed.

Lemma forced_registry_built :
  Registry.__init__ Registry.operations_attrs frozen_repo [] ["install"]
  = Ret forced_registry.
Proof. vm_compute. reflexivity. Qed.

Lemma full_registry_built :
  Registry.__init__ full_class syncing_repo [] [] = Ret full_registry.
Proof. vm_compute. reflexivity. Qed.

Lemma four_handlers_plain : plain_subclass four_handlers.
Proof.
  intros k [a Ha]. apply elem_of_list_to_map_2 in Ha.
  elem_cases Ha; inversion Ha; subst; split; (discriminate || reflexivity).
Qed.

Lemma frozen_full_built :
  Registry.__init__ full_class frozen_repo [] [] = Ret frozen_full.
Proof. vm_compute. reflexivity. Qed.

Lemma frozen_and_overrides_witness :
  (Registry.__init__ full_class frozen_repo [] [] = Ret frozen_full /\
   Repo.frozen frozen_repo = true /\
   frozen_check_inherited full_class "install" /\
   "install" ∉ Registry._enabled_ops frozen_full) /\
  (Registry.__init__ Registry.operations_attrs frozen_repo [] ["install"]
     = Ret forced_registry /\
   rejected Registry.operations_attrs frozen_repo "install" = true /\
   "install" ∈ Registry._enabled_ops forced_registry).
Proof.
  split.
  - split; [exact frozen_full_built|]. split; [reflexivity|].
    split; [vm_compute; reflexivity|].
    apply (proj1 (frozen_and_overrides full_class frozen_repo [] [] frozen_full
                    frozen_full_built) eq_refl eq_refl "install").
    + left.
    + vm_compute. reflexivity.
  - split; [exact forced_registry_built|]. split; [reflexivity|].
    apply (proj2 (proj2 (frozen_and_overrides Registry.operations_attrs frozen_repo
                           [] ["install"] forced_registry forced_registry_built))).
    + left.
    + intros H. inversion H.
Defined.

(** C4, as stated, fails on a proxy registry: [operations_proxy] asks
    the target registry's support checks, which look at the target's
    repository, so over a frozen repository and with no overrides it
    enables install, uninstall and replace when the target's class
    supports them. *)
Lemma proxy_over_frozen_enables :
  Repo.frozen frozen_repo = true /\
  Registry.operations_proxy__init__ Registry.operations_proxy_attrs
    full_registry frozen_repo [] [] = Ret frozen_proxy /\
  Registry.repo frozen_proxy = frozen_repo /\
  "install" ∈ Registry._enabled_ops frozen_proxy /\
  "uninstall" ∈ Registry._enabled_ops frozen_proxy /\
  "replace" ∈ Registry._enabled_ops frozen_proxy.
Proof.
  split; [reflexivity|]. split; [vm_compute; reflexivity|].
  split; [reflexivity|].
  split_and!; apply (bool_decide_unpack _); vm_compute; exact I.
Qed.

(** The frozen repository without overrides: the plain class enables
    nothing, the class with the four handlers configure only. *)
Example frozen_registry_enabled :
  elements (Registry._enabled_ops frozen_registry) = [] /\
  elements (Registry._enabled_ops forced_registry) = ["install"] /\
  elements (Registry._enabled_ops frozen_full) = ["configure"].
Proof. vm_compute. repeat split. Qed.

Lemma supports_tests_attributes_witness :
  Registry.__init__ full_class syncing_repo [] [] = Ret full_registry /\
  "install" <> "" /\
  (Registry.supports full_registry (Some "install") true = Registry.Flag true <->
   "install" ∈ wrapped_commands) /\
  (Registry.supports full_registry (Some "install") false = Registry.Flag true <->
   "install" ∈ Registry._enabled_ops full_registry).
Proof.
  split; [exact full_registry_built|]. split; [discriminate|].
  destruct (supports_tests_attributes full_class syncing_repo [] [] full_registry
              "install" full_registry_built
              (fun H => eq_ind "install"
                          (fun s => match s with "" => False | _ => True end) I "" H))
    as (names & raw_names & _ & _ & Hnames & _ & _ & Hwrapped & _ & Hmember & _).
  split.
  - exact (Hwrapped four_handlers eq_refl four_handlers_plain).
  - rewrite <- Hnames. apply Hmember.
    + vm_compute. reflexivity.
    + discriminate.
    + discriminate.
    + intros H. unfold Registry.object_attrs in H. elem_cases H; discriminate H.
Defined.

(** C6, as stated, fails on the registry of the plain [operations] class
    over an unfrozen repository with a syncer: [supports("install",
    raw=True)] is true, the class having the wrapper
    [_cmd_enabled_install], although install is not among the
    structurally defined commands [supports(None, raw=True)] returns
    (only sync is). *)
Lemma supports_is_not_membership :
  exists reg raw_names,
    Registry.__init__ Registry.operations_attrs syncing_repo [] [] = Ret reg /\
    Registry.supports reg None true = Registry.Ops raw_names /\
    Registry.supports reg (Some "install") true = Registry.Flag true /\
    "install" ∉ raw_names.
Proof.
  exists (built (Registry.__init__ Registry.operations_attrs syncing_repo [] [])).
  eexists. split; [vm_compute; reflexivity|].
  split; [reflexivity|].
  split; [vm_compute; reflexivity|].
  apply (bool_decide_unpack _); vm_compute; exact I.
Qed.

(** Names that are attributes without being commands: [supports] is
    true for them although they are not enabled. *)
Example supports_other_attributes :
  Registry.supports full_registry (Some "repo") false = Registry.Flag true /\
  Registry.supports full_registry (Some "supports") false = Registry.Flag true /\
  Registry.supports full_registry (Some "__class__") false = Registry.Flag true /\
  Registry.supports full_registry (Some "digest") false = Registry.Flag false /\
  elements (Registry._enabled_ops full_registry)
    = ["sync"; "configure"; "uninstall"; "install"; "replace"].
Proof. vm_compute. repeat split. Qed.

(** On a proxy, [supports(raw=True)] is what the target's class
    collects, while the enabled set is the proxy's own. *)
Example proxy_supports_raw :
  Registry.proxy_supports full_registry frozen_proxy None true =
    Registry.Ops (list_to_set ["install"; "uninstall"; "replace"; "configure"; "sync"]) /\
  Registry.proxy_supports full_registry frozen_proxy None false =
    Registry.Ops (Registry._enabled_ops frozen_proxy) /\
  Registry.proxy_supports full_registry frozen_proxy (Some "install") false =
    Registry.Flag true.
Proof. vm_compute. repeat split. Qed.


(** The configure wrapper and, for comparison, the install wrapper on
    the same registry. *)
Example configure_call :
  Registry._cmd_enabled_configure idle_handlers full_registry (Repo.Pkg 1) None []
  = (Raise (AttributeError "repository"), []).
Proof. vm_compute. reflexivity. Qed.

Example install_call :
  Registry._cmd_enabled_install idle_handlers full_registry (Repo.Pkg 1) None []
  = (Ret VNone,
     [("_cmd_install",
       [Registry.ArgPkg (Repo.Pkg 1); Registry.ArgObserver Registry.RepoObserver])]).
Proof. vm_compute. reflexivity. Qed.

(** ** The plain-text formatter *)

Section FormatterFacts.

Import Formatters.

Context {F Args : Type}.
Variable EPIPE : Z.
Variable write_suite : Args -> M F unit.

(** C8.  However the body of [write] ends: a normal end is a normal
    end; an [IOError] whose errno is [EPIPE] becomes a [StreamClosed]
    built from it; an [IOError] with any other errno, or none, and every
    other exception go on unchanged.  [StreamClosed] is a class of its
    own and a subclass of [KeyboardInterrupt], so its instances are
    caught as keyboard interrupts and not as [IOError]s. *)
Theorem write_closes_on_EPIPE (args : Args) (f : F) :
  (forall f', write_suite args f = (Ret tt, f') ->
     write EPIPE write_suite args f = (Ret tt, f')) /\
  (forall n f', write_suite args f = (Raise (IOError n), f') ->
     (n = Some EPIPE ->
        write EPIPE write_suite args f = (Raise (StreamClosed (IOError n)), f')) /\
     (n <> Some EPIPE ->
        write EPIPE write_suite args f = (Raise (IOError n), f'))) /\
  (forall e f', write_suite args f = (Raise e, f') ->
     isinstance e IOError_ = false ->
     write EPIPE write_suite args f = (Raise e, f')) /\
  (forall e,
     class_of (StreamClosed e) = StreamClosed_ /\
     isinstance (StreamClosed e) KeyboardInterrupt_ = true /\
     isinstance (StreamClosed e) IOError_ = false) /\
  base StreamClosed_ = Some KeyboardInterrupt_ /\
  issubclass StreamClosed_ KeyboardInterrupt_ = true /\
  StreamClosed_ <> KeyboardInterrupt_ /\
  issubclass KeyboardInterrupt_ StreamClosed_ = false.
Proof.
  split_and!; try reflexivity; try discriminate.
  - intros f' H. unfold write, try_except. rewrite H. reflexivity.
  - intros n f' H. unfold write, try_except, on_IOError, raise. rewrite H.
    cbn [isinstance class_of errno_of]. split.
    + intros Hn. rewrite bool_decide_eq_true_2 by exact Hn. reflexivity.
    + intros Hn. rewrite bool_decide_eq_false_2 by exact Hn. reflexivity.
  - intros e f' H He. unfold write, try_except. rewrite H, He. reflexivity.
  - intros e. split_and!; reflexivity.
Qed.

End FormatterFacts.

(** A broken pipe and a full disk, evaluated. *)
Example write_broken_pipe :
  Formatters.write linux_EPIPE (failing_suite (IOError (Some 32%Z))) tt tt
  = (Raise (StreamClosed (IOError (Some 32%Z))), tt).
Proof. reflexivity. Qed.

Example write_no_space :
  Formatters.write linux_EPIPE (failing_suite (IOError (Some 28%Z))) tt tt
  = (Raise (IOError (Some 28%Z)), tt).
Proof. reflexivity. Qed.

(** ** Constructing build operations *)

Section ConstructorFacts.

Import Format.

Lemma bind_args_raises f args kwargs e :
  bind_args f args kwargs = Raise e -> exists what, e = TypeError what.
Proof.
  unfold bind_args. intros H.
  repeat match type of H with
  | (if ?b then _ else _) = _ => destruct b
  end; try discriminate H; injection H as <-; eauto.
Qed.

(** [build_base.__init__(self, observer)]: one argument short. *)
Lemma build_base_one_short (a b : value) (o : object) :
  build_base__init__ [a; b] ∅ o = (Raise (TypeError "too few arguments"), o).
Proof.
  unfold build_base__init__.
  assert (H : bind_args build_base_signature [a; b] ∅
              = Raise (TypeError "too few arguments")).
  { vm_compute. reflexivity. }
  rewrite H. reflexivity.
Qed.

(** C9.  Whatever positional and keyword arguments [empty_build_op] is
    instantiated with, the result is a [TypeError]: either the arguments
    do not fit its own signature, or they do and the constructor's call
    [build_base.__init__(self, observer)] is one argument short of
    [build_base.__init__(self, domain, observer)]. *)
Theorem empty_build_op_never_constructs (self : value) (args : list value)
    (kwargs : gmap string value) :
  (exists what, empty_build_op self args kwargs = Raise (TypeError what)) /\
  (forall env,
     bind_args empty_build_op_signature (self :: args) kwargs = Ret env ->
     empty_build_op self args kwargs = Raise (TypeError "too few arguments")) /\
  (forall a b o,
     build_base__init__ [a; b] ∅ o = (Raise (TypeError "too few arguments"), o)).
Proof.
  assert (Hfit : forall env,
            bind_args empty_build_op_signature (self :: args) kwargs = Ret env ->
            empty_build_op self args kwargs = Raise (TypeError "too few arguments")).
  { intros env Henv. unfold empty_build_op, instantiate, empty_build_op__init__.
    rewrite Henv. unfold bind at 1. rewrite build_base_one_short. reflexivity. }
  split_and!.
  - destruct (bind_args empty_build_op_signature (self :: args) kwargs) as [env|e] eqn:Hb.
    + eexists. apply (Hfit env eq_refl).
    + destruct (bind_args_raises _ _ _ _ Hb) as [what ->].
      exists what. unfold empty_build_op, instantiate, empty_build_op__init__.
      rewrite Hb. reflexivity.
  - exact Hfit.
  - exact build_base_one_short.
Qed.

End ConstructorFacts.

(** [build] passes all three arguments on and is constructed;
    [empty_build_op] is not, with or without an observer. *)
Example build_constructs :
  map_to_list <$> returned (Format.build (VObj 0) [VObj 1; VObj 2; VObj 3] ∅)
  = Some [("observer", VObj 3); ("domain", VObj 1); ("pkg", VObj 2)].
Proof. vm_compute. reflexivity. Qed.

Example empty_build_op_fails :
  Format.empty_build_op (VObj 0) [VObj 2] ∅ = Raise (TypeError "too few arguments") /\
  Format.empty_build_op (VObj 0) [VObj 2; VObj 3] ∅
    = Raise (TypeError "too few arguments") /\
  Format.empty_build_op (VObj 0) [] ∅ = Raise (TypeError "too few arguments") /\
  Format.empty_build_op (VObj 0) [VObj 2] {[ "observer" := VObj 3 ]}
    = Raise (TypeError "too few arguments").
Proof. vm_compute. repeat split. Qed.

(** ** More on the observer hook *)

Section ObserverMore.

Import Observer.

Context {W Args : Type}.

Implicit Types (o : observer W) (s : state W).

(** X1.  When [phase_start] raises, the stage body is never run and no
    [phase_end] is issued: the hook ends with that exception, having
    issued the one [phase_start]. *)
Theorem phase_start_failure_skips_body o phase
    (method : instance W -> Args -> M (state W) value) self args s e w1 :
  inst_observer self = Some o ->
  phase_start o phase (world s) = (Raise e, w1) ->
  wrap_build_method phase method self args s =
  (Raise e, {| issued := issued s ++ [PhaseStart phase]; world := w1 |}).
Proof.
  intros Ho Hs. rewrite (wrap_build_method_some o) by exact Ho. rewrite Hs. reflexivity.
Qed.

(** X2.  When [phase_end] raises, its exception is what the caller gets,
    whether the stage body returned a value or raised: the body's own
    result or exception is lost. *)
Theorem phase_end_failure_replaces_result o phase
    (method : instance W -> Args -> M (state W) value) self args s w1 r s2 e w3 :
  inst_observer self = Some o ->
  phase_start o phase (world s) = (Ret tt, w1) ->
  method self args {| issued := issued s ++ [PhaseStart phase]; world := w1 |}
    = (r, s2) ->
  phase_end o phase (ret_at_finally r) (world s2) = (Raise e, w3) ->
  wrap_build_method phase method self args s =
  (Raise e,
   {| issued := issued s2 ++ [PhaseEnd phase (ret_at_finally r)]; world := w3 |}).
Proof.
  intros Ho Hs Hm He. rewrite (wrap_build_method_some o) by exact Ho.
  rewrite Hs, Hm. cbn zeta. rewrite He. reflexivity.
Qed.

(** X3.  A stage wrapped for [outer] whose body is a stage wrapped for
    [inner], under an observer [o] whose four handler calls come back:
    [o]'s handlers run in the order [phase_start(outer)],
    [phase_start(inner)], the innermost body, [phase_end(inner, status)],
    [phase_end(outer, status)], each on the world the one before left;
    both ends carry the same status, and the caller gets what the
    innermost body gave, in the world the last handler left. *)
Theorem nested_phases_bracket o outer inner
    (method : instance W -> Args -> M (state W) value) self args s
    w1 w2 r s2 w3 w4 :
  inst_observer self = Some o ->
  phase_start o outer (world s) = (Ret tt, w1) ->
  phase_start o inner w1 = (Ret tt, w2) ->
  method self args
    {| issued := issued s ++ [PhaseStart outer; PhaseStart inner];
       world := w2 |} = (r, s2) ->
  phase_end o inner (ret_at_finally r) (world s2) = (Ret tt, w3) ->
  phase_end o outer (ret_at_finally r) w3 = (Ret tt, w4) ->
  wrap_build_method outer (wrap_build_method inner method) self args s =
  (r, {| issued := issued s2 ++ [PhaseEnd inner (ret_at_finally r);
                                 PhaseEnd outer (ret_at_finally r)];
         world := w4 |}).
Proof.
  intros Ho Hw1 Hw2 Hm Hw3 Hw4.
  rewrite (wrap_build_method_some o) by exact Ho. rewrite Hw1.
  rewrite (wrap_build_method_some o) by exact Ho. cbn [world issued].
  rewrite Hw2, <- app_assoc. cbn [app]. rewrite Hm. cbn zeta. rewrite Hw3.
  cbn [world issued]. rewrite Hw4, <- app_assoc. reflexivity.
Qed.

End ObserverMore.

Section FileObserverFacts.

Import Observer.

Context {Args : Type}.
Variable str_obj : nat -> string.

(** X4.  With a [file_phase_observer] on a stream, a wrapped stage writes
    the line ["starting <phase>"] before anything its body writes and the
    line ["finished <phase>: <status>"] after it, the status printed as
    [True], [False] or [None] (or the object's own [str]), and as [False]
    when the body raised. *)
Theorem file_observer_lines phase
    (method : instance (list string) -> Args -> M (state (list string)) value)
    self args s :
  inst_observer self = Some (file_phase_observer buffer_write str_obj) ->
  exists r s2,
    method self args
      {| issued := issued s ++ [PhaseStart phase];
         world := world s ++ ["starting " +:+ phase +:+ nl] |} = (r, s2) /\
    wrap_build_method phase method self args s =
    (r, {| issued := issued s2 ++ [PhaseEnd phase (ret_at_finally r)];
           world := world s2 ++
             ["finished " +:+ phase +:+ ": " +:+
              match r with
              | Ret (VBool true) => "True"
              | Ret VNone => "None"
              | Ret (VObj n) => str_obj n
              | Ret (VBool false) | Raise _ => "False"
              end +:+ nl] |}).
Proof.
  intros Ho. rewrite (wrap_build_method_some _ _ _ _ _ _ Ho).
  cbn [file_phase_observer phase_start phase_end buffer_write modify].
  destruct (method self args _) as [r s2] eqn:Hm.
  exists r, s2. split; [reflexivity|].
  cbn zeta. destruct r as [[|[|]|n]|e]; reflexivity.
Qed.

End FileObserverFacts.

Lemma phase_start_failure_skips_body_witness :
  Observer.wrap_build_method "compile" silent_stage cramped tt
    (Observer.State [] ["earlier output"]) =
  (Raise (IOError (Some 28%Z)),
   Observer.State [Observer.PhaseStart "compile"] ["earlier output"]).
Proof.
  apply (phase_start_failure_skips_body
           (Observer.file_phase_observer one_line_write show_obj)
           "compile" silent_stage cramped tt
           (Observer.State [] ["earlier output"])); reflexivity.
Defined.

Lemma phase_end_failure_replaces_result_witness :
  Observer.wrap_build_method "compile" silent_stage cramped tt (Observer.State [] []) =
  (Raise (IOError (Some 28%Z)),
   Observer.State [Observer.PhaseStart "compile";
                   Observer.PhaseEnd "compile" (VBool true)]
                  ["starting compile" +:+ Observer.nl]).
Proof.
  apply (phase_end_failure_replaces_result
           (Observer.file_phase_observer one_line_write show_obj)
           "compile" silent_stage cramped tt (Observer.State [] [])
           ["starting compile" +:+ Observer.nl] (Ret (VBool true))
           (Observer.State [Observer.PhaseStart "compile"]
                           ["starting compile" +:+ Observer.nl])); reflexivity.
Defined.

Lemma nested_phases_bracket_witness :
  Observer.wrap_build_method "install"
    (Observer.wrap_build_method "compile" silent_stage) logged tt
    (Observer.State [] []) =
  (Ret (VBool true),
   Observer.State
     [Observer.PhaseStart "install"; Observer.PhaseStart "compile";
      Observer.PhaseEnd "compile" (VBool true);
      Observer.PhaseEnd "install" (VBool true)]
     ["starting install" +:+ Observer.nl; "starting compile" +:+ Observer.nl;
      "finished compile: True" +:+ Observer.nl;
      "finished install: True" +:+ Observer.nl]).
Proof.
  apply (nested_phases_bracket
           (Observer.file_phase_observer buffer_write show_obj)
           "install" "compile" silent_stage logged tt (Observer.State [] [])
           ["starting install" +:+ Observer.nl]
           ["starting install" +:+ Observer.nl; "starting compile" +:+ Observer.nl]
           (Ret (VBool true))
           (Observer.State
              [Observer.PhaseStart "install"; Observer.PhaseStart "compile"]
              ["starting install" +:+ Observer.nl;
               "starting compile" +:+ Observer.nl])
           ["starting install" +:+ Observer.nl; "starting compile" +:+ Observer.nl;
            "finished compile: True" +:+ Observer.nl]
           ["starting install" +:+ Observer.nl; "starting compile" +:+ Observer.nl;
            "finished compile: True" +:+ Observer.nl;
            "finished install: True" +:+ Observer.nl]); reflexivity.
Defined.

Lemma file_observer_lines_witness :
  exists r s2,
    silent_stage logged tt
      {| Observer.issued := [Observer.PhaseStart "compile"];
         Observer.world := ["starting " +:+ "compile" +:+ Observer.nl] |} = (r, s2) /\
    Observer.wrap_build_method "compile" silent_stage logged tt (Observer.State [] []) =
    (r, {| Observer.issued :=
             Observer.issued s2 ++
               [Observer.PhaseEnd "compile" (Observer.ret_at_finally r)];
           Observer.world :=
             Observer.world s2 ++
               ["finished " +:+ "compile" +:+ ": " +:+
                match r with
                | Ret (VBool true) => "True"
                | Ret VNone => "None"
                | Ret (VObj n) => show_obj n
                | Ret (VBool false) | Raise _ => "False"
                end +:+ Observer.nl] |}).
Proof.
  apply (file_observer_lines show_obj "compile" silent_stage logged tt
           (Observer.State [] [])).
  reflexivity.
Defined.

(** The same run, evaluated. *)
Example file_observer_run :
  Observer.world
    (Observer.wrap_build_method "compile" silent_stage logged tt
       (Observer.State [] [])).2 =
  ["starting compile" +:+ Observer.nl; "finished compile: True" +:+ Observer.nl].
Proof. reflexivity. Qed.

(** ** More on the fetch stage *)

Section FetchMore.

Import Format.

Context {E : Type}.

Implicit Types (self : instance E) (s : state E) (x : fetchable)
  (gotten : gset string) (new : list call).

(** X5.  One call of the fetch stage never asks the capability twice for
    the same file name, even when the package lists several fetchables
    under one name, and never for a name that is in the record. *)
Theorem raw_fetch_asks_once self s :
  exists new,
    calls (snd (_raw_fetch self s)) = calls s ++ new /\
    NoDup (asked new) /\
    forall f, f ∈ asked new -> ~ in_record (files_dict s) f.
Proof.
  rewrite raw_fetch_loop.
  destruct (fetch_loop_shape self (fetchables self) (filenames_of (files_dict s))
              {| files := Some (files_dict s); calls := calls s; env := env s |})
    as (pre & tail & Hc & Hnd & Hfresh & _ & _).
  exists (pre ++ tail). split_and!; [exact Hc|exact Hnd|].
  intros f Hf Hrec. apply (Hfresh f Hf). apply elem_of_filenames_of. exact Hrec.
Qed.

(** X6.  The fetch stage stops at the first call that produces no file:
    the calls it makes are successful ones followed by nothing (the
    result is [True]), by one call that returned [None] for a fetchable
    with a URI ([False]), by such a call for a fetchable without URI and
    the no-fetch hook ([False], or what the hook raised), or by one call
    that raised (that exception). *)
Theorem raw_fetch_stops_at_failure self s :
  exists pre tail,
    calls (snd (_raw_fetch self s)) = calls s ++ pre ++ tail /\
    Forall fetched pre /\
    ends_with tail (fst (_raw_fetch self s)).
Proof.
  rewrite raw_fetch_loop.
  destruct (fetch_loop_shape self (fetchables self) (filenames_of (files_dict s))
              {| files := Some (files_dict s); calls := calls s; env := env s |})
    as (pre & tail & Hc & _ & _ & Hpre & Hend).
  exists pre, tail. split_and!; assumption.
Qed.

(** A loop over fetchables that are all in [gotten] does nothing. *)
Lemma fetch_loop_all_gotten self xs gotten s :
  (forall x, x ∈ xs -> filename x ∈ gotten) ->
  fetch_loop self xs gotten s = (Ret true, s).
Proof.
  induction xs as [|x rest IH]; intros Hall; [reflexivity|].
  rewrite fetch_loop_cons.
  destruct (decide (filename x ∈ gotten)) as [_|Hn].
  - apply IH. intros y Hy. apply Hall. right; exact Hy.
  - exfalso. apply Hn, Hall. left.
Qed.

Lemma paths_elem new y q :
  Fetcher y (Ret (Some q)) ∈ new -> q ∈ paths new.
Proof.
  intros H. unfold paths. apply list_elem_of_omap.
  exists (Fetcher y (Ret (Some q))). split; [exact H|reflexivity].
Qed.

(** With fresh and distinct paths, the record after the calls holds
    everything it held and everything they fetched. *)
Lemma record_keeps_names new : forall (d : gmap string fetchable) f,
  (forall p, p ∈ paths new -> d !! p = None) ->
  in_record d f -> in_record (foldl record_call d new) f.
Proof.
  intros d f Hfresh (fp & y & Hd & Hy). exists fp, y. split; [|exact Hy].
  apply foldl_record_call_keeps; [exact Hd|].
  intros z q Hz ->. apply paths_elem in Hz. rewrite (Hfresh _ Hz) in Hd. discriminate.
Qed.

Lemma record_gains_names new : forall (d : gmap string fetchable) f,
  NoDup (paths new) ->
  f ∈ fetched_names new -> in_record (foldl record_call d new) f.
Proof.
  induction new as [|c new IH]; intros d f Hnd Hf.
  - unfold fetched_names in Hf. simpl in Hf. apply elem_of_empty in Hf as [].
  - destruct c as [y [[q|]|err]|]; try (simpl; apply IH; assumption).
    rewrite fetched_names_cons_fetched in Hf. cbn in Hnd.
    apply NoDup_cons in Hnd as [Hq Hnd].
    apply elem_of_union in Hf as [Hf|Hf]; [|simpl; apply IH; assumption].
    apply elem_of_singleton in Hf as ->.
    exists q, y. split; [|reflexivity]. simpl.
    apply foldl_record_call_keeps; [apply lookup_insert_eq|].
    intros z q' Hz ->. apply Hq. eapply paths_elem; exact Hz.
Qed.

(** X7.  After a fetch that returned [True], fetching again does nothing:
    no capability call, the record unchanged, [True] again -- provided
    the paths the capability returned were distinct and not yet keys of
    the record (a path returned twice overwrites an entry, and the name
    it stood for is fetched again). *)
Theorem refetch_is_idle self s s1 new :
  _raw_fetch self s = (Ret true, s1) ->
  calls s1 = calls s ++ new ->
  NoDup (paths new) ->
  (forall p, p ∈ paths new -> files_dict s !! p = None) ->
  _raw_fetch self s1 = (Ret true, s1).
Proof.
  intros Hrun Hcalls Hnd Hfresh.
  pose proof (fetch_loop_spec self (fetchables self) (filenames_of (files_dict s))
                {| files := Some (files_dict s); calls := calls s; env := env s |})
    as (new' & Hc & Hf & _ & Hok & _ & _).
  pose proof (fetch_loop_files_set self (fetchables self) (filenames_of (files_dict s))
                {| files := Some (files_dict s); calls := calls s; env := env s |}
                (ltac:(eexists; reflexivity))) as [d1 Hd1].
  rewrite <- raw_fetch_loop, Hrun in Hc, Hf, Hok, Hd1. cbn [fst snd calls files_dict files] in *.
  assert (new' = new) as -> by (eapply app_inv_head; rewrite <- Hc; exact Hcalls).
  destruct (Hok eq_refl) as [_ Hsat].
  rewrite raw_fetch_loop.
  replace {| files := Some (files_dict s1); calls := calls s1; env := env s1 |} with s1
    by (destruct s1 as [fs cs e]; cbn in *; rewrite Hd1; reflexivity).
  apply fetch_loop_all_gotten. intros x Hx.
  apply elem_of_filenames_of. unfold files_dict at 1. rewrite Hd1. cbn [default].
  unfold files_dict in Hf. rewrite Hd1 in Hf. cbn [default] in Hf. rewrite Hf.
  specialize (Hsat x Hx). apply elem_of_union in Hsat as [Hsat|Hsat].
  - apply record_keeps_names; [exact Hfresh|]. apply elem_of_filenames_of; exact Hsat.
  - apply record_gains_names; assumption.
Qed.

End FetchMore.

Lemma refetch_is_idle_witness :
  Format._raw_fetch (fetching [archive_a; archive_b; archive_a] only_a)
    (snd (Format._raw_fetch
            (fetching [archive_a; archive_b; archive_a] only_a) have_b)) =
  (Ret true,
   snd (Format._raw_fetch (fetching [archive_a; archive_b; archive_a] only_a) have_b)).
Proof.
  apply (refetch_is_idle (fetching [archive_a; archive_b; archive_a] only_a) have_b
           (snd (Format._raw_fetch
                   (fetching [archive_a; archive_b; archive_a] only_a) have_b))
           [Format.Fetcher archive_a (Ret (Some "/distfiles/a.tar"))]).
  - vm_compute. reflexivity.
  - vm_compute. reflexivity.
  - vm_compute. apply NoDup_singleton.
  - intros p Hp. vm_compute in Hp. apply elem_of_cons in Hp as [->|Hp]; [|inversion Hp].
    vm_compute. reflexivity.
Defined.

(** A capability that returns one path for two fetchables: the second
    entry replaces the first, and the next fetch asks for the first name
    again although the previous one returned [True]. *)
Example refetch_after_path_clash :
  let self := fetching [archive_a; archive_b] one_path in
  let first := Format._raw_fetch self nothing_yet in
  let second := Format._raw_fetch self (snd first) in
  fst first = Ret true /\
  asked (Format.calls (snd first)) = ["a.tar"; "b.tar"] /\
  asked (Format.calls (snd second)) = ["a.tar"; "b.tar"; "a.tar"].
Proof. vm_compute. repeat split. Qed.

(** ** More on the repository operations *)

Section OperationFacts.

Import Repo.

Context {B Obs : Type}.

Implicit Types (s self : Repo.state B Obs) (r : repository) (o : option Obs).

(** X8.  Each of the three constructors raises [AttributeError] exactly
    when the repository object has no [lock] attribute, and returns
    otherwise; a constructor that raises has not assigned the package
    attribute of its class. *)
Theorem constructors_need_lock_attribute r o self p q :
  (fst (install__init__ r p o self) =
     match repo_lock r with
     | LockMissing => Raise (AttributeError "lock")
     | LockNone | LockSet => Ret tt
     end) /\
  (fst (uninstall__init__ r p o self) =
     match repo_lock r with
     | LockMissing => Raise (AttributeError "lock")
     | LockNone | LockSet => Ret tt
     end) /\
  (fst (replace__init__ r p q o self) =
     match repo_lock r with
     | LockMissing => Raise (AttributeError "lock")
     | LockNone | LockSet => Ret tt
     end) /\
  (repo_lock r = LockMissing ->
     new_pkg (snd (install__init__ r p o self)) = new_pkg self /\
     old_pkg (snd (uninstall__init__ r p o self)) = old_pkg self /\
     new_pkg (snd (replace__init__ r p q o self)) = new_pkg self /\
     old_pkg (snd (replace__init__ r p q o self)) = old_pkg self).
Proof.
  unfold replace__init__, install__init__, uninstall__init__, base__init__,
    bind, modify.
  destruct (repo_lock r) eqn:Hl; cbn; split_and!; try reflexivity;
    intros; try discriminate; split_and!; reflexivity.
Qed.

(** X9.  On an idle operation whose lock is free, [start] followed by
    [finish] gives the instance back as it was; in between the operation
    is under way and holds the repository's write lock when it has
    one. *)
Theorem start_finish_round_trip s :
  underway s = false ->
  (lock s = RepoLock -> write_locked s = false) ->
  fst (start s) = Ret (VBool true) /\
  guarded (snd (start s)) /\
  finish (snd (start s)) = (Ret (VBool true), s).
Proof.
  intros Hu Hl. destruct s as [r u o l np op wl n b]. cbn in Hu, Hl. subst u.
  unfold start, finish, guarded, bind, modify, acquire_write_lock,
    release_write_lock, set_underway, set_write_locked.
  destruct l; cbn.
  - rewrite (Hl eq_refl). split_and!; reflexivity.
  - split_and!; try reflexivity. discriminate.
Qed.

(** X10.  The duplicate initialisation in [replace.__init__] is harmless:
    once the [uninstall] constructor has run, the [install] constructor
    only adds the new package, so the instance holds both packages, the
    repository, the observer, a cleared underway flag and the lock the
    repository gave. *)
Theorem replace_init_duplicate_harmless r oldpkg newpkg o self :
  repo_lock r <> LockMissing ->
  replace__init__ r oldpkg newpkg o self =
  (Ret tt, set_new_pkg (Some newpkg) (snd (uninstall__init__ r oldpkg o self))) /\
  old_pkg (snd (replace__init__ r oldpkg newpkg o self)) = Some oldpkg /\
  new_pkg (snd (replace__init__ r oldpkg newpkg o self)) = Some newpkg /\
  underway (snd (replace__init__ r oldpkg newpkg o self)) = false /\
  observer (snd (replace__init__ r oldpkg newpkg o self)) = o /\
  repo (snd (replace__init__ r oldpkg newpkg o self)) = r.
Proof.
  intros Hl.
  unfold replace__init__, install__init__, uninstall__init__, base__init__,
    bind, modify.
  destruct (repo_lock r); [congruence| |]; cbn; split_and!; reflexivity.
Qed.

(** The content-update hook leaves the old package alone. *)
Lemma update_all_old_pkg cs : forall s,
  old_pkg (snd (update_all cs s)) = old_pkg s /\
  notified (snd (update_all cs s)) = notified s.
Proof.
  induction cs as [|c cs IH]; intros s; [split; reflexivity|].
  simpl. unfold bind at 1, _update_pkg_contents, bind, get.
  destruct (new_pkg s) as [p|]; cbn [raise modify]; [|split; reflexivity].
  destruct (IH (set_new_pkg (Some (MutatedPkg p [("contents", c)])) s)) as [H1 H2].
  destruct (update_all cs _) as [[[]|e] s']; cbn [snd] in *; split; assumption.
Qed.

(** X11.  The remove-notification hands the repository the old package
    as the constructor stored it: a data stage that passes contents to the
    content-update hook, however often, changes the new package only. *)
Theorem notify_repo_remove_passes_original (body : data_stage B Obs) s q :
  old_pkg s = Some q ->
  old_pkg (snd (data_method body s)) = Some q /\
  _notify_repo_remove (snd (data_method body s)) =
  (Ret (VBool true),
   add_notice (NotifyRemove q) (snd (data_method body s))) /\
  notified (snd (_notify_repo_remove (snd (data_method body s)))) =
    notified s ++ [NotifyRemove q].
Proof.
  intros Hq.
  assert (H : old_pkg (snd (data_method body s)) = Some q /\
              notified (snd (data_method body s)) = notified s).
  { unfold data_method. destruct (body s) as [cs [r b]].
    destruct (update_all_old_pkg cs (set_backend b s)) as [H1 H2].
    destruct (update_all cs (set_backend b s)) as [[[]|e] s']; cbn [snd] in *;
      rewrite H1, H2; split; assumption || reflexivity. }
  destruct H as [Ho Hn]. split; [exact Ho|].
  unfold _notify_repo_remove, bind, get. rewrite Ho. cbn [modify ret snd].
  split; [reflexivity|]. cbn [add_notice notified]. rewrite Hn. reflexivity.
Qed.

End OperationFacts.

Lemma start_finish_round_trip_witness :
  Repo.finish (snd (Repo.start (new_install locked_repo))) =
  (Ret (VBool true), new_install locked_repo).
Proof.
  apply (start_finish_round_trip (new_install locked_repo)).
  - reflexivity.
  - intros _. reflexivity.
Defined.

Lemma replace_init_duplicate_harmless_witness :
  Repo.old_pkg (new_replace locked_repo) = Some (Repo.Pkg 0) /\
  Repo.new_pkg (new_replace locked_repo) = Some (Repo.Pkg 1).
Proof.
  pose proof (replace_init_duplicate_harmless locked_repo (Repo.Pkg 0) (Repo.Pkg 1)
                (None : option nat) (Repo.blank locked_repo false [] tt)
                (fun H => eq_ind Repo.LockSet
                            (fun l => match l with Repo.LockSet => True | _ => False end)
                            I Repo.LockMissing H)) as H.
  split; [exact (proj1 (proj2 H))|exact (proj1 (proj2 (proj2 H)))].
Defined.

Lemma notify_repo_remove_passes_original_witness :
  Repo.notified
    (snd (Repo._notify_repo_remove
            (snd (Repo.data_method finalizing_stage (new_replace locked_repo))))) =
  Repo.notified (new_replace locked_repo) ++ [Repo.NotifyRemove (Repo.Pkg 0)].
Proof.
  exact (proj2 (proj2 (notify_repo_remove_passes_original finalizing_stage
                         (new_replace locked_repo) (Repo.Pkg 0) eq_refl))).
Defined.

(** ** More on the operations registry *)

Section RegistryMore.

Import Repo Registry.

Implicit Types (c d : gmap string attribute) (r : repository).

(** X12.  [_collect_operations] yields exactly the commands the class
    has a handler for: the names [x] such that [_cmd_<x>] is an attribute
    of the class and [x] starts neither with [enabled_] nor with
    [check_support_]. *)
Theorem collect_operations_spec c x :
  x ∈ _collect_operations c <-> has_handler c x.
Proof. apply elem_of_collect_operations. Qed.

(** X13.  The enabled set of a constructed registry, in terms of the
    class: a command is enabled when the class has a handler for it that
    its support predicate does not reject, or when it is an enable
    override; and in no case when it is a disable override. *)
Theorem enabled_ops_formula c r dis en reg :
  __init__ c r dis en = Ret reg ->
  (forall x, x ∈ _enabled_ops reg <->
     ((has_handler c x /\ rejected c r x = false) \/ x ∈ en) /\ x ∉ dis) /\
  (forall x, x ∈ dis ->
     (x ∉ _enabled_ops reg) /\ supports reg None false = Ops (_enabled_ops reg)).
Proof.
  intros Hinit. pose proof (init_enabled c r dis en reg Hinit) as H. split.
  - intros x. rewrite H, elem_of_collect_operations. reflexivity.
  - intros x Hx. split; [|reflexivity]. intros Hin. apply H in Hin as [_ Hn].
    exact (Hn Hx).
Qed.

(** X14.  A registry built from [operations] or from a subclass that
    adds no enabled wrapper can only enable the five commands
    [operations] wraps: construction succeeds only when every enabled
    command is one of them, and each is then published as its wrapper. *)
Theorem plain_registry_commands defined r dis en reg :
  plain_subclass defined ->
  __init__ (subclass defined) r dis en = Ret reg ->
  forall x, x ∈ _enabled_ops reg ->
    x ∈ wrapped_commands /\
    exists w, wrapper_name w = x /\ getattr reg x = Some (AEnabled w).
Proof.
  intros Hsub Hinit x Hx.
  destruct (init_plain_dict defined r dis en reg Hsub Hinit) as (Hcls & Hd & Hen).
  destruct (init_enabled_attrs _ _ _ _ _ Hinit x Hx) as [_ [a Ha]].
  unfold getattr, getattr_in in Ha.
  rewrite (plain_dict_no_cmd _ _ Hd (startswith_enabled_cmd x)) in Ha.
  rewrite Hcls in Ha. unfold subclass in Ha.
  apply lookup_union_Some_raw in Ha as [Ha|[_ Ha]].
  { destruct (Hsub _ (ex_intro _ a Ha)) as [_ Hno].
    rewrite startswith_enabled in Hno. discriminate Hno. }
  apply operations_enabled_attr in Ha as (w & -> & Hname).
  split.
  - rewrite <- Hname. unfold wrapped_commands.
    destruct w; cbn; repeat (first [left; fail | apply elem_of_cons; right]);
      apply elem_of_cons; left; reflexivity.
  - destruct (Hen x Hx) as [b Hb]. unfold getattr, getattr_in. rewrite Hb.
    destruct (Hd _ _ Hb) as [[[->| ->] _]|(w' & -> & Hw')].
    + destruct w; discriminate Hname.
    + destruct w; discriminate Hname.
    + exists w'. split; [exact Hw'|reflexivity].
Qed.

(** X15.  The class [operations] on its own, with no overrides, offers
    nothing but [sync]: construction succeeds on every repository, and
    the enabled set is [sync] when the repository has a syncer that is not
    disabled, and empty otherwise, frozen or not. *)
Theorem operations_alone_offers_sync r :
  exists reg,
    __init__ operations_attrs r [] [] = Ret reg /\
    _enabled_ops reg =
      (if _cmd_check_support_sync r then {["sync"]} else ∅) /\
    (_cmd_check_support_sync r = true <->
       exists s, _syncer r = Some s /\ syncer_disabled s = false).
Proof.
  assert (Hc : _collect_operations operations_attrs = ["sync"])
    by (vm_compute; reflexivity).
  unfold __init__. rewrite Hc. cbn [_filter_disabled_commands].
  assert (Hg : getattr_in operations_attrs {["repo" := AValue]}
                 ("_cmd_check_support_" +:+ "sync")
               = Some (ACheck _cmd_check_support_sync))
    by (vm_compute; reflexivity).
  rewrite Hg.
  assert (Hsync : _cmd_check_support_sync r = true <->
                  exists s, _syncer r = Some s /\ syncer_disabled s = false).
  { unfold _cmd_check_support_sync. destruct (_syncer r) as [s|].
    - rewrite negb_true_iff. split; [eauto|]. intros (s' & Hs & Hd). congruence.
    - split; [discriminate|]. intros (s' & Hs & _). discriminate Hs. }
  destruct (_cmd_check_support_sync r).
  - eexists. split; [vm_compute; reflexivity|]. split; [|exact Hsync].
    vm_compute. reflexivity.
  - eexists. split; [vm_compute; reflexivity|]. split; [|exact Hsync].
    vm_compute. reflexivity.
Qed.

End RegistryMore.

Lemma enabled_ops_formula_witness :
  "install" ∈ Registry._enabled_ops forced_registry <->
  ((has_handler Registry.operations_attrs "install" /\
    rejected Registry.operations_attrs frozen_repo "install" = false) \/
   "install" ∈ ["install"]) /\ ("install" ∉ ([] : list string)).
Proof.
  exact (proj1 (enabled_ops_formula Registry.operations_attrs frozen_repo []
                  ["install"] forced_registry forced_registry_built) "install").
Defined.

Lemma plain_registry_commands_witness :
  "configure" ∈ wrapped_commands /\
  exists w, wrapper_name w = "configure" /\
            Registry.getattr full_registry "configure" = Some (Registry.AEnabled w).
Proof.
  apply (plain_registry_commands four_handlers syncing_repo [] [] full_registry
           four_handlers_plain full_registry_built).
  apply (bool_decide_unpack _). vm_compute. exact I.
Defined.

(** A subclass of [operations] cannot enable a command of its own
    through an enable override: there is no wrapper to publish. *)
Example enable_unknown_command :
  Registry.__init__ full_class syncing_repo [] ["digest"] =
  Raise (AttributeError "_cmd_enabled_digest").
Proof. vm_compute. reflexivity. Qed.

(** The handlers collected from the sample class. *)
Example collect_sample :
  (list_to_set (Registry._collect_operations full_class) : gset string) =
  list_to_set ["install"; "uninstall"; "replace"; "configure"; "sync"].
Proof. vm_compute. reflexivity. Qed.

(** ** More on the constructors of the build operations *)

Section ConstructorMore.

Import Format.

Implicit Types (self : value) (args : list value) (kwargs : gmap string value)
  (o : object).

(** [build_base.__init__] with its three arguments. *)
Lemma build_base_three (a b c : value) o :
  build_base__init__ [a; b; c] ∅ o =
  (Ret tt, <["observer" := c]> (<["domain" := b]> o)).
Proof.
  unfold build_base__init__.
  set (env := list_to_map [("self", a); ("domain", b); ("observer", c)]
              : gmap string value).
  assert (H : bind_args build_base_signature [a; b; c] ∅ = Ret env)
    by (vm_compute; reflexivity).
  rewrite H.
  replace (local env "observer") with c by (vm_compute; reflexivity).
  replace (local env "domain") with b by (vm_compute; reflexivity).
  reflexivity.
Qed.

(** X16.  An instance of [maintenance] never has an attribute
    [observer]: the constructor stores what it is given under
    [obvserver], next to [pkg]. *)
Theorem maintenance_has_no_observer self args kwargs o :
  maintenance self args kwargs = Ret o ->
  o !! "observer" = None /\
  is_Some (o !! "obvserver") /\
  is_Some (o !! "pkg") /\
  dom o = ({["obvserver"; "pkg"]} : gset string).
Proof.
  unfold maintenance, instantiate, maintenance__init__. intros H.
  destruct (bind_args maintenance_signature (self :: args) kwargs) as [env|e];
    [|discriminate H].
  unfold bind, modify in H. cbn in H. injection H as <-.
  split_and!.
  - vm_compute. reflexivity.
  - eexists. vm_compute. reflexivity.
  - eexists. vm_compute. reflexivity.
  - vm_compute. reflexivity.
Qed.

(** X17.  An instance of [install] or of [uninstall] has its package
    both as [pkg] and as [new_pkg] (or [old_pkg]); an instance of
    [replace], whose constructor runs neither parent constructor, has
    [new_pkg] and [old_pkg] but no attribute [pkg]. *)
Theorem replace_instance_has_no_pkg self args kwargs :
  (forall o, install self args kwargs = Ret o ->
     is_Some (o !! "pkg") /\ o !! "new_pkg" = o !! "pkg" /\ o !! "old_pkg" = None) /\
  (forall o, uninstall self args kwargs = Ret o ->
     is_Some (o !! "pkg") /\ o !! "old_pkg" = o !! "pkg" /\ o !! "new_pkg" = None) /\
  (forall o, replace self args kwargs = Ret o ->
     o !! "pkg" = None /\ is_Some (o !! "new_pkg") /\ is_Some (o !! "old_pkg") /\
     is_Some (o !! "domain") /\ is_Some (o !! "observer")).
Proof.
  split_and!; intros o H.
  - unfold install, instantiate, install__init__ in H.
    destruct (bind_args install_signature (self :: args) kwargs) as [env|e];
      [|discriminate H].
    unfold bind at 1 2 in H. rewrite build_base_three in H. cbn in H.
    injection H as <-. split_and!.
    + eexists. vm_compute. reflexivity.
    + vm_compute. reflexivity.
    + vm_compute. reflexivity.
  - unfold uninstall, instantiate, uninstall__init__ in H.
    destruct (bind_args uninstall_signature (self :: args) kwargs) as [env|e];
      [|discriminate H].
    unfold bind at 1 2 in H. rewrite build_base_three in H. cbn in H.
    injection H as <-. split_and!.
    + eexists. vm_compute. reflexivity.
    + vm_compute. reflexivity.
    + vm_compute. reflexivity.
  - unfold replace, instantiate, replace__init__ in H.
    destruct (bind_args replace_signature (self :: args) kwargs) as [env|e];
      [|discriminate H].
    unfold bind at 1 2 in H. rewrite build_base_three in H. cbn in H.
    injection H as <-. split_and!.
    + vm_compute. reflexivity.
    + eexists. vm_compute. reflexivity.
    + eexists. vm_compute. reflexivity.
    + eexists. vm_compute. reflexivity.
    + eexists. vm_compute. reflexivity.
Qed.

End ConstructorMore.

Lemma maintenance_has_no_observer_witness :
  Format.maintenance (VObj 0) [VObj 2; VObj 3] ∅
    = Ret (<["pkg" := VObj 2]> (<["obvserver" := VObj 3]> ∅)) /\
  (<["pkg" := VObj 2]> (<["obvserver" := VObj 3]> ∅) : Format.object) !! "observer"
    = None.
Proof.
  assert (H : Format.maintenance (VObj 0) [VObj 2; VObj 3] ∅
              = Ret (<["pkg" := VObj 2]> (<["obvserver" := VObj 3]> ∅))).
  { vm_compute. reflexivity. }
  split; [exact H|].
  exact (proj1 (maintenance_has_no_observer (VObj 0) [VObj 2; VObj 3] ∅ _ H)).
Defined.

(** The three merge operations, constructed. *)
Example merge_operations_construct :
  map_to_list <$> returned (Format.install (VObj 0) [VObj 1; VObj 2; VObj 3] ∅)
    = Some [("observer", VObj 3); ("new_pkg", VObj 2); ("domain", VObj 1);
            ("pkg", VObj 2)] /\
  map_to_list <$> returned (Format.replace (VObj 0) [VObj 1; VObj 4; VObj 2; VObj 3] ∅)
    = Some [("observer", VObj 3); ("old_pkg", VObj 4); ("new_pkg", VObj 2);
            ("domain", VObj 1)].
Proof. vm_compute. split; reflexivity. Qed.

(** ** The suite of [write] on a stream kept as the list of what was
       written to it *)

(** *** Slices and [rfind] *)

Section SliceFacts.

Import Formatters.

Context {A : Type}.

Implicit Types (l : list A) (k : Z) (p : A -> bool).

Lemma index_le n k : index n k <= n.
Proof. unfold index. destruct (k <? 0)%Z; lia. Qed.

Lemma index_inside n k : (0 <= k <= Z.of_nat n)%Z -> index n k = Z.to_nat k.
Proof. intros H. unfold index. destruct (k <? 0)%Z eqn:E; lia. Qed.

Lemma index_small n k : (0 <= k)%Z -> (Z.of_nat (index n k) <= k)%Z.
Proof. intros H. unfold index. destruct (k <? 0)%Z eqn:E; lia. Qed.

Lemma length_slice_to l k : length (slice_to l k) = index (length l) k.
Proof. unfold slice_to. rewrite length_take. pose proof (index_le (length l) k). lia. Qed.

Lemma length_slice_from l k : length (slice_from l k) = length l - index (length l) k.
Proof. unfold slice_from. apply length_drop. Qed.

Lemma last_index_lt p l i : last_index p l = Some i -> i < length l.
Proof.
  revert i. induction l as [|x l IH]; intros i H; [discriminate H|].
  cbn in H. destruct (last_index p l) as [j|].
  - injection H as <-. specialize (IH j eq_refl). cbn. lia.
  - destruct (p x); [|discriminate H]. injection H as <-. cbn. lia.
Qed.

Lemma last_index_found p l i :
  last_index p l = Some i -> exists x, l !! i = Some x /\ p x = true.
Proof.
  revert i. induction l as [|x l IH]; intros i H; [discriminate H|].
  cbn in H. destruct (last_index p l) as [j|].
  - injection H as <-. exact (IH j eq_refl).
  - destruct (p x) eqn:Hp; [|discriminate H]. injection H as <-. exists x.
    split; [reflexivity|exact Hp].
Qed.

Lemma rfind_found p l stop :
  (0 <= rfind p l stop)%Z ->
  exists x, l !! Z.to_nat (rfind p l stop) = Some x /\ p x = true.
Proof.
  unfold rfind. destruct (last_index p (slice_to l stop)) as [i|] eqn:E; [|lia].
  intros _. rewrite Nat2Z.id. destruct (last_index_found _ _ _ E) as (x & Hx & Hp).
  exists x. split; [|exact Hp]. unfold slice_to in Hx.
  apply lookup_take_Some in Hx as [Hx _]. exact Hx.
Qed.

Lemma slices_join l k : slice_to l k ++ slice_from l k = l.
Proof. unfold slice_to, slice_from. apply take_drop. Qed.

Lemma rfind_range p l stop :
  rfind p l stop = (-1)%Z \/
  (0 <= rfind p l stop < Z.of_nat (index (length l) stop))%Z.
Proof.
  unfold rfind. destruct (last_index p (slice_to l stop)) as [i|] eqn:E; [right|left; reflexivity].
  apply last_index_lt in E. rewrite length_slice_to in E. lia.
Qed.

End SliceFacts.

Lemma length_string_of_list (l : list Ascii.ascii) :
  String.length (String.string_of_list_ascii l) = length l.
Proof. induction l as [|c l IH]; [reflexivity|]. cbn. rewrite IH. reflexivity. Qed.

(** Two formatters with the same attributes are the same. *)
Lemma formatter_eq {St X C : Type} (f g : Formatters.formatter St X C) :
  Formatters.autoline f = Formatters.autoline g ->
  Formatters.wrap f = Formatters.wrap g ->
  Formatters.width f = Formatters.width g ->
  Formatters._pos f = Formatters._pos g ->
  Formatters._in_first_line f = Formatters._in_first_line g ->
  Formatters._wrote_something f = Formatters._wrote_something g ->
  Formatters.first_prefix f = Formatters.first_prefix g ->
  Formatters.later_prefix f = Formatters.later_prefix g ->
  Formatters.stream f = Formatters.stream g ->
  Formatters.ext f = Formatters.ext g -> f = g.
Proof. destruct f, g; cbn; intros; subst; reflexivity. Qed.

Ltac fmt_eq :=
  apply formatter_eq;
  cbn [Formatters.autoline Formatters.wrap Formatters.width Formatters._pos
       Formatters._in_first_line Formatters._wrote_something
       Formatters.first_prefix Formatters.later_prefix Formatters.stream
       Formatters.ext Formatters.set_pos Formatters.set_stream
       Formatters.set_in_first_line Formatters.set_wrote_something];
  try reflexivity.

Section SuiteFacts.

Import Formatters.

Context {X C : Type}.
Variable stream_encoding : list string -> option string.
Variable encode : string -> list N -> outcome string.
Variable str_obj : nat -> string.
Variable call_thing :
  C -> M (formatter (list string) X C) (thing C).

Local Abbreviation fmt := (formatter (list string) X C).
Local Abbreviation resolve' := (resolve str_obj call_thing).
Local Abbreviation write_text' := (write_text buffer_write encode).
Local Abbreviation prefix_loop' := (prefix_loop buffer_write encode str_obj call_thing).
Local Abbreviation _write_prefix' :=
  (_write_prefix buffer_write stream_encoding encode str_obj call_thing).
Local Abbreviation wrap_loop' :=
  (wrap_loop buffer_write stream_encoding encode str_obj call_thing).
Local Abbreviation args_loop' :=
  (args_loop buffer_write stream_encoding encode str_obj call_thing).
Local Abbreviation suite' :=
  (suite buffer_write stream_encoding encode str_obj call_thing).
Local Abbreviation write' :=
  (PlainTextFormatter_write buffer_write stream_encoding encode str_obj call_thing).
Local Abbreviation texts' := (texts (C := C) str_obj).

Implicit Types (f : fmt) (t : thing C) (ts args : list (thing C)) (a : text).

Local Abbreviation text_of' := (text_of (C := C) str_obj).

Lemma and_then_ret {A B} (m : run (list string) X C A)
    (k : A -> run (list string) X C B) f x f' :
  m f = Some (Ret x, f') -> and_then m k f = k x f'.
Proof. intros H. unfold and_then. rewrite H. reflexivity. Qed.

Lemma resolve_plain fuel t f :
  plain t -> resolve' fuel t f = Some (Ret (text_of' t), f).
Proof. destruct t, fuel; cbn; intros H; try reflexivity; destruct H. Qed.

Lemma write_text_str enc s f :
  write_text' enc (Str (String.list_ascii_of_string s)) f =
  Some (Ret tt, set_stream (stream f ++ [s]) f).
Proof.
  cbn. unfold write_stream, buffer_write, modify.
  rewrite String.string_of_list_ascii_of_string. reflexivity.
Qed.

Lemma length_list_ascii s :
  length (String.list_ascii_of_string s) = String.length s.
Proof. induction s as [|c s IH]; [reflexivity|]. cbn. rewrite IH. reflexivity. Qed.

Lemma len_str s :
  len (Str (String.list_ascii_of_string s)) = Z.of_nat (String.length s).
Proof. cbn [len]. rewrite length_list_ascii. reflexivity. Qed.

Lemma length_append s1 s2 :
  String.length (s1 +:+ s2) = String.length s1 + String.length s2.
Proof.
  induction s1 as [|c s1 IH]; [reflexivity|].
  change (String c s1 +:+ s2) with (String c (s1 +:+ s2)). cbn. rewrite IH. reflexivity.
Qed.

Lemma append_empty_r s : s +:+ "" = s.
Proof.
  induction s as [|c s IH]; [reflexivity|].
  change (String c s +:+ "") with (String c (s +:+ "")). rewrite IH. reflexivity.
Qed.

Lemma append_assoc s1 s2 s3 : (s1 +:+ s2) +:+ s3 = s1 +:+ (s2 +:+ s3).
Proof.
  induction s1 as [|c s1 IH]; [reflexivity|].
  change (String c s1 +:+ s2) with (String c (s1 +:+ s2)).
  change (String c (s1 +:+ s2) +:+ s3) with (String c ((s1 +:+ s2) +:+ s3)).
  rewrite IH. reflexivity.
Qed.

Lemma joined_app l1 l2 : joined (l1 ++ l2) = joined l1 +:+ joined l2.
Proof.
  induction l1 as [|c l1 IH]; [reflexivity|].
  cbn [app]. unfold joined in *. cbn [foldr]. rewrite IH, append_assoc. reflexivity.
Qed.

Lemma chars_app l1 l2 : chars (l1 ++ l2) = (chars l1 + chars l2)%Z.
Proof. unfold chars. rewrite joined_app, length_append. lia. Qed.

Lemma chars_cons c l : chars (c :: l) = (Z.of_nat (String.length c) + chars l)%Z.
Proof.
  change (c :: l) with ([c] ++ l). rewrite chars_app. unfold chars at 1. cbn.
  rewrite append_empty_r. reflexivity.
Qed.

Lemma chars_nonneg l : (0 <= chars l)%Z.
Proof. unfold chars. lia. Qed.

Lemma chars_zero l : chars l = 0%Z -> joined l = "".
Proof.
  unfold chars. intros H. destruct (joined l); [reflexivity|]. cbn in H. lia.
Qed.

(** The prefix loop over plain things: each string is counted and
    written. *)
Lemma chars_nil : chars [] = 0%Z.
Proof. reflexivity. Qed.

Lemma texts_cons t ts :
  texts' (t :: ts) =
  match shown str_obj t with Some s => s :: texts' ts | None => texts' ts end.
Proof. reflexivity. Qed.

Lemma prefix_loop_plain fuel enc ts : forall f,
  Forall plain ts ->
  prefix_loop' fuel enc ts f =
  Some (Ret tt, set_stream (stream f ++ texts' ts)
                  (set_pos (_pos f + chars (texts' ts)) f)).
Proof.
  induction ts as [|t ts IH]; intros f Hts.
  - cbn [prefix_loop]. unfold done. f_equal. f_equal.
    change (texts' []) with (@nil string). fmt_eq.
    + rewrite chars_nil. lia.
    + rewrite app_nil_r. reflexivity.
  - apply Forall_cons in Hts as [Ht Hts]. cbn [prefix_loop].
    rewrite (and_then_ret _ _ _ _ _ (resolve_plain fuel t f Ht)).
    rewrite texts_cons. unfold text_of.
    destruct (shown str_obj t) as [s|]; cbn [fmap option_fmap option_map].
    + unfold update. unfold and_then at 1. unfold and_then at 1.
      rewrite write_text_str. rewrite IH by exact Hts.
      f_equal. f_equal. fmt_eq.
      * rewrite chars_cons, len_str. lia.
      * rewrite <- app_assoc. reflexivity.
    + rewrite IH by exact Hts. reflexivity.
Qed.

Lemma write_prefix_plain fuel (w : bool) f :
  Forall plain (current_prefix f) ->
  _write_prefix' fuel w f =
  Some (Ret tt,
        let p := (_pos f + chars (texts' (current_prefix f)))%Z in
        set_stream (stream f ++ texts' (current_prefix f))
          (set_pos (if w && (width f <=? p)%Z then (width f - 10)%Z else p) f)).
Proof.
  intros Hp. unfold _write_prefix. fold (current_prefix f).
  rewrite (and_then_ret _ _ _ _ _ (prefix_loop_plain fuel _ _ f Hp)).
  cbn [width _pos set_stream set_pos].
  destruct (w && (width f <=? _pos f + chars (texts' (current_prefix f)))%Z);
    cbn zeta; f_equal; f_equal; fmt_eq.
Qed.

Lemma wrap_loop_off fuel enc a f : wrap_loop' fuel enc false a f = Some (Ret a, f).
Proof. destruct fuel; reflexivity. Qed.

Lemma line_start_quiet f rest :
  (_pos f <> 0%Z \/ chars (texts' (current_prefix f)) = 0%Z) ->
  line_start_text str_obj f rest = "".
Proof.
  intros H. unfold line_start_text. destruct rest; [reflexivity|].
  destruct (_pos f =? 0)%Z eqn:Hz; [|reflexivity].
  apply Z.eqb_eq in Hz. destruct H as [H|H]; [contradiction|].
  apply chars_zero. exact H.
Qed.

(** The loop over the arguments of [write] without wrapping. *)
Lemma args_loop_unwrapped fuel enc args : forall f,
  Forall plain args ->
  Forall plain (current_prefix f) ->
  (0 <= _pos f)%Z ->
  exists new f',
    args_loop' fuel enc false args f = Some (Ret tt, f') /\
    stream f' = stream f ++ new /\
    joined new = line_start_text str_obj f args +:+ joined (texts' args) /\
    _pos f' = (_pos f + chars new)%Z /\
    _in_first_line f' = _in_first_line f /\
    first_prefix f' = first_prefix f /\
    later_prefix f' = later_prefix f /\
    width f' = width f /\ autoline f' = autoline f /\ wrap f' = wrap f /\
    ext f' = ext f.
Proof.
  induction args as [|t rest IH]; intros f Hargs Hpre Hpos.
  - exists [], f. cbn [args_loop]. unfold done.
    rewrite app_nil_r, chars_nil, Z.add_0_r. split_and!; reflexivity.
  - apply Forall_cons in Hargs as [Ht Hrest]. cbn [args_loop].
    (* the state after the prefix, when it is written *)
    set (P := texts' (current_prefix f)).
    set (f1 := if (_pos f =? 0)%Z
               then set_stream (stream f ++ P) (set_pos (_pos f + chars P) f)
               else f).
    assert (Hstep1 :
      (fun f0 => if (_pos f0 =? 0)%Z then _write_prefix' fuel false f0
                 else Some (Ret tt, f0)) f = Some (Ret tt, f1)).
    { cbn beta. subst f1. destruct (_pos f =? 0)%Z; [|reflexivity].
      rewrite write_prefix_plain by exact Hpre. reflexivity. }
    rewrite (and_then_ret _ _ _ _ _ Hstep1).
    rewrite (and_then_ret _ _ _ _ _ (resolve_plain fuel t f1 Ht)).
    assert (Hcur1 : current_prefix f1 = current_prefix f).
    { subst f1. destruct (_pos f =? 0)%Z; reflexivity. }
    assert (Hnew1 : exists new1, stream f1 = stream f ++ new1 /\
                      joined new1 = line_start_text str_obj f (t :: rest) /\
                      _pos f1 = (_pos f + chars new1)%Z /\
                      (_pos f1 <> 0%Z \/ chars (texts' (current_prefix f1)) = 0%Z)).
    { subst f1. unfold line_start_text. destruct (_pos f =? 0)%Z eqn:Hz.
      - exists P. cbn [stream _pos set_stream set_pos]. split_and!; try reflexivity.
        apply Z.eqb_eq in Hz. rewrite Hz.
        destruct (decide (chars P = 0%Z)) as [H0|H0]; [right; exact H0|left; lia].
      - exists []. rewrite app_nil_r, chars_nil, Z.add_0_r.
        split_and!; try reflexivity. left. apply Z.eqb_neq. exact Hz. }
    destruct Hnew1 as (new1 & Hs1 & Hj1 & Hp1 & Hq1).
    assert (Hframe1 : _in_first_line f1 = _in_first_line f /\
                      first_prefix f1 = first_prefix f /\
                      later_prefix f1 = later_prefix f /\
                      width f1 = width f /\ autoline f1 = autoline f /\
                      wrap f1 = wrap f /\ ext f1 = ext f).
    { subst f1. destruct (_pos f =? 0)%Z; split_and!; reflexivity. }
    destruct Hframe1 as (Hi1 & Hfp1 & Hlp1 & Hw1 & Ha1 & Hwr1 & He1).
    rewrite texts_cons. unfold text_of.
    destruct (shown str_obj t) as [s|]; cbn [fmap option_fmap option_map].
    + rewrite (and_then_ret _ _ _ _ _ (wrap_loop_off fuel enc _ f1)).
      unfold update. unfold and_then at 1. unfold and_then at 1.
      unfold and_then at 1. rewrite write_text_str.
      cbn [stream _pos set_stream set_pos set_wrote_something].
      match goal with |- context [args_loop' _ _ _ rest ?g] => set (f2 := g) end.
      destruct (IH f2 Hrest) as (new2 & f' & Hrun & Hs2 & Hj2 & Hp2 & Hi2 & Hfp2 &
                                 Hlp2 & Hw2 & Ha2 & Hwr2 & He2).
      { subst f2. unfold current_prefix in *.
        cbn [_in_first_line first_prefix later_prefix set_stream set_pos
             set_wrote_something].
        rewrite Hi1, Hfp1, Hlp1. exact Hpre. }
      { subst f2. cbn [_pos set_stream set_pos set_wrote_something].
        rewrite Hp1, len_str. pose proof (chars_nonneg new1). lia. }
      assert (Hquiet : line_start_text str_obj f2 rest = "").
      { apply line_start_quiet. subst f2.
        cbn [_pos set_stream set_pos set_wrote_something]. rewrite len_str.
        replace (current_prefix _) with (current_prefix f1) by reflexivity.
        destruct Hq1 as [Hq1|Hq1]; [|right; exact Hq1].
        left. rewrite Hp1 in *. pose proof (chars_nonneg new1). lia. }
      exists (new1 ++ s :: new2), f'. rewrite Hrun.
      subst f2. cbn [stream _pos _in_first_line first_prefix later_prefix width
                     autoline wrap ext set_stream set_pos set_wrote_something] in *.
      split_and!; try congruence.
      * rewrite Hs2, Hs1, <- !app_assoc. reflexivity.
      * rewrite joined_app, Hj1. f_equal.
        change (joined (s :: new2)) with (s +:+ joined new2).
        change (joined (s :: texts' rest)) with (s +:+ joined (texts' rest)).
        rewrite Hj2, Hquiet. reflexivity.
      * rewrite Hp2, Hp1, chars_app, chars_cons, len_str. lia.
    + destruct (IH f1 Hrest) as (new2 & f' & Hrun & Hs2 & Hj2 & Hp2 & Hi2 & Hfp2 &
                                 Hlp2 & Hw2 & Ha2 & Hwr2 & He2).
      { rewrite Hcur1. exact Hpre. }
      { rewrite Hp1. pose proof (chars_nonneg new1). lia. }
      exists (new1 ++ new2), f'. rewrite Hrun.
      split_and!; try congruence.
      * rewrite Hs2, Hs1, <- app_assoc. reflexivity.
      * rewrite joined_app, Hj1, Hj2, (line_start_quiet f1 rest Hq1). reflexivity.
      * rewrite Hp2, Hp1, chars_app. lia.
Qed.

Lemma write_of_suite EPIPE fuel args kw_wrap kw_autoline f f' :
  suite' fuel args kw_wrap kw_autoline f = Some (Ret tt, f') ->
  write' EPIPE fuel args kw_wrap kw_autoline f = Some (Ret tt, f').
Proof. intros H. unfold PlainTextFormatter_write. rewrite H. reflexivity. Qed.

(** X18.  Without wrapping, and with strings, [None] and objects
    written as their [str] for arguments and prefix: [write] returns,
    having written the prefix of the current line (when it was at column
    0 and got an argument), then its string arguments in order, then a
    line feed when [autoline] is on; [_pos] has advanced by the number of
    characters written, or is back to 0 after the line feed. *)
Theorem write_unwrapped EPIPE fuel args kw_wrap kw_autoline f :
  default (wrap f) kw_wrap = false ->
  Forall plain args ->
  Forall plain (current_prefix f) ->
  (0 <= _pos f)%Z ->
  exists new f',
    write' EPIPE fuel args kw_wrap kw_autoline f = Some (Ret tt, f') /\
    stream f' = stream f ++ new /\
    joined new =
      line_start_text str_obj f args +:+ joined (texts' args) +:+
      (if default (autoline f) kw_autoline then newline else "") /\
    _pos f' =
      (if default (autoline f) kw_autoline then 0
       else _pos f + chars new)%Z /\
    _in_first_line f' =
      (if default (autoline f) kw_autoline then true else _in_first_line f).
Proof.
  intros Hwrap Hargs Hpre Hpos.
  destruct (args_loop_unwrapped fuel (encoding_of stream_encoding f) args f
              Hargs Hpre Hpos)
    as (new & f1 & Hrun & Hs & Hj & Hp & Hi & _).
  destruct (default (autoline f) kw_autoline) eqn:Hauto.
  - exists (new ++ [newline]), (set_in_first_line true
                                (set_pos 0 (set_wrote_something false
                                   (set_stream (stream f1 ++ [newline]) f1)))).
    split_and!; try reflexivity.
    + apply write_of_suite. unfold suite. rewrite Hwrap, Hauto.
      rewrite (and_then_ret _ _ _ _ _ Hrun). reflexivity.
    + cbn [stream set_in_first_line set_pos set_wrote_something set_stream].
      rewrite Hs, <- app_assoc. reflexivity.
    + rewrite joined_app, Hj, append_assoc. reflexivity.
  - exists new, f1. rewrite append_empty_r.
    split_and!; try assumption.
    apply write_of_suite. unfold suite. rewrite Hwrap, Hauto.
    rewrite (and_then_ret _ _ _ _ _ Hrun). reflexivity.
Qed.

Lemma solid_append s1 s2 : solid (s1 +:+ s2) = solid s1 ++ solid s2.
Proof.
  unfold solid. induction s1 as [|c s1 IH]; [reflexivity|].
  change (String c s1 +:+ s2) with (String c (s1 +:+ s2)).
  cbn [String.list_ascii_of_string List.filter]. rewrite IH.
  destruct (solid_char c); reflexivity.
Qed.

Lemma solid_joined_app l1 l2 :
  solid (joined (l1 ++ l2)) = solid (joined l1) ++ solid (joined l2).
Proof. rewrite joined_app. apply solid_append. Qed.

Lemma solid_joined_cons c l : solid (joined (c :: l)) = solid c ++ solid (joined l).
Proof. change (joined (c :: l)) with (c +:+ joined l). apply solid_append. Qed.

Lemma solid_of_list (l : list Ascii.ascii) :
  solid (String.string_of_list_ascii l) = List.filter solid_char l.
Proof. unfold solid. rewrite String.list_ascii_of_string_of_list_ascii. reflexivity. Qed.

Lemma solid_newline : solid newline = [].
Proof. reflexivity. Qed.

(** *** Wrapping *)

Lemma fits_mono w chunks : forall col col',
  (col' <= col)%Z -> fits w col chunks -> fits w col' chunks.
Proof.
  induction chunks as [|c chunks IH]; intros col col' Hle H; [exact I|].
  cbn [fits] in *. destruct (String.eqb c newline); [exact H|].
  destruct H as [H1 H2]. split; [lia|]. eapply IH; [|exact H2]. lia.
Qed.

Lemma fits_cons w col c chunks :
  (0 <= col)%Z ->
  (col + Z.of_nat (String.length c) <= w)%Z ->
  fits w (col + Z.of_nat (String.length c)) chunks ->
  fits w col (c :: chunks).
Proof.
  intros H0 Hc H. cbn [fits]. destruct (String.eqb c newline).
  - eapply fits_mono; [|exact H]. lia.
  - split; assumption.
Qed.

Lemma fits_newline w col chunks :
  fits w 0 chunks -> fits w col (newline :: chunks).
Proof. intros H. cbn [fits]. rewrite String.eqb_refl. exact H. Qed.

Lemma fits_chunks w pre : forall col chunks,
  (0 <= col)%Z ->
  (col + chars pre <= w)%Z ->
  fits w (col + chars pre) chunks ->
  fits w col (pre ++ chunks).
Proof.
  induction pre as [|c pre IH]; intros col chunks H0 Hc H.
  - rewrite chars_nil, Z.add_0_r in H. exact H.
  - rewrite chars_cons in Hc, H. pose proof (chars_nonneg pre).
    cbn [app]. apply fits_cons; [exact H0|lia|].
    apply IH; [lia|lia|]. rewrite <- Z.add_assoc. exact H.
Qed.

(** One turn of the wrapping loop on a [str]: a piece [bit] is written,
    then a line feed and the prefix of the later lines, and the loop
    goes on with what is left. *)
Lemma wrap_iteration n enc (l : list Ascii.ascii) f :
  Forall plain (later_prefix f) ->
  (width f < _pos f + Z.of_nat (length l))%Z ->
  exists bit rest,
    wrap_loop' (S n) enc true (Str l) f =
      wrap_loop' n enc true (Str rest) (after_break str_obj f bit) /\
    length rest <= length l /\
    (_in_first_line f = false -> _wrote_something f = false ->
     (_pos f < width f)%Z -> length rest < length l) /\
    ((0 <= _pos f <= width f)%Z ->
     (_in_first_line f = true \/ _wrote_something f = true \/
      (_pos f < width f)%Z) ->
     (_pos f + Z.of_nat (String.length bit) <= width f)%Z) /\
    solid bit ++ List.filter solid_char rest = List.filter solid_char l.
Proof.
  intros Hlater Hcond.
  set (maxlen := (width f - _pos f)%Z).
  set (space := rfind (fun ch => Ascii.eqb ch (Ascii.ascii_of_nat 32)) l maxlen).
  set (pick := if (space =? -1)%Z then
                 if _in_first_line f || _wrote_something f then ([], l)
                 else (slice_to l maxlen, slice_from l maxlen)
               else (slice_to l space, slice_from l (space + 1))).
  exists (String.string_of_list_ascii (fst pick)), (snd pick).
  refine (conj _ (conj _ (conj _ (conj _ _)))).
  - cbn [wrap_loop len]. cbn [andb].
    replace (width f <? _pos f + Z.of_nat (length l))%Z with true
      by (symmetry; apply Z.ltb_lt; exact Hcond).
    cbn [rfind_space text_to text_from]. fold maxlen. fold space.
    replace (if (space =? -1)%Z
             then if _in_first_line f || _wrote_something f then (Str [], Str l)
                  else (Str (slice_to l maxlen), Str (slice_from l maxlen))
             else (Str (slice_to l space), Str (slice_from l (space + 1))))
      with (Str (fst pick), Str (snd pick))
      by (subst pick; destruct (space =? -1)%Z;
          [destruct (_in_first_line f || _wrote_something f)|]; reflexivity).
    unfold and_then at 1. cbn [write_text]. unfold write_stream at 1.
    unfold buffer_write at 1, modify at 1.
    unfold and_then at 1. unfold write_stream at 1.
    unfold buffer_write at 1, modify at 1.
    unfold and_then at 1, update at 1.
    match goal with |- and_then _ _ ?g = _ => set (f1 := g) end.
    assert (Hcur : current_prefix f1 = later_prefix f) by reflexivity.
    assert (Hpre : _write_prefix' n true f1 =
                   Some (Ret tt, after_break str_obj f
                                   (String.string_of_list_ascii (fst pick)))).
    { rewrite write_prefix_plain by (rewrite Hcur; exact Hlater).
      rewrite Hcur. f_equal. f_equal. subst f1. unfold after_break. cbn zeta.
      fmt_eq. rewrite <- !app_assoc. reflexivity. }
    rewrite (and_then_ret _ _ _ _ _ Hpre). reflexivity.
  - subst pick. destruct (space =? -1)%Z;
      [destruct (_in_first_line f || _wrote_something f)|]; cbn [snd];
      rewrite ?length_slice_from; lia.
  - intros Hfirst Hwrote Hpos. subst pick. rewrite Hfirst, Hwrote. cbn [orb].
    pose proof (rfind_range (fun ch => Ascii.eqb ch (Ascii.ascii_of_nat 32)) l maxlen)
      as Hr. fold space in Hr.
    destruct (space =? -1)%Z eqn:Hs; cbn [snd]; rewrite length_slice_from.
    + rewrite index_inside by (subst maxlen; lia). subst maxlen. lia.
    + apply Z.eqb_neq in Hs. destruct Hr as [Hr|Hr]; [contradiction|].
      pose proof (index_le (length l) maxlen).
      rewrite index_inside by lia. lia.
  - intros Hpos Hflags. subst pick.
    pose proof (rfind_range (fun ch => Ascii.eqb ch (Ascii.ascii_of_nat 32)) l maxlen)
      as Hr. fold space in Hr.
    destruct (space =? -1)%Z eqn:Hs.
    + destruct (_in_first_line f || _wrote_something f) eqn:Hfl; cbn [fst].
      * cbn. lia.
      * apply orb_false_iff in Hfl as [Hf1 Hf2].
        destruct Hflags as [H|[H|H]]; [congruence|congruence|].
        rewrite length_string_of_list, length_slice_to.
        rewrite index_inside by (subst maxlen; lia). subst maxlen. lia.
    + apply Z.eqb_neq in Hs. destruct Hr as [Hr|Hr]; [contradiction|]. cbn [fst].
      rewrite length_string_of_list, length_slice_to.
      pose proof (index_le (length l) maxlen).
      pose proof (index_small (length l) maxlen ltac:(subst maxlen; lia)).
      rewrite index_inside by lia. subst maxlen. lia.
  - rewrite solid_of_list, <- List.filter_app. subst pick.
    pose proof (rfind_range (fun ch => Ascii.eqb ch (Ascii.ascii_of_nat 32)) l maxlen)
      as Hr. fold space in Hr.
    destruct (space =? -1)%Z eqn:Hs.
    + destruct (_in_first_line f || _wrote_something f); cbn [fst snd];
        [reflexivity|rewrite slices_join; reflexivity].
    + apply Z.eqb_neq in Hs. destruct Hr as [Hr|Hr]; [contradiction|]. cbn [fst snd].
      destruct (rfind_found (fun ch => Ascii.eqb ch (Ascii.ascii_of_nat 32)) l maxlen)
        as (x & Hx & Hsp); [fold space; lia|]. fold space in Hx.
      pose proof (index_le (length l) maxlen).
      unfold slice_to, slice_from.
      rewrite (index_inside (length l) space) by lia.
      rewrite (index_inside (length l) (space + 1)) by lia.
      replace (Z.to_nat (space + 1)) with (S (Z.to_nat space)) by lia.
      rewrite <- (take_drop_middle l (Z.to_nat space) x Hx) at 3.
      rewrite !List.filter_app. f_equal. cbn [List.filter].
      apply Ascii.eqb_eq in Hsp. subst x. reflexivity.
Qed.

Lemma same_setup_refl f : same_setup f f.
Proof. unfold same_setup. split_and!; reflexivity. Qed.

Lemma same_setup_trans f g h : same_setup f g -> same_setup g h -> same_setup f h.
Proof. unfold same_setup. intros ? ?. split_and!; intuition congruence. Qed.

Lemma after_break_facts f bit :
  same_setup f (after_break str_obj f bit) /\
  _in_first_line (after_break str_obj f bit) = false /\
  _wrote_something (after_break str_obj f bit) = false /\
  (_pos (after_break str_obj f bit) < width f)%Z /\
  stream (after_break str_obj f bit) =
    stream f ++ [bit; newline] ++ texts' (later_prefix f) /\
  ((chars (texts' (later_prefix f)) < width f)%Z ->
   _pos (after_break str_obj f bit) = chars (texts' (later_prefix f))).
Proof.
  unfold after_break, same_setup. cbn zeta.
  cbn [width first_prefix later_prefix autoline wrap ext _in_first_line
       _wrote_something _pos stream set_stream set_pos set_wrote_something
       set_in_first_line].
  split_and!; try reflexivity.
  - destruct (Z.leb_spec (width f) (chars (texts' (later_prefix f)))); lia.
  - intros H. destruct (Z.leb_spec (width f) (chars (texts' (later_prefix f)))); lia.
Qed.

(** The wrapping loop on a [str] comes to an end, and what it writes
    fits the lines when the formatter is within its line. *)
Lemma wrap_loop_returns n enc : forall (l : list Ascii.ascii) f,
  Forall plain (later_prefix f) ->
  (length l < n \/
   (length l <= n /\ _in_first_line f = false /\ _wrote_something f = false /\
    (_pos f < width f)%Z)) ->
  exists rest new f',
    wrap_loop' n enc true (Str l) f = Some (Ret (Str rest), f') /\
    stream f' = stream f ++ new /\
    same_setup f f' /\
    length rest <= length l /\
    (_pos f' + Z.of_nat (length rest) <= width f')%Z /\
    (in_line str_obj f ->
     (0 <= _pos f')%Z /\
     forall cont, fits (width f) (_pos f') cont -> fits (width f) (_pos f) (new ++ cont)) /\
    (solid (joined (texts' (later_prefix f))) = [] ->
     solid (joined new) ++ List.filter solid_char rest = List.filter solid_char l).
Proof.
  induction n as [|m IH]; intros l f Hlater Hfuel.
  - assert (Hl : l = [] /\ (_pos f < width f)%Z).
    { destruct Hfuel as [H|(H & _ & _ & Hp)]; [lia|].
      split; [destruct l; [reflexivity|cbn in H; lia]|exact Hp]. }
    destruct Hl as [-> Hp].
    exists [], [], f. cbn [wrap_loop len length andb].
    replace (width f <? _pos f + Z.of_nat 0)%Z with false
      by (symmetry; apply Z.ltb_ge; lia).
    rewrite app_nil_r.
    refine (conj eq_refl (conj eq_refl (conj (same_setup_refl f)
              (conj _ (conj _ (conj _ _)))))).
    + cbn [length]. lia.
    + cbn [length]. lia.
    + intros Hin. split; [apply Hin|]. intros cont H; exact H.
    + intros _. reflexivity.
  - destruct (Z.ltb_spec (width f) (_pos f + Z.of_nat (length l))) as [Hcond|Hcond].
    + destruct (wrap_iteration m enc l f Hlater Hcond)
        as (bit & rest1 & Hstep & Hle & Hlt & Hbit & Hsolid).
      destruct (after_break_facts f bit) as (Hsame & Hfirst & Hwrote & Hpos & Hstream & Hcol).
      destruct (IH rest1 (after_break str_obj f bit)) as
        (rest & new2 & f' & Hrun & Hs2 & Hsame2 & Hle2 & Hexit & Hfit2 & Hsol2).
      { destruct Hsame as (_ & _ & Hlp & _). rewrite Hlp. exact Hlater. }
      { right. destruct Hsame as (Hw & _). rewrite Hw. split_and!; try assumption.
        destruct Hfuel as [H|(H & H1 & H2 & H3)]; [lia|].
        specialize (Hlt H1 H2 H3). lia. }
      exists rest, ([bit; newline] ++ texts' (later_prefix f) ++ new2), f'.
      rewrite Hstep, Hrun.
      refine (conj eq_refl (conj _ (conj (same_setup_trans _ _ _ Hsame Hsame2)
                (conj _ (conj Hexit (conj _ _)))))).
      4:{ intros Hblank. destruct Hsame as (_ & _ & Hlp & _).
          rewrite Hlp in Hsol2. specialize (Hsol2 Hblank).
          rewrite !solid_joined_app, <- !app_assoc, Hblank.
          change (joined [bit; newline]) with (bit +:+ (newline +:+ "")).
          rewrite !solid_append, solid_newline. cbn [app].
          change (solid "") with (@nil Ascii.ascii). rewrite app_nil_r, Hsol2.
          exact Hsolid. }
      * rewrite Hs2, Hstream, <- !app_assoc. reflexivity.
      * lia.
      * intros Hin. pose proof Hin as ((Hp0 & Hp1) & Hflags & Hfp & Hlp).
        assert (Hin' : in_line str_obj (after_break str_obj f bit)).
        { destruct Hsame as (Hw & Hf1 & Hl1 & _). unfold in_line.
          rewrite Hw, Hf1, Hl1, (Hcol Hlp). pose proof (chars_nonneg (texts' (later_prefix f))).
          split_and!; try assumption; lia. }
        destruct (Hfit2 Hin') as [Hpos' Hfits]. split; [exact Hpos'|].
        intros cont Hcont.
        destruct Hsame as (Hw & _). rewrite Hw in Hfits.
        specialize (Hfits cont Hcont). rewrite (Hcol Hlp) in Hfits.
        rewrite <- !app_assoc. cbn [app].
        apply fits_cons; [exact Hp0|apply Hbit; [split|]; assumption|].
        apply fits_newline.
        pose proof (chars_nonneg (texts' (later_prefix f))).
        apply fits_chunks; [lia|lia|exact Hfits].
    + exists l, [], f.
      assert (Hrun : wrap_loop' (S m) enc true (Str l) f = Some (Ret (Str l), f)).
      { cbn [wrap_loop len andb].
        replace (width f <? _pos f + Z.of_nat (length l))%Z with false
          by (symmetry; apply Z.ltb_ge; lia). reflexivity. }
      rewrite Hrun, app_nil_r.
      refine (conj eq_refl (conj eq_refl (conj (same_setup_refl f)
                (conj _ (conj _ (conj _ _)))))).
      * lia.
      * lia.
      * intros Hin. split; [apply Hin|]. intros cont H; exact H.
      * intros _. reflexivity.
Qed.

Lemma write_text_list enc (l : list Ascii.ascii) f :
  write_text' enc (Str l) f =
  Some (Ret tt, set_stream (stream f ++ [String.string_of_list_ascii l]) f).
Proof. reflexivity. Qed.

Lemma longest_cons t ts :
  longest str_obj (t :: ts) =
  match shown str_obj t with
  | Some s => Nat.max (String.length s) (longest str_obj ts)
  | None => longest str_obj ts
  end.
Proof. unfold longest. rewrite texts_cons. destruct (shown str_obj t); reflexivity. Qed.

(** The prefix at the start of an argument. *)
Lemma line_start_step fuel f :
  Forall plain (first_prefix f) ->
  Forall plain (later_prefix f) ->
  exists new f1,
    (if (_pos f =? 0)%Z then _write_prefix' fuel true f else Some (Ret tt, f))
      = Some (Ret tt, f1) /\
    stream f1 = stream f ++ new /\
    same_setup f f1 /\
    (in_line str_obj f ->
     in_line str_obj f1 /\
     forall cont, fits (width f) (_pos f1) cont -> fits (width f) (_pos f) (new ++ cont)) /\
    (blank_prefixes str_obj f -> solid (joined new) = []).
Proof.
  intros Hfirst Hlater.
  assert (Hcur : Forall plain (current_prefix f))
    by (unfold current_prefix; destruct (_in_first_line f); assumption).
  destruct (_pos f =? 0)%Z eqn:Hz.
  - apply Z.eqb_eq in Hz. rewrite (write_prefix_plain fuel true f Hcur). cbn zeta.
    eexists (texts' (current_prefix f)), _. split; [reflexivity|].
    cbn [stream _pos set_stream set_pos]. split; [reflexivity|].
    split; [unfold same_setup; split_and!; reflexivity|].
    split; [|intros [Hb1 Hb2]; unfold current_prefix;
             destruct (_in_first_line f); assumption].
    intros ((Hp0 & Hp1) & Hflags & Hfp & Hlp).
    assert (Hfit : (chars (texts' (current_prefix f)) < width f)%Z)
      by (unfold current_prefix; destruct (_in_first_line f); assumption).
    pose proof (chars_nonneg (texts' (current_prefix f))) as Hnn.
    rewrite Hz, Z.add_0_l. cbn [andb].
    destruct (Z.leb_spec (width f) (chars (texts' (current_prefix f)))) as [H|H]; [lia|].
    split.
    + unfold in_line.
      cbn [width first_prefix later_prefix _in_first_line _wrote_something _pos
           set_stream set_pos].
      split_and!; try assumption; lia.
    + intros cont Hcont. apply fits_chunks; [lia|lia|]. rewrite Z.add_0_l. exact Hcont.
  - exists [], f. rewrite app_nil_r.
    split; [reflexivity|]. split; [reflexivity|]. split; [apply same_setup_refl|].
    split; [|intros _; reflexivity].
    intros Hin. split; [exact Hin|]. intros cont H; exact H.
Qed.

(** The loop over the arguments of [write] with wrapping on. *)
Lemma args_loop_wrapped fuel enc args : forall f,
  Forall plain args ->
  Forall plain (first_prefix f) ->
  Forall plain (later_prefix f) ->
  longest str_obj args < fuel ->
  exists new f',
    args_loop' fuel enc true args f = Some (Ret tt, f') /\
    stream f' = stream f ++ new /\
    same_setup f f' /\
    (in_line str_obj f ->
     in_line str_obj f' /\
     forall cont, fits (width f) (_pos f') cont -> fits (width f) (_pos f) (new ++ cont)) /\
    (blank_prefixes str_obj f ->
     solid (joined new) = solid (joined (texts' args))).
Proof.
  induction args as [|t rest IH]; intros f Hargs Hfirst Hlater Hfuel.
  - exists [], f. rewrite app_nil_r.
    split; [reflexivity|]. split; [reflexivity|]. split; [apply same_setup_refl|].
    split; [|intros _; reflexivity].
    intros Hin. split; [exact Hin|]. intros cont H; exact H.
  - apply Forall_cons in Hargs as [Ht Hrest]. rewrite longest_cons in Hfuel.
    cbn [args_loop].
    destruct (line_start_step fuel f Hfirst Hlater)
      as (new1 & f1 & Hstep1 & Hs1 & Hsame1 & Hfit1 & Hsol1).
    assert (Hblank1 : forall g, same_setup f g ->
              blank_prefixes str_obj f -> blank_prefixes str_obj g).
    { intros g (_ & Hg1 & Hg2 & _) Hb. unfold blank_prefixes. rewrite Hg1, Hg2.
      exact Hb. }
    rewrite (and_then_ret _ _ _ _ _ Hstep1).
    rewrite (and_then_ret _ _ _ _ _ (resolve_plain fuel t f1 Ht)).
    pose proof Hsame1 as (Hw1 & Hfp1 & Hlp1 & _).
    rewrite texts_cons.
    unfold text_of. destruct (shown str_obj t) as [s|]; cbn [fmap option_fmap option_map].
    + destruct (wrap_loop_returns fuel enc (String.list_ascii_of_string s) f1)
        as (l' & new2 & f2 & Hrun & Hs2 & Hsame2 & Hle2 & Hexit & Hfit2 & Hsol2).
      { rewrite Hlp1. exact Hlater. }
      { left. rewrite length_list_ascii. lia. }
      rewrite (and_then_ret _ _ _ _ _ Hrun).
      unfold update. unfold and_then at 1. unfold and_then at 1.
      unfold and_then at 1. rewrite write_text_list.
      cbn [stream _pos set_stream set_pos set_wrote_something len].
      match goal with |- context [args_loop' _ _ _ rest ?g] => set (f3 := g) end.
      pose proof Hsame2 as (Hw2 & Hfp2 & Hlp2 & Ha2 & Hwr2 & He2).
      assert (Hsame3 : same_setup f2 f3)
        by (subst f3; unfold same_setup; split_and!; reflexivity).
      destruct (IH f3) as (new3 & f' & Hrun3 & Hs3 & Hsame4 & Hfit3 & Hsol3).
      { exact Hrest. }
      { subst f3. cbn [first_prefix set_stream set_pos set_wrote_something].
        rewrite Hfp2, Hfp1. exact Hfirst. }
      { subst f3. cbn [later_prefix set_stream set_pos set_wrote_something].
        rewrite Hlp2, Hlp1. exact Hlater. }
      { lia. }
      exists (new1 ++ new2 ++ String.string_of_list_ascii l' :: new3), f'.
      rewrite Hrun3.
      refine (conj eq_refl (conj _ (conj _ (conj _ _)))).
      4:{ intros Hb.
          assert (Hb3 : blank_prefixes str_obj f3).
          { apply Hblank1; [|exact Hb]. eapply same_setup_trans; [exact Hsame1|].
            eapply same_setup_trans; [exact Hsame2|exact Hsame3]. }
          assert (Hb1 : solid (joined (texts' (later_prefix f1))) = [])
            by (rewrite Hlp1; apply Hb).
          specialize (Hsol2 Hb1).
          rewrite !solid_joined_app, (Hsol1 Hb), !solid_joined_cons, (Hsol3 Hb3).
          cbn [app]. rewrite solid_of_list, app_assoc, Hsol2. reflexivity. }
      * rewrite Hs3. subst f3. cbn [stream set_stream set_pos set_wrote_something].
        rewrite Hs2, Hs1, <- !app_assoc. reflexivity.
      * eapply same_setup_trans; [exact Hsame1|].
        eapply same_setup_trans; [exact Hsame2|].
        eapply same_setup_trans; [exact Hsame3|exact Hsame4].
      * intros Hin. destruct (Hfit1 Hin) as [Hin1 Hcont1].
        destruct (Hfit2 Hin1) as [Hpos2 Hcont2].
        assert (Hin3 : in_line str_obj f3).
        { destruct Hin1 as (_ & _ & Hq1 & Hq2). subst f3. unfold in_line.
          cbn [width first_prefix later_prefix _in_first_line _wrote_something _pos
               set_stream set_pos set_wrote_something].
          rewrite Hfp2, Hlp2, Hw2. rewrite Hw2 in Hexit.
          split_and!; [lia|lia|right; left; reflexivity|exact Hq1|exact Hq2]. }
        destruct (Hfit3 Hin3) as [Hin' Hcont3]. split; [exact Hin'|].
        intros cont Hcont. rewrite <- !app_assoc. apply Hcont1.
        rewrite <- Hw1. apply Hcont2. cbn [app].
        rewrite Hw1. rewrite Hw2 in Hexit.
        assert (Hw3 : width f3 = width f) by (subst f3; cbn; congruence).
        rewrite Hw3 in Hcont3. specialize (Hcont3 cont Hcont).
        subst f3. cbn [_pos set_stream set_pos set_wrote_something] in Hcont3.
        apply fits_cons; rewrite ?length_string_of_list; [exact Hpos2|lia|exact Hcont3].
    + destruct (IH f1) as (new3 & f' & Hrun3 & Hs3 & Hsame4 & Hfit3 & Hsol3).
      { exact Hrest. }
      { rewrite Hfp1. exact Hfirst. }
      { rewrite Hlp1. exact Hlater. }
      { exact Hfuel. }
      exists (new1 ++ new3), f'. rewrite Hrun3.
      refine (conj eq_refl (conj _ (conj _ (conj _ _)))).
      4:{ intros Hb. rewrite solid_joined_app, (Hsol1 Hb).
          apply Hsol3. apply Hblank1; assumption. }
      * rewrite Hs3, Hs1, <- app_assoc. reflexivity.
      * eapply same_setup_trans; eassumption.
      * intros Hin. destruct (Hfit1 Hin) as [Hin1 Hcont1].
        destruct (Hfit3 Hin1) as [Hin' Hcont3]. split; [exact Hin'|].
        intros cont Hcont. rewrite <- app_assoc. apply Hcont1.
        rewrite Hw1 in Hcont3. apply Hcont3. exact Hcont.
Qed.

(** X19.  With wrapping on, and with strings, [None] and objects
    written as their [str] for arguments and prefixes, [write] comes to
    an end whatever the width and the state of the formatter (the
    wrapping loop of an argument makes at most one turn more than the
    argument has characters).  When moreover the formatter is within its
    line and both prefixes are shorter than the width, no line it writes
    is longer than the width, and it is within its line again
    afterwards. *)
Theorem wrapped_write_fits EPIPE fuel args kw_wrap kw_autoline f :
  default (wrap f) kw_wrap = true ->
  Forall plain args ->
  Forall plain (first_prefix f) ->
  Forall plain (later_prefix f) ->
  longest str_obj args < fuel ->
  exists new f',
    write' EPIPE fuel args kw_wrap kw_autoline f = Some (Ret tt, f') /\
    stream f' = stream f ++ new /\
    (in_line str_obj f ->
     fits (width f) (_pos f) new /\ in_line str_obj f').
Proof.
  intros Hwrap Hargs Hfirst Hlater Hfuel.
  destruct (args_loop_wrapped fuel (encoding_of stream_encoding f) args f
              Hargs Hfirst Hlater Hfuel)
    as (new & f1 & Hrun & Hs & Hsame & Hfit & _).
  destruct (default (autoline f) kw_autoline) eqn:Hauto.
  - exists (new ++ [newline]), (set_in_first_line true
                                (set_pos 0 (set_wrote_something false
                                   (set_stream (stream f1 ++ [newline]) f1)))).
    refine (conj _ (conj _ _)).
    + apply write_of_suite. unfold suite. rewrite Hwrap, Hauto.
      rewrite (and_then_ret _ _ _ _ _ Hrun). reflexivity.
    + cbn [stream set_in_first_line set_pos set_wrote_something set_stream].
      rewrite Hs, <- app_assoc. reflexivity.
    + intros Hin. destruct (Hfit Hin) as [((Hp0 & Hp1) & _ & Hq1 & Hq2) Hcont]. split.
      * apply Hcont. apply fits_newline. exact I.
      * unfold in_line.
        cbn [width first_prefix later_prefix _in_first_line _wrote_something _pos
             set_stream set_pos set_wrote_something set_in_first_line].
        split_and!; [lia|lia|left; reflexivity|exact Hq1|exact Hq2].
  - exists new, f1.
    refine (conj _ (conj Hs _)).
    + apply write_of_suite. unfold suite. rewrite Hwrap, Hauto.
      rewrite (and_then_ret _ _ _ _ _ Hrun). reflexivity.
    + intros Hin. destruct (Hfit Hin) as [Hin1 Hcont]. split; [|exact Hin1].
      rewrite <- (app_nil_r new). apply Hcont. exact I.
Qed.

(** X22.  Wrapping loses nothing but blanks: with wrapping on, prefixes
    made of blanks, and strings, [None] and objects for arguments, the
    characters [write] puts on the stream other than blanks and line
    feeds are those of its arguments, in order, whatever the width and
    the state of the formatter. *)
Theorem wrapping_keeps_text EPIPE fuel args kw_wrap kw_autoline f :
  default (wrap f) kw_wrap = true ->
  Forall plain args ->
  Forall plain (first_prefix f) ->
  Forall plain (later_prefix f) ->
  blank_prefixes str_obj f ->
  longest str_obj args < fuel ->
  exists new f',
    write' EPIPE fuel args kw_wrap kw_autoline f = Some (Ret tt, f') /\
    stream f' = stream f ++ new /\
    solid (joined new) = solid (joined (texts' args)).
Proof.
  intros Hwrap Hargs Hfirst Hlater Hblank Hfuel.
  destruct (args_loop_wrapped fuel (encoding_of stream_encoding f) args f
              Hargs Hfirst Hlater Hfuel)
    as (new & f1 & Hrun & Hs & _ & _ & Hsol).
  destruct (default (autoline f) kw_autoline) eqn:Hauto.
  - exists (new ++ [newline]), (set_in_first_line true
                                (set_pos 0 (set_wrote_something false
                                   (set_stream (stream f1 ++ [newline]) f1)))).
    refine (conj _ (conj _ _)).
    + apply write_of_suite. unfold suite. rewrite Hwrap, Hauto.
      rewrite (and_then_ret _ _ _ _ _ Hrun). reflexivity.
    + cbn [stream set_in_first_line set_pos set_wrote_something set_stream].
      rewrite Hs, <- app_assoc. reflexivity.
    + rewrite solid_joined_app, (Hsol Hblank).
      change (solid (joined [newline])) with (@nil Ascii.ascii).
      apply app_nil_r.
  - exists new, f1.
    refine (conj _ (conj Hs (Hsol Hblank))).
    apply write_of_suite. unfold suite. rewrite Hwrap, Hauto.
    rewrite (and_then_ret _ _ _ _ _ Hrun). reflexivity.
Qed.

End SuiteFacts.

Lemma write_unwrapped_witness :
  exists new f',
    sample_write 0 fetch_message None None (quoting 10)
      = Some (Ret tt, f') /\
    Formatters.stream f' = [] ++ new /\
    joined new =
      line_start_text show_obj (quoting 10)
        fetch_message +:+
      joined (texts show_obj
                fetch_message) +:+
      Formatters.newline /\
    Formatters._pos f' = 0%Z /\
    Formatters._in_first_line f' = true.
Proof.
  apply (write_unwrapped no_encoding ascii_replace show_obj no_callable linux_EPIPE 0
           fetch_message
           None None (quoting 10)).
  - reflexivity.
  - unfold fetch_message. repeat constructor.
  - repeat constructor.
  - cbn. lia.
Defined.

Lemma quoting_in_line : in_line show_obj (quoting 10).
Proof.
  unfold in_line. split_and!.
  - vm_compute. discriminate.
  - vm_compute. discriminate.
  - left. reflexivity.
  - vm_compute. reflexivity.
  - vm_compute. reflexivity.
Qed.

Lemma wrapped_write_fits_witness :
  in_line show_obj (quoting 10) /\
  exists new f',
    sample_write 30 long_line (Some true) None
      (quoting 10) = Some (Ret tt, f') /\
    Formatters.stream f' = [] ++ new /\
    (in_line show_obj (quoting 10) ->
     fits 10 0 new /\ in_line show_obj f').
Proof.
  split; [exact quoting_in_line|].
  apply (wrapped_write_fits no_encoding ascii_replace show_obj no_callable linux_EPIPE
           30 long_line (Some true) None
           (quoting 10)).
  - reflexivity.
  - unfold long_line. repeat constructor.
  - repeat constructor.
  - repeat constructor.
  - cbn. lia.
Defined.

(** The two runs, evaluated; a word longer than the line is cut at the
    width; and a prefix that does not fit puts the formatter at
    [width - 10], left of the line start when the width is below 10. *)
Example unwrapped_run :
  output (sample_write 0 fetch_message None None (quoting 10))
  = Some ["> "; "fetching "; "<object>"; Formatters.newline].
Proof. vm_compute. reflexivity. Qed.

Example wrapped_run :
  output (sample_write 30 long_line (Some true) None
            (quoting 10))
  = Some ["> "; "hello"; Formatters.newline; "  "; "world"; Formatters.newline;
          "  "; "foo bar"; Formatters.newline; "  "; "baz"; Formatters.newline].
Proof. vm_compute. reflexivity. Qed.

Example long_word_run :
  output (sample_write 30 [Formatters.TStr "abcdefghijklmnopqrstuvwxyz"] (Some true)
            None (quoting 10))
  = Some ["> "; ""; Formatters.newline; "  "; "abcdefgh"; Formatters.newline;
          "  "; "ijklmnop"; Formatters.newline; "  "; "qrstuvwx"; Formatters.newline;
          "  "; "yz"; Formatters.newline].
Proof. vm_compute. reflexivity. Qed.

Example narrow_run :
  (fun r => (Formatters.stream (snd r), Formatters._pos (snd r))) <$>
    sample_write 30 [Formatters.TStr "ab"] (Some true) (Some false) (quoting 2)
  = Some (["> "; "ab"], (-6)%Z).
Proof. vm_compute. reflexivity. Qed.

Lemma indenting_blank : blank_prefixes show_obj (indenting 12).
Proof. split; vm_compute; reflexivity. Qed.

Lemma wrapping_keeps_text_witness :
  exists new f',
    sample_write 30 long_line None None (indenting 12) = Some (Ret tt, f') /\
    Formatters.stream f' = [] ++ new /\
    solid (joined new) = solid (joined (texts show_obj long_line)).
Proof.
  apply (wrapping_keeps_text no_encoding ascii_replace show_obj no_callable linux_EPIPE
           30 long_line None None (indenting 12)).
  - reflexivity.
  - unfold long_line. repeat constructor.
  - repeat constructor.
  - repeat constructor.
  - exact indenting_blank.
  - cbn. lia.
Defined.

(** The run, evaluated: the blanks at which the line was broken are
    gone, every other character is there. *)
Example indenting_run :
  output (sample_write 30 long_line None None (indenting 12))
  = Some [""; "hello world"; Formatters.newline; "    "; "foo bar"; Formatters.newline;
          "    "; "baz"; Formatters.newline].
Proof. vm_compute. reflexivity. Qed.

(** ** The proxy registry *)

Section ProxyFacts.

Import Repo Registry.

Implicit Types (c d : gmap string attribute) (r : repository) (target : registry).








(** [__init__] is [__init__on] a new instance. *)
Lemma init_is_init_on c r dis en :
  __init__ c r dis en = __init__on c ∅ (_collect_operations c) r dis en.
Proof. reflexivity. Qed.








End ProxyFacts.

Lemma held_back_built :
  Registry.__init__ full_class syncing_repo ["install"] [] = Ret held_back.
Proof. vm_compute. reflexivity. Qed.



(** The proxy over a frozen repository enables what the target's class
    supports, install included, although the target itself was built
    with install disabled. *)
Example proxy_enables_install :
  elements (Registry._enabled_ops held_back)
    = ["sync"; "configure"; "uninstall"; "replace"] /\
  elements (Registry._enabled_ops proxying)
    = ["sync"; "configure"; "uninstall"; "install"; "replace"] /\
  Registry._cmd_enabled_install idle_handlers proxying (Repo.Pkg 1) None []
    = (Ret VNone,
       [("_cmd_install",
         [Registry.ArgPkg (Repo.Pkg 1); Registry.ArgObserver Registry.RepoObserver])]).
Proof. vm_compute. repeat split. Qed.

(** ** The terminfo formatter *)

Section TerminfoFacts.

Import Formatters.

Context {St C0 : Type}.
Variable stream_write : string -> M St unit.
Variable stream_encoding : St -> option string.
Variable encode : string -> list N -> outcome string.
Variable str_obj : nat -> string.
Variable other_call : C0 -> M (tformatter St C0) (thing (code C0)).
Variables COLOR_BLACK COLOR_RED COLOR_GREEN COLOR_YELLOW : Z.
Variables COLOR_BLUE COLOR_MAGENTA COLOR_CYAN COLOR_WHITE : Z.
Variable tparm : string -> Z -> string.

Local Abbreviation reset_codes' := (reset_codes (C0 := C0) stream_write).

Implicit Types (f : tformatter St C0).

(** The resetting statements leave no mode and no colour on, when they
    come to their end. *)
Lemma reset_codes_off f f' :
  reset_codes' f = (Ret tt, f') ->
  _modes (ext f') = ∅ /\ _current_colors (ext f') = (None, None).
Proof.
  unfold reset_codes, bind, get, ret, modify.
  destruct (bool_decide (_modes (ext f) <> ∅)) eqn:Hm.
  - unfold TerminfoReset__call__, bind, code_write, ret.
    cbn [stream ext set_ext set_stream set_modes _modes _current_colors _color_reset].
    destruct (stream_write (reset_value (ext f)) (stream f)) as [[[]|e] st];
      [|discriminate].
    cbn [stream ext set_ext set_stream set_modes _modes _current_colors _color_reset].
    destruct (bool_decide (_current_colors (ext f) <> (None, None))) eqn:Hc.
    + cbn [stream ext set_ext set_stream set_current_colors _modes _current_colors].
      destruct (stream_write _ st) as [[[]|e] st']; [|discriminate].
      intros H. injection H as <-. split; reflexivity.
    + apply bool_decide_eq_false in Hc. intros H. injection H as <-.
      cbn [stream ext set_ext set_stream set_modes _modes _current_colors].
      split; [reflexivity|]. destruct (decide (_current_colors (ext f) = (None, None)));
        [assumption|contradiction].
  - apply bool_decide_eq_false in Hm.
    assert (Hm' : _modes (ext f) = ∅)
      by (destruct (decide (_modes (ext f) = ∅)); [assumption|contradiction]).
    destruct (bool_decide (_current_colors (ext f) <> (None, None))) eqn:Hc.
    + unfold code_write.
      cbn [stream ext set_ext set_stream set_current_colors _modes _current_colors].
      destruct (stream_write _ (stream f)) as [[[]|e] st']; [|discriminate].
      intros H. injection H as <-. split; [exact Hm'|reflexivity].
    + apply bool_decide_eq_false in Hc. intros H. injection H as <-.
      split; [exact Hm'|].
      destruct (decide (_current_colors (ext f) = (None, None)));
        [assumption|contradiction].
Qed.

(** X21.  A [TerminfoFormatter.write] that returns leaves no mode and
    no colour switched on, whatever its arguments switched on: the
    formatting of one [write] never reaches the next.  When nothing is on
    after the arguments were written, the resetting statements write
    nothing. *)
Theorem terminfo_write_resets EPIPE fuel args kw_wrap kw_autoline f :
  (forall f',
     TerminfoFormatter_write stream_write stream_encoding encode str_obj other_call
       COLOR_BLACK COLOR_RED COLOR_GREEN COLOR_YELLOW COLOR_BLUE COLOR_MAGENTA
       COLOR_CYAN COLOR_WHITE tparm EPIPE fuel args kw_wrap kw_autoline f
     = Some (Ret tt, f') ->
     _modes (ext f') = ∅ /\ _current_colors (ext f') = (None, None)) /\
  (forall f1, _modes (ext f1) = ∅ -> _current_colors (ext f1) = (None, None) ->
     reset_codes stream_write f1 = (Ret tt, f1)).
Proof.
  split.
  - intros f' H. unfold TerminfoFormatter_write in H.
    destruct (PlainTextFormatter_write _ _ _ _ _ _ _ _ _ _ f) as [[[[]|e] f1]|];
      cbn [fmap option_fmap option_map] in H; [| |discriminate H].
    + unfold write, try_except in H.
      destruct (reset_codes' f1) as [[[]|e] f2] eqn:Hr.
      * injection H as <-. exact (reset_codes_off f1 f2 Hr).
      * destruct (isinstance e IOError_); [|discriminate H].
        unfold on_IOError in H. destruct (bool_decide _); discriminate H.
    + unfold write, try_except in H.
      destruct (isinstance e IOError_); [|discriminate H].
      unfold on_IOError in H. destruct (bool_decide _); discriminate H.
  - intros f1 Hm Hc. unfold reset_codes, bind, get, ret.
    rewrite Hm. rewrite bool_decide_eq_false_2 by (intros H; apply H; reflexivity).
    rewrite Hc. rewrite bool_decide_eq_false_2 by (intros H; apply H; reflexivity).
    reflexivity.
Qed.

End TerminfoFacts.

(** Bold text in red on the sample terminal: the codes are written
    where they stand among the arguments (the empty prefix before each
    argument that finds the formatter at column 0), the line feed
    follows, and the resets come last. *)
Example terminal_run :
  (fun r => (Formatters.stream (snd r), Formatters._modes (Formatters.ext (snd r)),
             Formatters._current_colors (Formatters.ext (snd r)))) <$>
    terminal_write 1 [Formatters.bold terminal; Formatters.fg (Some "red");
                      Formatters.TStr "failed"] None None terminal
  = Some ([""; "<bold>"; ""; "<setaf>1"; ""; "failed"; Formatters.newline;
           "<sgr0>"; "<op>"], ∅, (None, None)).
Proof. vm_compute. reflexivity. Qed.

(** A callable argument needs an iteration of its [while] loop. *)
Example terminal_no_fuel :
  terminal_write 0 [Formatters.bold terminal] None None terminal = None.
Proof. vm_compute. reflexivity. Qed.
